(** * CPGPython/_statements.py: the statement lowering of the Python frontend

    A shallow embedding of [handle_statement], [handle_statement_impl],
    [handle_function_or_method], [handle_argument], [handle_for],
    [make_compound_statement], [handle_assign] and [handle_assign_impl],
    followed by the properties of the lowering that the specification
    states.

    Modelling conventions.
    - The Python [ast] nodes are the inductive types of [Module ast].
    - The graph nodes that this file builds (declarations, statements,
      annotations) are Java objects that are mutated through setters
      while other parties hold a reference to them (the scope manager is
      given the function before its receiver is set, the record before
      its methods are added).  They live in a store, [heap], and are
      referred to by location; a setter updates the store.
    - The expression lowerer, the scope manager, the source-text lookup
      and the helpers of [_misc] are collaborators outside this file.
      They are the fields of [Frontend]; their own state is the abstract
      type [E].  A collaborator reads the store but does not write it.
    - A Python exception is the [Raised] outcome of the monad [M]. *)

From Stdlib Require Import String Ascii List Bool Arith Lia.
From stdpp Require Import base list strings.
Import ListNotations.

Set Implicit Arguments.
Local Set Warnings "-register-all".
Local Open Scope string_scope.
Local Open Scope list_scope.

(** ** The Python syntax tree *)

Module ast.

Inductive operator :=
  | Add | Sub | Mult | MatMult | Div | Mod | Pow
  | LShift | RShift | BitOr | BitXor | BitAnd | FloorDiv.

Inductive expr :=
  | Name (id : string)
  | Attribute (value : expr) (attr : string)
  | Call (func : expr) (args : list expr) (keywords : list keyword)
  | Constant (value : string)
  | Subscript (value : expr) (slice : expr)
  | Tuple (elts : list expr)
  | BinOp (left : expr) (op : operator) (right : expr)
  with keyword :=
  | Keyword (arg : option string) (value : expr).

Record arg := Arg { arg_arg : string; arg_annotation : option expr }.

Record arguments := Arguments {
    posonlyargs : list arg;
    args : list arg;
    vararg : option arg;
    kwonlyargs : list arg;
    kw_defaults : list (option expr);
    kwarg : option arg;
    defaults : list expr }.

Record alias := Alias { alias_name : string; alias_asname : option string }.

Inductive stmt :=
  | FunctionDef (name : string) (args : arguments) (body : list stmt)
                (decorator_list : list expr) (returns : option expr)
  | AsyncFunctionDef (name : string) (args : arguments) (body : list stmt)
                     (decorator_list : list expr) (returns : option expr)
  | ClassDef (name : string) (bases : list expr) (keywords : list keyword)
             (body : list stmt) (decorator_list : list expr)
  | Return (value : option expr)
  | Delete (targets : list expr)
  | Assign (targets : list expr) (value : expr)
  | AugAssign (target : expr) (op : operator) (value : expr)
  | AnnAssign (target : expr) (annotation : expr) (value : option expr)
  | For (target iter : expr) (body orelse : list stmt)
  | AsyncFor (target iter : expr) (body orelse : list stmt)
  | While (test : expr) (body orelse : list stmt)
  | If (test : expr) (body orelse : list stmt)
  | With (items : list (expr * option expr)) (body : list stmt)
  | AsyncWith (items : list (expr * option expr)) (body : list stmt)
  | Raise (exc cause : option expr)
  | Try (body : list stmt) (handlers : list excepthandler)
        (orelse finalbody : list stmt)
  | Assert (test : expr) (msg : option expr)
  | Import (names : list alias)
  | ImportFrom (module_name : option string) (names : list alias) (lvl : nat)
  | Global (names : list string)
  | Nonlocal (names : list string)
  | Expr (value : expr)
  | Pass
  | Break
  | Continue
  | Match (subject : expr) (cases : list (list stmt))
  with excepthandler :=
  | ExceptHandler (type : option expr) (name : option string) (body : list stmt).

  (** Any syntax node, as [get_src_code] and [add_loc_info] take it. *)
Inductive node :=
  | OfStmt (s : stmt)
  | OfExpr (e : expr)
  | OfArg (a : arg)
  | OfKeyword (k : keyword).

End ast.

(** ** The graph nodes *)

Abbreviation loc := nat.

(** The Java [Type] objects.  The code obtains them from
    [UnknownType.getUnknownType()], from [NodeBuilderKt.parseType] and from
    the [getType()] of a lowered expression. *)
Inductive jtype :=
| UnknownType
| ParsedType (name : string).

(** The expressions that the expression lowerer returns.  This file asks
    of them whether they are a name reference or a member access, and reads
    their name, base, type and code; every other expression class is
    [Expression], with the name of its Java class. *)
Inductive gexpr :=
| DeclaredReferenceExpression (name : string) (type : jtype) (code : string)
                              (refersTo : option loc)
| MemberExpression (base : gexpr) (name : string) (type : jtype) (code : string)
| Expression (java_name : string) (name : string) (type : jtype) (code : string).

(** A reference to a graph node, as a Python variable holds it: an object
    of the store, or an expression that the expression lowerer returned. *)
Inductive node :=
| NObj (l : loc)
| NExpr (e : gexpr).

Inductive function_kind := Function | Method | Constructor.

Inductive obj :=
| FunctionDeclaration (kind : function_kind) (name code : string)
                      (recordDeclaration : option node) (receiver : option node)
                      (body : option node) (annotations : list node)
| VariableDeclaration (name : string) (type : jtype) (code : string)
                      (initializer : option node)
| FieldDeclaration (name : string) (type : jtype) (code : string)
                   (initializer : option node)
| ParamVariableDeclaration (name : string) (type : jtype) (code : string)
| RecordDeclaration (name kind code : string) (superClasses : list jtype)
                    (methods statements fields : list node)
| ReturnStatement (code : string) (returnValue : option node)
| Statement (code : string)
| WhileStatement (code : string) (conditionDeclaration condition statement : option node)
| IfStatement (code : string) (condition thenStatement elseStatement : option node)
| DeclarationStatement (code : string) (declarations : list node)
| EmptyStatement (code : string)
| BreakStatement (code : string)
| TryStatement (code : string) (tryBlock finallyBlock : option node)
| ForEachStatement (code : string) (iterable variable statement : option node)
| CompoundStatement (code : string) (statements : list node)
| BinaryOperator (operatorCode code : string) (lhs rhs : option node)
| Annotation (name code : string) (members : list node)
| AnnotationMember (name : option string) (value : node) (code : string).

(** ** Diagnostics, locations, exceptions *)

Inductive loglevel := DEFAULT | WARN | ERROR.

(** The arguments of a [%]-formatted message. *)
Inductive log_arg :=
| LogStr (s : string)
| LogNode (n : node)
| LogJavaName (n : node)
| LogAst (a : ast.node)
| LogTypeOf (a : ast.node)
| LogDump (a : ast.node).

Record log_entry := LogEntry {
  entry_level : loglevel;
  entry_format : string;
  entry_args : list log_arg }.

(** What [add_loc_info] and [add_mul_loc_infos] copy onto a graph node. *)
Inductive loc_info :=
| LocOf (a : ast.node)
| LocSpan (first last : ast.node).

Inductive exn :=
| AttributeError (attribute : string)
| UnboundLocalError (variable : string)
| IndexError
| JavaException (message : string).

Definition dq : string := String "034"%char EmptyString.
Definition nl : string := String "010"%char EmptyString.

(** ** The store, the state and the monad of the lowering *)

Record state (E : Type) := State {
  heap : list obj;
  ext : E;
  log : list log_entry;
  locations : list (node * loc_info) }.

Arguments State {E} _ _ _ _.

Inductive result (E A : Type) :=
| Ok (a : A) (s : state E)
| Raised (x : exn) (s : state E).

Arguments Ok {E A} _ _.
Arguments Raised {E A} _ _.

Definition M (E A : Type) : Type := state E -> result E A.

Definition ret {E A} (a : A) : M E A := fun s => Ok a s.

Definition bind {E A B} (m : M E A) (k : A -> M E B) : M E B :=
  fun s => match m s with
           | Ok a s' => k a s'
           | Raised x s' => Raised x s'
           end.

Definition raise {E A} (x : exn) : M E A := fun s => Raised x s.

Declare Scope lowering_scope.
Delimit Scope lowering_scope with lowering.
Notation "x <- m ;; k" := (bind m (fun x => k))
  (at level 100, m at next level, right associativity) : lowering_scope.
Notation "m ;; k" := (bind m (fun _ => k))
  (at level 100, right associativity) : lowering_scope.
Local Open Scope lowering_scope.

(** A Python [for x in l: body] whose body only has effects. *)
Definition for_each {E A} (body : A -> M E unit) : list A -> M E unit :=
  fix loop (l : list A) : M E unit :=
    match l with
    | [] => ret tt
    | x :: l' => body x ;; loop l'
    end.

(** A Python [for x in l: body] that threads the local variables [acc]. *)
Definition for_fold {E A S} (body : S -> A -> M E S) : list A -> S -> M E S :=
  fix loop (l : list A) (acc : S) : M E S :=
    match l with
    | [] => ret acc
    | x :: l' => acc' <- body acc x ;; loop l' acc'
    end.

Definition set_heap {E} (s : state E) (h : list obj) : state E :=
  State h (ext s) (log s) (locations s).

Definition set_ext {E} (s : state E) (e : E) : state E :=
  State (heap s) e (log s) (locations s).

(** A builder call: a new object at the next free location. *)
Definition alloc {E} (o : obj) : M E node :=
  fun s => Ok (NObj (length (heap s))) (set_heap s (heap s ++ [o])).

(** A method call on an object of the store.  [f] is [None] on the
    classes that do not have the method. *)
Definition call {E A} (method : string) (n : node) (f : obj -> option A) : M E A :=
  fun s => match n with
           | NObj l =>
               match heap s !! l with
               | Some o => match f o with
                           | Some a => Ok a s
                           | None => Raised (AttributeError method) s
                           end
               | None => Raised (AttributeError method) s
               end
           | NExpr _ => Raised (AttributeError method) s
           end.

(** A setter call on an object of the store. *)
Definition update {E} (method : string) (n : node) (f : obj -> option obj) : M E unit :=
  fun s => match n with
           | NObj l =>
               match heap s !! l with
               | Some o => match f o with
                           | Some o' => Ok tt (set_heap s (<[l := o']> (heap s)))
                           | None => Raised (AttributeError method) s
                           end
               | None => Raised (AttributeError method) s
               end
           | NExpr _ => Raised (AttributeError method) s
           end.

(** ** The collaborators *)

(** The outcome of a call into the expression lowerer. *)
Inductive xres (E A : Type) :=
| XOk (a : A) (e : E)
| XRaise (x : exn) (e : E).

Arguments XOk {E A} _ _.
Arguments XRaise {E A} _ _.

(** What this file consumes and does not define: the constant
    [NOT_IMPLEMENTED_MSG] and [get_src_code] of [_misc], the expression
    lowerer ([handle_expression], [handle_operator_code]) and the scope
    manager.  A scope-manager call reads the store (the declaration or the
    container it is given) and changes the collaborators' state only. *)
Class Frontend (E : Type) := {
  NOT_IMPLEMENTED_MSG : string;
  get_src_code : ast.node -> string;
  lower_expression : list obj -> ast.expr -> E -> xres E gexpr;
  lower_operator_code : ast.operator -> string;
  enter_scope : list obj -> node -> E -> E;
  leave_scope : list obj -> node -> E -> E;
  resolve_reference : list obj -> gexpr -> E -> option loc;
  add_declaration : list obj -> node -> E -> E;
  is_in_record : E -> bool;
  is_in_function : E -> bool;
  current_function : E -> option node;
  current_record : E -> option node;
  current_namespace : E -> string }.

Section Collaborators.
Context {E : Type} `{Frontend E}.

  (** [self.handle_expression(e)] *)
Definition handle_expression (e : ast.expr) : M E gexpr :=
    fun s => match lower_expression (heap s) e (ext s) with
             | XOk g e' => Ok g (set_ext s e')
             | XRaise x e' => Raised x (set_ext s e')
             end.

  (** [self.handle_operator_code(op)] *)
Definition handle_operator_code (op : ast.operator) : M E string :=
    ret (lower_operator_code op).

  (** Modelled from the spec: [log_with_loc] of [_misc], the diagnostics
      sink; it records the message (most recent first) and never raises. *)
Definition log_with_loc (format : string) (args : list log_arg)
             (loglevel : loglevel) : M E unit :=
    fun s => Ok tt (State (heap s) (ext s)
                          (LogEntry loglevel format args :: log s) (locations s)).

  (** Modelled from the spec: [add_loc_info] of [_misc]; the graph node
      receives the location metadata of the syntax node. *)
Definition add_loc_info (a : ast.node) (n : node) : M E unit :=
    fun s => Ok tt (State (heap s) (ext s) (log s) ((n, LocOf a) :: locations s)).

  (** Modelled from the spec: [add_mul_loc_infos] of [_misc]; the graph node
      receives the span from the first to the last syntax node. *)
Definition add_mul_loc_infos (first last : ast.node) (n : node) : M E unit :=
    fun s => Ok tt (State (heap s) (ext s) (log s)
                          ((n, LocSpan first last) :: locations s)).

End Collaborators.

Module scopemanager.
Section ScopeManager.
Context {E : Type} `{Frontend E}.

Definition enterScope (n : node) : M E unit :=
      fun s => Ok tt (set_ext s (enter_scope (heap s) n (ext s))).

Definition leaveScope (n : node) : M E unit :=
      fun s => Ok tt (set_ext s (leave_scope (heap s) n (ext s))).

Definition addDeclaration (n : node) : M E unit :=
      fun s => Ok tt (set_ext s (add_declaration (heap s) n (ext s))).

Definition resolveReference (e : gexpr) : M E (option loc) :=
      fun s => Ok (resolve_reference (heap s) e (ext s)) s.

Definition isInRecord : M E bool :=
      fun s => Ok (is_in_record (ext s)) s.

Definition isInFunction : M E bool :=
      fun s => Ok (is_in_function (ext s)) s.

Definition getCurrentFunction : M E (option node) :=
      fun s => Ok (current_function (ext s)) s.

Definition getCurrentRecord : M E (option node) :=
      fun s => Ok (current_record (ext s)) s.

Definition getCurrentNamespace : M E string :=
      fun s => Ok (current_namespace (ext s)) s.

End ScopeManager.
End scopemanager.

(** ** The graph construction primitives

    The builders are Java code of the graph library.  Each factory
    operation takes a name, operator or code snippet and returns a new
    mutable graph node; what the code sets afterwards starts out empty.
    The [frontend] argument of every builder is left out, and so are the
    arguments that the code always gives as [None] or [False]. *)

(** Modelled from the spec: the factory operations of
    [DeclarationBuilderKt], one per declaration kind. *)
Module DeclarationBuilderKt.
Section Builders.
Context {E : Type}.

Definition newRecordDeclaration (name kind code : string) : M E node :=
      alloc (RecordDeclaration name kind code [] [] [] []).

Definition newVariableDeclaration (name : string) (type : jtype)
               (code : string) : M E node :=
      alloc (VariableDeclaration name type code None).

Definition newFieldDeclaration (name : string) (type : jtype)
               (code : string) (initializer : option node) : M E node :=
      alloc (FieldDeclaration name type code initializer).

Definition newParamVariableDeclaration (name : string) (type : jtype)
               (code : string) : M E node :=
      alloc (ParamVariableDeclaration name type code).

Definition newConstructorDeclaration (name code : string)
               (record : node) : M E node :=
      alloc (FunctionDeclaration Constructor name code (Some record) None None []).

Definition newMethodDeclaration (name code : string)
               (record : node) : M E node :=
      alloc (FunctionDeclaration Method name code (Some record) None None []).

Definition newFunctionDeclaration (name code : string) : M E node :=
      alloc (FunctionDeclaration Function name code None None None []).

End Builders.
End DeclarationBuilderKt.

(** Modelled from the spec: the factory operations of
    [StatementBuilderKt], one per statement kind. *)
Module StatementBuilderKt.
Section Builders.
Context {E : Type}.

Definition newReturnStatement (code : string) : M E node :=
      alloc (ReturnStatement code None).
Definition newStatement (code : string) : M E node :=
      alloc (Statement code).
Definition newWhileStatement (code : string) : M E node :=
      alloc (WhileStatement code None None None).
Definition newIfStatement (code : string) : M E node :=
      alloc (IfStatement code None None None).
Definition newDeclarationStatement (code : string) : M E node :=
      alloc (DeclarationStatement code []).
Definition newEmptyStatement (code : string) : M E node :=
      alloc (EmptyStatement code).
Definition newBreakStatement (code : string) : M E node :=
      alloc (BreakStatement code).
Definition newTryStatement (code : string) : M E node :=
      alloc (TryStatement code None None).
Definition newForEachStatement (code : string) : M E node :=
      alloc (ForEachStatement code None None None).
Definition newCompoundStatement (code : string) : M E node :=
      alloc (CompoundStatement code []).

End Builders.
End StatementBuilderKt.

(** Modelled from the spec: the factory operation of
    [ExpressionBuilderKt] for a binary operator, which takes the operator
    and the code snippet. *)
Module ExpressionBuilderKt.
Section Builders.
Context {E : Type}.

Definition newBinaryOperator (operatorCode code : string) : M E node :=
      alloc (BinaryOperator operatorCode code None None).

End Builders.
End ExpressionBuilderKt.

(** Modelled from the spec: [parseType] and the factory operations of
    [NodeBuilderKt] for an annotation and for an annotation member. *)
Module NodeBuilderKt.
Section Builders.
Context {E : Type}.

Definition parseType (name : string) : jtype := ParsedType name.

Definition newAnnotation (name code : string) : M E node :=
      alloc (Annotation name code []).

Definition newAnnotationMember (name : option string) (value : node)
               (code : string) : M E node :=
      alloc (AnnotationMember name value code).

End Builders.
End NodeBuilderKt.

(** ** Methods of the graph nodes *)

(** Modelled from the spec: the setter-style mutators and the getters of
    the Java node classes ([.name], [.base], [.type] of a lowered
    expression among them).  A method that a class does not have raises
    [AttributeError], as a call through the Java bridge does. *)
Section Methods.
Context {E : Type}.

(** [getName()], [getCode()], [getType()] and [java_name] of a lowered
    expression. *)
Definition getName (e : gexpr) : string :=
  match e with
  | DeclaredReferenceExpression name _ _ _ => name
  | MemberExpression _ name _ _ => name
  | Expression _ name _ _ => name
  end.

Definition getCode (e : gexpr) : string :=
  match e with
  | DeclaredReferenceExpression _ _ code _ => code
  | MemberExpression _ _ _ code => code
  | Expression _ _ _ code => code
  end.

Definition getType (e : gexpr) : jtype :=
  match e with
  | DeclaredReferenceExpression _ type _ _ => type
  | MemberExpression _ _ type _ => type
  | Expression _ _ type _ => type
  end.

(** [getBase()]: only a member access has a base. *)
Definition getBase (e : gexpr) : M E gexpr :=
  match e with
  | MemberExpression base _ _ _ => ret base
  | _ => raise (AttributeError "getBase")
  end.

(** [setRefersTo(d)] on a name reference. *)
Definition setRefersTo (e : gexpr) (d : option loc) : M E gexpr :=
  match e with
  | DeclaredReferenceExpression name type code _ =>
      ret (DeclaredReferenceExpression name type code d)
  | _ => raise (AttributeError "setRefersTo")
  end.

(** [getName()] of an object of the store. *)
Definition obj_name (o : obj) : string :=
  match o with
  | FunctionDeclaration _ name _ _ _ _ _ => name
  | VariableDeclaration name _ _ _ => name
  | FieldDeclaration name _ _ _ => name
  | ParamVariableDeclaration name _ _ => name
  | RecordDeclaration name _ _ _ _ _ _ => name
  | Annotation name _ _ => name
  | AnnotationMember (Some name) _ _ => name
  | _ => EmptyString
  end.

Definition node_getName (n : node) : M E string :=
  match n with
  | NObj _ => call "getName" n (fun o => Some (obj_name o))
  | NExpr e => ret (getName e)
  end.

(** [getReceiver()]: a method or a constructor has a receiver, a free
    function does not. *)
Definition getReceiver (f : node) : M E (option node) :=
  call "getReceiver" f (fun o =>
    match o with
    | FunctionDeclaration Method _ _ _ receiver _ _ => Some receiver
    | FunctionDeclaration Constructor _ _ _ receiver _ _ => Some receiver
    | _ => None
    end).

Definition setReceiver (f recv : node) : M E unit :=
  update "setReceiver" f (fun o =>
    match o with
    | FunctionDeclaration Method name code record _ body annotations =>
        Some (FunctionDeclaration Method name code record (Some recv) body annotations)
    | FunctionDeclaration Constructor name code record _ body annotations =>
        Some (FunctionDeclaration Constructor name code record (Some recv) body annotations)
    | _ => None
    end).

Definition setBody (f b : node) : M E unit :=
  update "setBody" f (fun o =>
    match o with
    | FunctionDeclaration kind name code record receiver _ annotations =>
        Some (FunctionDeclaration kind name code record receiver (Some b) annotations)
    | _ => None
    end).

Definition addAnnotations (f : node) (l : list node) : M E unit :=
  update "addAnnotations" f (fun o =>
    match o with
    | FunctionDeclaration kind name code record receiver body annotations =>
        Some (FunctionDeclaration kind name code record receiver body (annotations ++ l))
    | _ => None
    end).

Definition setMembers (a : node) (members : list node) : M E unit :=
  update "setMembers" a (fun o =>
    match o with
    | Annotation name code _ => Some (Annotation name code members)
    | _ => None
    end).

Definition setSuperClasses (cls : node) (bases : list jtype) : M E unit :=
  update "setSuperClasses" cls (fun o =>
    match o with
    | RecordDeclaration name kind code _ methods statements fields =>
        Some (RecordDeclaration name kind code bases methods statements fields)
    | _ => None
    end).

Definition addMethod (cls m : node) : M E unit :=
  update "addMethod" cls (fun o =>
    match o with
    | RecordDeclaration name kind code bases methods statements fields =>
        Some (RecordDeclaration name kind code bases (methods ++ [m]) statements fields)
    | _ => None
    end).

Definition addField (cls v : node) : M E unit :=
  update "addField" cls (fun o =>
    match o with
    | RecordDeclaration name kind code bases methods statements fields =>
        Some (RecordDeclaration name kind code bases methods statements (fields ++ [v]))
    | _ => None
    end).

(** [addStatement(s)] of a record and of a compound statement. *)
Definition addStatement (container s : node) : M E unit :=
  update "addStatement" container (fun o =>
    match o with
    | RecordDeclaration name kind code bases methods statements fields =>
        Some (RecordDeclaration name kind code bases methods (statements ++ [s]) fields)
    | CompoundStatement code statements =>
        Some (CompoundStatement code (statements ++ [s]))
    | _ => None
    end).

(** [addDeclaration(d)] of a declaration statement. *)
Definition addDeclaration (decl_stmt d : node) : M E unit :=
  update "addDeclaration" decl_stmt (fun o =>
    match o with
    | DeclarationStatement code declarations =>
        Some (DeclarationStatement code (declarations ++ [d]))
    | _ => None
    end).

Definition setReturnValue (r v : node) : M E unit :=
  update "setReturnValue" r (fun o =>
    match o with
    | ReturnStatement code _ => Some (ReturnStatement code (Some v))
    | _ => None
    end).

Definition setConditionDeclaration (w d : node) : M E unit :=
  update "setConditionDeclaration" w (fun o =>
    match o with
    | WhileStatement code _ condition statement =>
        Some (WhileStatement code (Some d) condition statement)
    | _ => None
    end).

(** [setCondition(c)] of a while and of an if statement. *)
Definition setCondition (w c : node) : M E unit :=
  update "setCondition" w (fun o =>
    match o with
    | WhileStatement code conditionDeclaration _ statement =>
        Some (WhileStatement code conditionDeclaration (Some c) statement)
    | IfStatement code _ thenStatement elseStatement =>
        Some (IfStatement code (Some c) thenStatement elseStatement)
    | _ => None
    end).

(** [setStatement(b)] of a while and of a for-each statement. *)
Definition setStatement (w b : node) : M E unit :=
  update "setStatement" w (fun o =>
    match o with
    | WhileStatement code conditionDeclaration condition _ =>
        Some (WhileStatement code conditionDeclaration condition (Some b))
    | ForEachStatement code iterable variable _ =>
        Some (ForEachStatement code iterable variable (Some b))
    | _ => None
    end).

Definition setThenStatement (i b : node) : M E unit :=
  update "setThenStatement" i (fun o =>
    match o with
    | IfStatement code condition _ elseStatement =>
        Some (IfStatement code condition (Some b) elseStatement)
    | _ => None
    end).

Definition setElseStatement (i b : node) : M E unit :=
  update "setElseStatement" i (fun o =>
    match o with
    | IfStatement code condition thenStatement _ =>
        Some (IfStatement code condition thenStatement (Some b))
    | _ => None
    end).

Definition setTryBlock (t b : node) : M E unit :=
  update "setTryBlock" t (fun o =>
    match o with
    | TryStatement code _ finallyBlock => Some (TryStatement code (Some b) finallyBlock)
    | _ => None
    end).

Definition setFinallyBlock (t b : node) : M E unit :=
  update "setFinallyBlock" t (fun o =>
    match o with
    | TryStatement code tryBlock _ => Some (TryStatement code tryBlock (Some b))
    | _ => None
    end).

Definition setIterable (f it : node) : M E unit :=
  update "setIterable" f (fun o =>
    match o with
    | ForEachStatement code _ variable statement =>
        Some (ForEachStatement code (Some it) variable statement)
    | _ => None
    end).

Definition setVariable (f v : node) : M E unit :=
  update "setVariable" f (fun o =>
    match o with
    | ForEachStatement code iterable _ statement =>
        Some (ForEachStatement code iterable (Some v) statement)
    | _ => None
    end).

Definition setLhs (b x : node) : M E unit :=
  update "setLhs" b (fun o =>
    match o with
    | BinaryOperator op code _ rhs => Some (BinaryOperator op code (Some x) rhs)
    | _ => None
    end).

Definition setRhs (b x : node) : M E unit :=
  update "setRhs" b (fun o =>
    match o with
    | BinaryOperator op code lhs _ => Some (BinaryOperator op code lhs (Some x))
    | _ => None
    end).

Definition setInitializer (v x : node) : M E unit :=
  update "setInitializer" v (fun o =>
    match o with
    | VariableDeclaration name type code _ =>
        Some (VariableDeclaration name type code (Some x))
    | FieldDeclaration name type code _ =>
        Some (FieldDeclaration name type code (Some x))
    | _ => None
    end).

(** Modelled from the spec: [is_declaration], [is_declared_reference] and
    [is_member_expression] of [_misc], the classification queries "is this
    a declaration", "is this a name reference", "is this a member
    access". *)
Definition obj_is_declaration (o : obj) : bool :=
  match o with
  | FunctionDeclaration _ _ _ _ _ _ _
  | VariableDeclaration _ _ _ _
  | FieldDeclaration _ _ _ _
  | ParamVariableDeclaration _ _ _
  | RecordDeclaration _ _ _ _ _ _ _ => true
  | _ => false
  end.

Definition is_declaration (n : node) : M E bool :=
  fun s => match n with
           | NObj l => match heap s !! l with
                       | Some o => Ok (obj_is_declaration o) s
                       | None => Ok false s
                       end
           | NExpr _ => Ok false s
           end.

Definition is_declared_reference (e : gexpr) : bool :=
  match e with
  | DeclaredReferenceExpression _ _ _ _ => true
  | _ => false
  end.

Definition is_member_expression (e : gexpr) : bool :=
  match e with
  | MemberExpression _ _ _ _ => true
  | _ => false
  end.

(** Modelled from the spec: [wrap_declaration_to_stmt] of [_misc]; the
    declaration is wrapped into a declaration statement that holds it as
    its single declaration.  The spec leaves the wrapper's code snippet
    open; it is empty here. *)
Definition wrap_declaration_to_stmt (d : node) : M E node :=
  alloc (DeclarationStatement EmptyString [d]).

End Methods.

(** ** The lowering functions of [_statements.py] *)

Section Statements.
Context {E : Type} `{Frontend E}.

Definition isinstance_FunctionDef (s : ast.stmt) : bool :=
  match s with ast.FunctionDef _ _ _ _ _ => true | _ => false end.

Definition isinstance_AsyncFunctionDef (s : ast.stmt) : bool :=
  match s with ast.AsyncFunctionDef _ _ _ _ _ => true | _ => false end.

Definition isinstance_Assign (s : ast.stmt) : bool :=
  match s with ast.Assign _ _ => true | _ => false end.

Definition isinstance_AsyncFor (s : ast.stmt) : bool :=
  match s with ast.AsyncFor _ _ _ _ => true | _ => false end.

(** [stmt is ast.AugAssign] compares the identity of the node with the
    class object [ast.AugAssign].  A node is an instance of its class and
    never the class object, so the comparison is false for every node. *)
Definition is_ast_AugAssign (s : ast.stmt) : bool := false.

(** [stmt.targets] of an [ast.Assign]. *)
Definition stmt_targets (s : ast.stmt) : list ast.expr :=
  match s with ast.Assign targets _ => targets | _ => [] end.

(** [stmt.target]: the nodes that have one target. *)
Definition stmt_target (s : ast.stmt) : M E ast.expr :=
  match s with
  | ast.AugAssign target _ _ => ret target
  | ast.AnnAssign target _ _ => ret target
  | ast.For target _ _ _ => ret target
  | ast.AsyncFor target _ _ _ => ret target
  | _ => raise (AttributeError "target")
  end.

(** [stmt.value]: [None] is the absent value of an annotated assignment
    or of a return. *)
Definition stmt_value (s : ast.stmt) : M E (option ast.expr) :=
  match s with
  | ast.Assign _ value => ret (Some value)
  | ast.AugAssign _ _ value => ret (Some value)
  | ast.AnnAssign _ _ value => ret value
  | ast.Return value => ret value
  | ast.Expr value => ret (Some value)
  | _ => raise (AttributeError "value")
  end.

(** [l[i]] *)
Definition index {A} (l : list A) (i : nat) : M E A :=
  match l !! i with
  | Some x => ret x
  | None => raise IndexError
  end.

Definition pass : M E unit := ret tt.

(** *** [handle_argument] (lines 406-417) *)
Definition handle_argument (arg : ast.arg) : M E node :=
  log_with_loc "Handling an argument: %s" [LogDump (ast.OfArg arg)] DEFAULT ;;
  tpe <- match ast.arg_annotation arg with
         | Some (ast.Name id) => ret (NodeBuilderKt.parseType id)
         | Some _ => raise (AttributeError "id")
         | None => ret UnknownType
         end ;;
  pvd <- DeclarationBuilderKt.newParamVariableDeclaration
           (ast.arg_arg arg) tpe (get_src_code (ast.OfArg arg)) ;;
  add_loc_info (ast.OfArg arg) pvd ;;
  scopemanager.addDeclaration pvd ;;
  ret pvd.

(** *** [make_compound_statement] (lines 463-487)

    [self] is the method [self.handle_statement]. *)
Definition make_compound_statement (self : ast.stmt -> M E node)
           (stmts : list ast.stmt) : M E node :=
  if Nat.eqb (length stmts) 0 then
    log_with_loc "Expected at least one statement. Returning a dummy." [] WARN ;;
    StatementBuilderKt.newCompoundStatement EmptyString
  else if false && Nat.eqb (length stmts) 1 then
    match stmts with
    | s0 :: _ =>
        s <- self s0 ;;
        d <- is_declaration s ;;
        if d then wrap_declaration_to_stmt s else ret s
    | [] => raise IndexError
    end
  else
    compound_statement <- StatementBuilderKt.newCompoundStatement EmptyString ;;
    for_each (fun s =>
                s <- self s ;;
                d <- is_declaration s ;;
                s <- (if d then wrap_declaration_to_stmt s else ret s) ;;
                addStatement compound_statement s) stmts ;;
    (if Nat.ltb 0 (length stmts) then
       match stmts !! 0, last stmts with
       | Some s0, Some s1 =>
           add_mul_loc_infos (ast.OfStmt s0) (ast.OfStmt s1) compound_statement
       | _, _ => raise IndexError
       end
     else pass) ;;
    ret compound_statement.

(** *** [handle_for] (lines 420-460) *)
Definition handle_for (self : ast.stmt -> M E node) (stmt : ast.stmt) : M E node :=
  match stmt with
  | ast.For target iter body orelse
  | ast.AsyncFor target iter body orelse =>
      (if isinstance_AsyncFor stmt then
         log_with_loc
           (dq ++ "async" ++ dq ++ " is currently not supported. The statement"
               ++ " is parsed but the " ++ dq ++ "async" ++ dq
               ++ " information is not available in the" ++ " graph.") [] ERROR
       else pass) ;;
      for_stmt <- StatementBuilderKt.newForEachStatement
                    (get_src_code (ast.OfStmt stmt)) ;;
      it <- handle_expression iter ;;
      setIterable for_stmt (NExpr it) ;;
      target' <- handle_expression target ;;
      resolved_target <- scopemanager.resolveReference target' ;;
      variable <- match resolved_target with
                  | None =>
                      v <- DeclarationBuilderKt.newVariableDeclaration
                             (getName target') (getType it)
                             (get_src_code (ast.OfExpr target)) ;;
                      scopemanager.addDeclaration v ;;
                      wrap_declaration_to_stmt v
                  | Some _ => ret (NExpr target')
                  end ;;
      setVariable for_stmt variable ;;
      body' <- make_compound_statement self body ;;
      setStatement for_stmt body' ;;
      (if negb (Nat.eqb (length orelse) 0) then
         log_with_loc NOT_IMPLEMENTED_MSG [] ERROR
       else pass) ;;
      ret for_stmt
  | _ =>
      log_with_loc ("Expected ast.AsyncFor or ast.For. Skipping" ++ " evaluation.")
                   [] ERROR ;;
      r <- StatementBuilderKt.newStatement EmptyString ;;
      ret r
  end.

(** *** [handle_assign_impl] (lines 501-672) *)

(** Lines 557-585: the left-hand side did not resolve, in a class body
    outside of a function. *)
Definition assign_in_class_body (stmt : ast.stmt) (lhs : gexpr)
           (rhs : option gexpr) : M E node :=
  name <- (if is_declared_reference lhs then ret (getName lhs)
           else
             log_with_loc ("Expected a DeclaredReferenceExpression but got a "
                             ++ "MemberExpression. Using a dummy.") [] ERROR ;;
             ret "DUMMY") ;;
  log_with_loc "Could not resolve -> creating a new field for: %s"
               [LogStr name] DEFAULT ;;
  v <- match rhs with
       | Some rhs =>
           DeclarationBuilderKt.newFieldDeclaration
             name (getType rhs) (get_src_code (ast.OfStmt stmt)) (Some (NExpr rhs))
       | None =>
           DeclarationBuilderKt.newFieldDeclaration
             name UnknownType (get_src_code (ast.OfStmt stmt)) None
       end ;;
  scopemanager.addDeclaration v ;;
  ret v.

(** Lines 594-612 and 654-672: a new variable for an unresolved name. *)
Definition assign_new_variable (stmt : ast.stmt) (lhs : gexpr)
           (rhs : option gexpr) : M E node :=
  log_with_loc "Could not resolve -> creating a new variable for: %s"
               [LogStr (getName lhs)] DEFAULT ;;
  v <- match rhs with
       | Some rhs =>
           DeclarationBuilderKt.newVariableDeclaration
             (getName lhs) (getType rhs) (get_src_code (ast.OfStmt stmt))
       | None =>
           DeclarationBuilderKt.newVariableDeclaration
             (getName lhs) UnknownType (get_src_code (ast.OfStmt stmt))
       end ;;
  match rhs with
  | Some rhs => setInitializer v (NExpr rhs)
  | None => pass
  end ;;
  scopemanager.addDeclaration v ;;
  ret v.

(** Lines 613-649: an unresolved member access inside a function of a
    class body. *)
Definition assign_member_in_method (stmt : ast.stmt) (lhs : gexpr)
           (rhs : option gexpr) : M E node :=
  log_with_loc "Probably a new field for: %s" [LogStr (getName lhs)] DEFAULT ;;
  current_function <- scopemanager.getCurrentFunction ;;
  recv_name <- match current_function with
               | Some current_function =>
                   recv <- getReceiver current_function ;;
                   match recv with
                   | Some recv => n <- node_getName recv ;; ret (Some n)
                   | None => ret None
                   end
               | None => ret None
               end ;;
  base <- getBase lhs ;;
  let mem_base_is_receiver :=
    if is_declared_reference base then
      match recv_name with
      | Some recv_name => String.eqb (getName base) recv_name
      | None => false
      end
    else false in
  if negb mem_base_is_receiver then
    log_with_loc "I'm confused." [] ERROR ;;
    StatementBuilderKt.newStatement "DUMMY"
  else
    rhs <- match rhs with
           | Some rhs =>
               if is_declared_reference rhs then
                 d <- scopemanager.resolveReference rhs ;;
                 rhs' <- setRefersTo rhs d ;;
                 ret (Some rhs')
               else ret (Some rhs)
           | None => ret None
           end ;;
    v <- match rhs with
         | Some rhs =>
             DeclarationBuilderKt.newFieldDeclaration
               (getName lhs) (getType rhs) (get_src_code (ast.OfStmt stmt))
               (Some (NExpr rhs))
         | None =>
             DeclarationBuilderKt.newFieldDeclaration
               (getName lhs) UnknownType (get_src_code (ast.OfStmt stmt)) None
         end ;;
    scopemanager.addDeclaration v ;;
    record <- scopemanager.getCurrentRecord ;;
    match record with
    | Some record => addField record v
    | None => raise (AttributeError "addField")
    end ;;
    ret v.

Definition handle_assign_impl (stmt : ast.stmt) : M E node :=
  if is_ast_AugAssign stmt then
    match stmt with
    | ast.AugAssign target op value =>
        target <- handle_expression target ;;
        op <- handle_operator_code op ;;
        value <- handle_expression value ;;
        r <- ExpressionBuilderKt.newBinaryOperator op (get_src_code (ast.OfStmt stmt)) ;;
        setLhs r (NExpr target) ;;
        setRhs r (NExpr value) ;;
        ret r
    | _ => raise (AttributeError "target")
    end
  else if isinstance_Assign stmt && negb (Nat.eqb (length (stmt_targets stmt)) 1) then
    log_with_loc NOT_IMPLEMENTED_MSG [] ERROR ;;
    r <- ExpressionBuilderKt.newBinaryOperator "=" (get_src_code (ast.OfStmt stmt)) ;;
    ret r
  else
    target <- (if isinstance_Assign stmt then index (stmt_targets stmt) 0
               else stmt_target stmt) ;;
    lhs <- handle_expression target ;;
    value <- stmt_value stmt ;;
    rhs <- match value with
           | Some value => rhs <- handle_expression value ;; ret (Some rhs)
           | None => ret None
           end ;;
    if negb (is_declared_reference lhs) && negb (is_member_expression lhs) then
      log_with_loc ("Expected a DeclaredReferenceExpression or MemberExpression "
                      ++ "but got " ++ dq ++ "%s" ++ dq ++ ". Skipping.")
                   [LogJavaName (NExpr lhs)] ERROR ;;
      r <- ExpressionBuilderKt.newBinaryOperator "=" (get_src_code (ast.OfStmt stmt)) ;;
      ret r
    else
      resolved_lhs <- scopemanager.resolveReference lhs ;;
      in_record <- scopemanager.isInRecord ;;
      in_function <- scopemanager.isInFunction ;;
      match resolved_lhs with
      | Some _ =>
          binop <- ExpressionBuilderKt.newBinaryOperator
                     "=" (get_src_code (ast.OfStmt stmt)) ;;
          setLhs binop (NExpr lhs) ;;
          match rhs with
          | Some rhs => setRhs binop (NExpr rhs)
          | None => pass
          end ;;
          ret binop
      | None =>
          if in_record && negb in_function then
            assign_in_class_body stmt lhs rhs
          else if in_record && in_function then
            if is_declared_reference lhs then assign_new_variable stmt lhs rhs
            else assign_member_in_method stmt lhs rhs
          else
            (* [elif not in_record:], the one case that is left *)
            assign_new_variable stmt lhs rhs
      end.

(** *** [handle_assign] (lines 490-498) *)
Definition handle_assign (stmt : ast.stmt) : M E node :=
  log_with_loc ("Start " ++ dq ++ "handle_assign" ++ dq ++ " for:" ++ nl ++ "%s" ++ nl)
               [LogStr (get_src_code (ast.OfStmt stmt))] DEFAULT ;;
  r <- handle_assign_impl stmt ;;
  add_loc_info (ast.OfStmt stmt) r ;;
  log_with_loc ("End " ++ dq ++ "handle_assign" ++ dq ++ " for:" ++ nl ++ "%s" ++ nl
                  ++ "Result is: %s")
               [LogStr (get_src_code (ast.OfStmt stmt)); LogNode r] DEFAULT ;;
  ret r.

(** *** [handle_function_or_method] (lines 255-403) *)

(** Lines 340-393, the body of the loop over [node.decorator_list].  The
    loop carries the list [annotations] and the local variable
    [annotation]; [annotation] is unbound ([None]) until a decorator with a
    supported shape has assigned it, and it keeps the annotation of an
    earlier decorator afterwards. *)
Definition handle_decorator (locals : list node * option node)
           (decorator : ast.expr) : M E (list node * option node) :=
  let annotations := fst locals in
  let annotation := snd locals in
  match decorator with
  | ast.Call func args keywords =>
      bound <- match func with
               | ast.Attribute _ _ =>
                   ref <- handle_expression func ;;
                   annotation <- NodeBuilderKt.newAnnotation
                                   (getCode ref) (get_src_code (ast.OfExpr func)) ;;
                   base <- getBase ref ;;
                   member <- NodeBuilderKt.newAnnotationMember
                               (Some "receiver") (NExpr base)
                               (get_src_code (ast.OfExpr func)) ;;
                   ret (Some annotation, [member])
               | ast.Name _ =>
                   ref <- handle_expression func ;;
                   annotation <- NodeBuilderKt.newAnnotation
                                   (getName ref) (get_src_code (ast.OfExpr func)) ;;
                   ret (Some annotation, [])
               | _ =>
                   log_with_loc NOT_IMPLEMENTED_MSG [] ERROR ;;
                   ret (annotation, [])
               end ;;
      let annotation := fst bound in
      let members := snd bound in
      members <- match args with
                 | arg0 :: _ =>
                     value <- handle_expression arg0 ;;
                     member <- NodeBuilderKt.newAnnotationMember
                                 (Some "value") (NExpr value)
                                 (get_src_code (ast.OfExpr arg0)) ;;
                     ret (members ++ [member])
                 | [] => ret members
                 end ;;
      members <- for_fold
                   (fun members kw =>
                      match kw with
                      | ast.Keyword arg value =>
                          value <- handle_expression value ;;
                          member <- NodeBuilderKt.newAnnotationMember
                                      arg (NExpr value)
                                      (get_src_code (ast.OfKeyword kw)) ;;
                          ret (members ++ [member])
                      end) keywords members ;;
      match annotation with
      | Some annotation =>
          setMembers annotation members ;;
          ret (annotations ++ [annotation], Some annotation)
      | None => raise (UnboundLocalError "annotation")
      end
  | _ => raise (AttributeError "func")
  end.

(** Lines 297-398: what happens between [enterScope(f)] and
    [leaveScope(f)]. *)
Definition function_contents (self : ast.stmt -> M E node) (f : node)
           (record : option node) (args : ast.arguments) (body : list ast.stmt)
           (decorator_list : list ast.expr) (returns : option ast.expr) : M E unit :=
  for_each (fun _ => log_with_loc NOT_IMPLEMENTED_MSG [] ERROR)
           (ast.posonlyargs args) ;;
  match record with
  | Some record =>
      match ast.args args with
      | recv_node :: _ =>
          record_name <- node_getName record ;;
          let tpe := NodeBuilderKt.parseType record_name in
          recv <- DeclarationBuilderKt.newVariableDeclaration
                    (ast.arg_arg recv_node) tpe (get_src_code (ast.OfArg recv_node)) ;;
          setReceiver f recv ;;
          scopemanager.addDeclaration recv
      | [] =>
          log_with_loc "Expected to find the receiver but got nothing..." [] ERROR
      end ;;
      for_each (fun arg => handle_argument arg ;; pass) (List.tl (ast.args args))
  | None =>
      for_each (fun arg => handle_argument arg ;; pass) (ast.args args)
  end ;;
  match ast.vararg args with
  | Some _ => log_with_loc NOT_IMPLEMENTED_MSG [] ERROR
  | None => pass
  end ;;
  for_each (fun _ => log_with_loc NOT_IMPLEMENTED_MSG [] ERROR)
           (ast.kwonlyargs args) ;;
  for_each (fun _ => log_with_loc NOT_IMPLEMENTED_MSG [] ERROR)
           (ast.kw_defaults args) ;;
  match ast.kwarg args with
  | Some _ => log_with_loc NOT_IMPLEMENTED_MSG [] ERROR
  | None => pass
  end ;;
  for_each (fun _ => log_with_loc ("Default args. " ++ NOT_IMPLEMENTED_MSG) [] ERROR)
           (ast.defaults args) ;;
  (if Nat.ltb 0 (length body) then
     b <- make_compound_statement self body ;;
     setBody f b
   else pass) ;;
  locals <- for_fold handle_decorator decorator_list ([], None) ;;
  addAnnotations f (fst locals) ;;
  match returns with
  | Some _ => log_with_loc NOT_IMPLEMENTED_MSG [] ERROR
  | None => pass
  end.

(** The name of a function definition is always a [str]; the branch for
    another kind of name (lines 279-281) has no input. *)
Definition handle_function_or_method (self : ast.stmt -> M E node)
           (node' : ast.stmt) (record : option node) : M E node :=
  match node' with
  | ast.FunctionDef name args body decorator_list returns
  | ast.AsyncFunctionDef name args body decorator_list returns =>
      (if isinstance_AsyncFunctionDef node' then
         log_with_loc
           (dq ++ "async" ++ dq ++ " is currently not supported and the information is lost "
               ++ "in the graph.") [] ERROR
       else pass) ;;
      log_with_loc "Handling a function/method: %s" [LogDump (ast.OfStmt node')] DEFAULT ;;
      f <- match record with
           | Some record =>
               if String.eqb name "__init__" then
                 DeclarationBuilderKt.newConstructorDeclaration
                   name (get_src_code (ast.OfStmt node')) record
               else
                 DeclarationBuilderKt.newMethodDeclaration
                   name (get_src_code (ast.OfStmt node')) record
           | None =>
               DeclarationBuilderKt.newFunctionDeclaration
                 name (get_src_code (ast.OfStmt node'))
           end ;;
      scopemanager.enterScope f ;;
      function_contents self f record args body decorator_list returns ;;
      scopemanager.leaveScope f ;;
      scopemanager.addDeclaration f ;;
      ret f
  | _ =>
      log_with_loc "Expected either ast.FunctionDef or ast.AsyncFunctionDef" [] ERROR ;;
      r <- DeclarationBuilderKt.newFunctionDeclaration "DUMMY" "DUMMY" ;;
      ret r
  end.

(** *** [handle_statement_impl] (lines 47-252) *)

(** Lines 56-67, the body of the loop over [stmt.bases]. *)
Definition handle_base (bases : list jtype) (base : ast.expr) : M E (list jtype) :=
  match base with
  | ast.Name id =>
      namespace <- scopemanager.getCurrentNamespace ;;
      let tname := (namespace ++ "." ++ id)%string in
      log_with_loc ("Building super type using current " ++ "namespace: %s")
                   [LogStr tname] DEFAULT ;;
      let t := NodeBuilderKt.parseType tname in
      ret (bases ++ [t])
  | _ =>
      log_with_loc "Expected a name, but got: %s" [LogTypeOf (ast.OfExpr base)] ERROR ;;
      ret bases
  end.

(** Lines 74-80, the body of the loop over the statements of a class
    body.  Every element of a parsed body is an [ast.stmt]. *)
Definition handle_class_body_stmt (self : ast.stmt -> M E node) (cls : node)
           (s : ast.stmt) : M E unit :=
  if isinstance_FunctionDef s then
    m <- handle_function_or_method self s (Some cls) ;;
    addMethod cls m
  else
    handled_stmt <- self s ;;
    d <- is_declaration handled_stmt ;;
    handled_stmt <- (if d then wrap_declaration_to_stmt handled_stmt
                     else ret handled_stmt) ;;
    addStatement cls handled_stmt.

(** Lines 166-179 and 196-208, the body of the loop over the aliases of an
    import. *)
Definition handle_alias (decl_stmt : node) (s : ast.alias) : M E unit :=
  let name_src :=
    match ast.alias_asname s with
    | Some asname => let name := asname in (name, (name ++ " as " ++ asname)%string)
    | None => let name := ast.alias_name s in (name, name)
    end in
  let name := fst name_src in
  let src := snd name_src in
  let tpe := UnknownType in
  v <- DeclarationBuilderKt.newVariableDeclaration name tpe src ;;
  scopemanager.addDeclaration v ;;
  addDeclaration decl_stmt v.

(** The statement kinds that are not implemented: an error is logged and
    an empty statement is returned. *)
Definition not_implemented : M E node :=
  log_with_loc NOT_IMPLEMENTED_MSG [] ERROR ;;
  r <- StatementBuilderKt.newStatement EmptyString ;;
  ret r.

Definition handle_statement_impl (self : ast.stmt -> M E node)
           (stmt : ast.stmt) : M E node :=
  match stmt with
  | ast.FunctionDef _ _ _ _ _ => handle_function_or_method self stmt None
  | ast.AsyncFunctionDef _ _ _ _ _ => handle_function_or_method self stmt None
  | ast.ClassDef name bases keywords body decorator_list =>
      cls <- DeclarationBuilderKt.newRecordDeclaration
               name "class" (get_src_code (ast.OfStmt stmt)) ;;
      bases <- for_fold handle_base bases [] ;;
      setSuperClasses cls bases ;;
      scopemanager.enterScope cls ;;
      for_each (fun _ => log_with_loc NOT_IMPLEMENTED_MSG [] ERROR) keywords ;;
      for_each (handle_class_body_stmt self cls) body ;;
      for_each (fun _ => log_with_loc NOT_IMPLEMENTED_MSG [] ERROR) decorator_list ;;
      scopemanager.leaveScope cls ;;
      scopemanager.addDeclaration cls ;;
      ret cls
  | ast.Return value =>
      r <- StatementBuilderKt.newReturnStatement (get_src_code (ast.OfStmt stmt)) ;;
      match value with
      | Some value => v <- handle_expression value ;; setReturnValue r (NExpr v)
      | None => pass
      end ;;
      ret r
  | ast.Delete _ => not_implemented
  | ast.Assign _ _ => handle_assign stmt
  | ast.AugAssign _ _ _ => handle_assign stmt
  | ast.AnnAssign _ _ _ => handle_assign stmt
  | ast.For _ _ _ _ => handle_for self stmt
  | ast.AsyncFor _ _ _ _ => handle_for self stmt
  | ast.While test body orelse =>
      whl_stmt <- StatementBuilderKt.newWhileStatement (get_src_code (ast.OfStmt stmt)) ;;
      expr <- handle_expression test ;;
      d <- is_declaration (NExpr expr) ;;
      (if d then setConditionDeclaration whl_stmt (NExpr expr)
       else setCondition whl_stmt (NExpr expr)) ;;
      body <- make_compound_statement self body ;;
      setStatement whl_stmt body ;;
      (if negb (Nat.eqb (length orelse) 0) then
         log_with_loc (dq ++ "orelse" ++ dq ++ " is currently not supported for "
                          ++ dq ++ "while" ++ dq ++ " statements -> skipping") [] ERROR
       else pass) ;;
      ret whl_stmt
  | ast.If test body orelse =>
      if_stmt <- StatementBuilderKt.newIfStatement (get_src_code (ast.OfStmt stmt)) ;;
      c <- handle_expression test ;;
      setCondition if_stmt (NExpr c) ;;
      body <- make_compound_statement self body ;;
      setThenStatement if_stmt body ;;
      (if negb (Nat.eqb (length orelse) 0) then
         orelse <- make_compound_statement self orelse ;;
         setElseStatement if_stmt orelse
       else pass) ;;
      ret if_stmt
  | ast.With _ _ => not_implemented
  | ast.AsyncWith _ _ => not_implemented
  | ast.Raise _ _ => not_implemented
  | ast.Assert _ _ => not_implemented
  | ast.Import names =>
      decl_stmt <- StatementBuilderKt.newDeclarationStatement
                     (get_src_code (ast.OfStmt stmt)) ;;
      for_each (handle_alias decl_stmt) names ;;
      ret decl_stmt
  | ast.ImportFrom _ names _ =>
      log_with_loc ("Cannot correctly handle " ++ dq ++ "import from" ++ dq
                      ++ ". Using an approximation.") [] ERROR ;;
      decl_stmt <- StatementBuilderKt.newDeclarationStatement
                     (get_src_code (ast.OfStmt stmt)) ;;
      for_each (handle_alias decl_stmt) names ;;
      ret decl_stmt
  | ast.Global _ => not_implemented
  | ast.Nonlocal _ => not_implemented
  | ast.Expr value => e <- handle_expression value ;; ret (NExpr e)
  | ast.Pass =>
      p <- StatementBuilderKt.newEmptyStatement "pass" ;;
      ret p
  | ast.Break =>
      brk <- StatementBuilderKt.newBreakStatement (get_src_code (ast.OfStmt stmt)) ;;
      ret brk
  | ast.Continue => not_implemented
  | ast.Try body handlers orelse finalbody =>
      s <- StatementBuilderKt.newTryStatement (get_src_code (ast.OfStmt stmt)) ;;
      try_block <- make_compound_statement self body ;;
      finally_block <- make_compound_statement self finalbody ;;
      (if negb (Nat.eqb (length orelse) 0) then
         log_with_loc NOT_IMPLEMENTED_MSG [] ERROR
       else pass) ;;
      (if negb (Nat.eqb (length handlers) 0) then
         log_with_loc ("Try handlers. " ++ NOT_IMPLEMENTED_MSG) [] ERROR
       else pass) ;;
      setTryBlock s try_block ;;
      setFinallyBlock s finally_block ;;
      ret s
  | ast.Match _ _ =>
      log_with_loc NOT_IMPLEMENTED_MSG [] ERROR ;;
      log_with_loc "Received unexpected stmt: %s with type %s"
                   [LogAst (ast.OfStmt stmt); LogTypeOf (ast.OfStmt stmt)] DEFAULT ;;
      r <- StatementBuilderKt.newStatement EmptyString ;;
      ret r
  end.

(** *** [handle_statement] (lines 36-44) *)
Fixpoint handle_statement (stmt : ast.stmt) : M E node :=
  log_with_loc ("Start " ++ dq ++ "handle_statement" ++ dq ++ " for:" ++ nl ++ "%s" ++ nl)
               [LogStr (get_src_code (ast.OfStmt stmt))] DEFAULT ;;
  r <- handle_statement_impl handle_statement stmt ;;
  add_loc_info (ast.OfStmt stmt) r ;;
  log_with_loc ("End " ++ dq ++ "handle_statement" ++ dq ++ " for:" ++ nl ++ "%s" ++ nl
                  ++ "Result is: %s")
               [LogStr (get_src_code (ast.OfStmt stmt)); LogNode r] DEFAULT ;;
  ret r.

End Statements.

(** * A frontend to run the lowering on

    One implementation of the collaborators: a scope manager that keeps a
    stack of frames over the module-level declarations, and an expression
    lowerer for names, attributes, constants, tuples and calls. *)

Module demo.

Inductive frame_kind := RecordFrame | FunctionFrame | OtherFrame.

Record frame := Frame {
  frame_node : node;
  frame_kind_of : frame_kind;
  frame_name : string;
  frame_decls : list (string * loc) }.

Record scopes := Scopes {
  stack : list frame;
  globals : list (string * loc) }.

Definition empty : scopes := Scopes [] [].

Definition kind_of_obj (o : obj) : frame_kind :=
  match o with
  | RecordDeclaration _ _ _ _ _ _ _ => RecordFrame
  | FunctionDeclaration _ _ _ _ _ _ _ => FunctionFrame
  | _ => OtherFrame
  end.

Definition enter (h : list obj) (n : node) (e : scopes) : scopes :=
  match n with
  | NObj l =>
      match h !! l with
      | Some o => Scopes (Frame n (kind_of_obj o) (obj_name o) [] :: stack e) (globals e)
      | None => e
      end
  | NExpr _ => e
  end.

Definition leave (h : list obj) (n : node) (e : scopes) : scopes :=
  Scopes (List.tl (stack e)) (globals e).

Definition declare (h : list obj) (n : node) (e : scopes) : scopes :=
  match n with
  | NObj l =>
      match h !! l with
      | Some o =>
          match stack e with
          | Frame fn fk fname decls :: rest =>
              Scopes (Frame fn fk fname ((obj_name o, l) :: decls) :: rest) (globals e)
          | [] => Scopes [] ((obj_name o, l) :: globals e)
          end
      | None => e
      end
  | NExpr _ => e
  end.

Fixpoint assoc (name : string) (l : list (string * loc)) : option loc :=
  match l with
  | [] => None
  | (k, v) :: l' => if String.eqb k name then Some v else assoc name l'
  end.

Fixpoint find_in_frames (name : string) (only_records : bool) (fs : list frame)
  : option loc :=
  match fs with
  | [] => None
  | f :: fs' =>
      let here :=
        match frame_kind_of f, only_records with
        | RecordFrame, _ => assoc name (frame_decls f)
        | _, false => assoc name (frame_decls f)
        | _, true => None
        end in
      match here with
      | Some l => Some l
      | None => find_in_frames name only_records fs'
      end
  end.

(** A name is looked up in every frame and then at module level, a member
    in the frames of the records. *)
Definition resolve (h : list obj) (g : gexpr) (e : scopes) : option loc :=
  match g with
  | DeclaredReferenceExpression name _ _ _ =>
      match find_in_frames name false (stack e) with
      | Some l => Some l
      | None => assoc name (globals e)
      end
  | MemberExpression _ name _ _ => find_in_frames name true (stack e)
  | Expression _ _ _ _ => None
  end.

Definition has_kind (k : frame_kind) (f : frame) : bool :=
  match frame_kind_of f, k with
  | RecordFrame, RecordFrame => true
  | FunctionFrame, FunctionFrame => true
  | OtherFrame, OtherFrame => true
  | _, _ => false
  end.

Definition innermost (k : frame_kind) (e : scopes) : option frame :=
  List.find (has_kind k) (stack e).

Definition in_kind (k : frame_kind) (e : scopes) : bool :=
  match innermost k e with Some _ => true | None => false end.

Definition namespace (e : scopes) : string :=
  match innermost RecordFrame e with
  | Some f => frame_name f
  | None => "module"
  end.

Fixpoint src (x : ast.expr) : string :=
  match x with
  | ast.Name id => id
  | ast.Attribute v attr => src v ++ "." ++ attr
  | ast.Constant c => c
  | ast.Call f _ _ => src f ++ "(...)"
  | _ => "..."
  end.

Definition src_code (a : ast.node) : string :=
  match a with
  | ast.OfExpr x => src x
  | ast.OfArg a => ast.arg_arg a
  | ast.OfStmt _ => "<stmt>"
  | ast.OfKeyword _ => "<keyword>"
  end.

Fixpoint lower (x : ast.expr) : gexpr :=
  match x with
  | ast.Name id => DeclaredReferenceExpression id UnknownType id None
  | ast.Attribute v attr => MemberExpression (lower v) attr UnknownType (src x)
  | ast.Constant c => Expression "Literal" c (ParsedType "int") c
  | ast.Tuple _ => Expression "InitializerListExpression" EmptyString
                              (ParsedType "tuple") (src x)
  | ast.Call f _ _ => Expression "CallExpression" (src f) UnknownType (src x)
  | _ => Expression "Expression" EmptyString UnknownType (src x)
  end.

Definition operator_code (op : ast.operator) : string :=
  match op with
  | ast.Add => "+" | ast.Sub => "-" | ast.Mult => "*" | ast.MatMult => "@"
  | ast.Div => "/" | ast.Mod => "%" | ast.Pow => "**"
  | ast.LShift => "<<" | ast.RShift => ">>" | ast.BitOr => "|"
  | ast.BitXor => "^" | ast.BitAnd => "&" | ast.FloorDiv => "//"
  end.

#[export] Instance frontend : Frontend scopes := {|
  NOT_IMPLEMENTED_MSG := "This has not been implemented, yet. Using a dummy.";
  get_src_code := src_code;
  lower_expression := fun _ x e => XOk (lower x) e;
  lower_operator_code := operator_code;
  enter_scope := enter;
  leave_scope := leave;
  resolve_reference := resolve;
  add_declaration := declare;
  is_in_record := in_kind RecordFrame;
  is_in_function := in_kind FunctionFrame;
  current_function := fun e => option_map frame_node (innermost FunctionFrame e);
  current_record := fun e => option_map frame_node (innermost RecordFrame e);
  current_namespace := namespace |}.

(** The state before anything has been lowered. *)
Definition initial : state scopes := State [] empty [] [].

(** The state after [x = 1] at module level. *)
Definition after_x : state scopes :=
  State [VariableDeclaration "x" (ParsedType "int") "<stmt>"
           (Some (NExpr (Expression "Literal" "1" (ParsedType "int") "1")))]
        (Scopes [] [("x", 0)]) [] [].

(** The state inside the body of [class Foo]. *)
Definition in_class : state scopes :=
  State [RecordDeclaration "Foo" "class" "<stmt>" [] [] [] []]
        (Scopes [Frame (NObj 0) RecordFrame "Foo" []] []) [] [].

(** The state inside the body of [def bar(self)] of [class Foo]. *)
Definition in_method : state scopes :=
  State [RecordDeclaration "Foo" "class" "<stmt>" [] [] [] [];
         FunctionDeclaration Method "bar" "<stmt>" (Some (NObj 0)) (Some (NObj 2))
                             None [];
         VariableDeclaration "self" (ParsedType "Foo") "self" None]
        (Scopes [Frame (NObj 1) FunctionFrame "bar" [("self", 2)];
                 Frame (NObj 0) RecordFrame "Foo" []] []) [] [].

(** What a run leaves in the store, and what it returns or raises. *)
Definition store_after {A} (r : result scopes A) : list obj :=
  match r with
  | Ok _ s => heap s
  | Raised _ s => heap s
  end.

Definition state_after {A} (r : result scopes A) : state scopes :=
  match r with
  | Ok _ s => s
  | Raised _ s => s
  end.

Definition outcome {A} (r : result scopes A) : A + exn :=
  match r with
  | Ok a _ => inl a
  | Raised x _ => inr x
  end.

(** What the lowerer returns for a constant and for a name. *)
Definition literal (c : string) : node := NExpr (lower (ast.Constant c)).

Definition name_ref (x : string) : node := NExpr (lower (ast.Name x)).

(** Argument lists: none, and [self] alone. *)
Definition no_arguments : ast.arguments := ast.Arguments [] [] None [] [] None [].

Definition self_argument : ast.arguments :=
  ast.Arguments [] [ast.Arg "self" None] None [] [] None [].

(** The type of the elements of an iterable, for the iterables whose
    elements are in the syntax: a tuple display has the type of its first
    element. *)
Definition element_type (iter : ast.expr) : jtype :=
  match iter with
  | ast.Tuple (x :: _) => getType (lower x)
  | _ => UnknownType
  end.

End demo.

(** * What the specification states about the lowering *)

(** The postcondition that asks nothing. *)
Definition any {A : Type} : A -> Prop := fun _ => True.

Section SpecificationTerms.
Context {E : Type} `{Frontend E}.

(** The two trace messages of [handle_statement] and of [handle_assign]. *)
Definition start_entry (fn : string) (stmt : ast.stmt) : log_entry :=
  LogEntry DEFAULT ("Start " ++ dq ++ fn ++ dq ++ " for:" ++ nl ++ "%s" ++ nl)
           [LogStr (get_src_code (ast.OfStmt stmt))].

Definition end_entry (fn : string) (stmt : ast.stmt) (r : node) : log_entry :=
  LogEntry DEFAULT ("End " ++ dq ++ fn ++ dq ++ " for:" ++ nl ++ "%s" ++ nl
                      ++ "Result is: %s")
           [LogStr (get_src_code (ast.OfStmt stmt)); LogNode r].

(** The single target and the right-hand side of an assignment-like
    statement: simple (with one target), augmented, or annotated. *)
Definition assignment_parts (stmt : ast.stmt) : option (ast.expr * option ast.expr) :=
  match stmt with
  | ast.Assign [target] value => Some (target, Some value)
  | ast.AugAssign target _ value => Some (target, Some value)
  | ast.AnnAssign target _ value => Some (target, value)
  | _ => None
  end.

(** Lowering the right-hand side when there is one. *)
Definition lower_value (h : list obj) (value : option ast.expr) (e : E)
  : xres E (option gexpr) :=
  match value with
  | Some v => match lower_expression h v e with
              | XOk rhs e' => XOk (Some rhs) e'
              | XRaise x e' => XRaise x e'
              end
  | None => XOk None e
  end.

(** The left-hand side is a plain name reference or a member access. *)
Definition is_reference (lhs : gexpr) : bool :=
  is_declared_reference lhs || is_member_expression lhs.

(** The aliases of an import or import-from statement. *)
Definition import_names (stmt : ast.stmt) : option (list ast.alias) :=
  match stmt with
  | ast.Import names => Some names
  | ast.ImportFrom _ names _ => Some names
  | _ => None
  end.

(** The general warning of an import-from statement. *)
Definition import_log (stmt : ast.stmt) : list log_entry :=
  match stmt with
  | ast.ImportFrom _ _ _ =>
      [LogEntry ERROR ("Cannot correctly handle " ++ dq ++ "import from" ++ dq
                         ++ ". Using an approximation.") []]
  | _ => []
  end.

(** The declaration that stands for one imported alias. *)
Definition alias_variable (a : ast.alias) : obj :=
  match ast.alias_asname a with
  | Some y => VariableDeclaration y UnknownType (y ++ " as " ++ y) None
  | None => VariableDeclaration (ast.alias_name a) UnknownType (ast.alias_name a) None
  end.

(** The store after the first [i] aliases of [names] have been handled:
    the store [h] from before, the declaration statement at location
    [length h] with the declarations added so far, and one Variable per
    alias behind it. *)
Definition import_store (h : list obj) (code : string) (names : list ast.alias)
           (i : nat) : list obj :=
  h ++ DeclarationStatement code (map NObj (seq (S (length h)) i))
    :: map alias_variable (take i names).

(** The call [scopemanager.addDeclaration(v)] for the alias at index [i]:
    it is made when the Variable has been created and before it is added
    to the declaration statement. *)
Definition import_registration (h : list obj) (code : string)
           (names : list ast.alias) (e : E) (i : nat) : E :=
  add_declaration
    (h ++ DeclarationStatement code (map NObj (seq (S (length h)) i))
       :: map alias_variable (take (S i) names))
    (NObj (S (length h) + i)) e.

(** The statements that the lowering of a statement descends into. *)
Definition children (stmt : ast.stmt) : list ast.stmt :=
  match stmt with
  | ast.FunctionDef _ _ body _ _ => body
  | ast.AsyncFunctionDef _ _ body _ _ => body
  | ast.ClassDef _ _ _ body _ => body
  | ast.For _ _ body _ => body
  | ast.AsyncFor _ _ body _ => body
  | ast.While _ body _ => body
  | ast.If _ body orelse => body ++ orelse
  | ast.Try body _ _ finalbody => body ++ finalbody
  | _ => []
  end.

(** What an object is for good: its class and the attributes that it got
    from its builder and that no setter of this file changes.  A free
    function has no receiver, and none can be set. *)
Definition skeleton (o : obj) : obj :=
  match o with
  | FunctionDeclaration Function name code record receiver _ _ =>
      FunctionDeclaration Function name code record receiver None []
  | FunctionDeclaration kind name code record _ _ _ =>
      FunctionDeclaration kind name code record None None []
  | VariableDeclaration name type code _ => VariableDeclaration name type code None
  | FieldDeclaration name type code _ => FieldDeclaration name type code None
  | ParamVariableDeclaration name type code => ParamVariableDeclaration name type code
  | RecordDeclaration name kind code _ _ _ _ =>
      RecordDeclaration name kind code [] [] [] []
  | ReturnStatement code _ => ReturnStatement code None
  | Statement code => Statement code
  | WhileStatement code _ _ _ => WhileStatement code None None None
  | IfStatement code _ _ _ => IfStatement code None None None
  | DeclarationStatement code _ => DeclarationStatement code []
  | EmptyStatement code => EmptyStatement code
  | BreakStatement code => BreakStatement code
  | TryStatement code _ _ => TryStatement code None None
  | ForEachStatement code _ _ _ => ForEachStatement code None None None
  | CompoundStatement code _ => CompoundStatement code []
  | BinaryOperator op code _ _ => BinaryOperator op code None None
  | Annotation name code _ => Annotation name code []
  | AnnotationMember name value code => AnnotationMember name value code
  end.

(** An object up to the field list of a record. *)
Definition erase_fields (o : obj) : obj :=
  match o with
  | RecordDeclaration name kind code bases methods statements _ =>
      RecordDeclaration name kind code bases methods statements []
  | _ => o
  end.

(** The store [h'] of a later state against the store [h]: every object of
    [h] is still there and is what it is for good; an object below [n] is
    as it was, but for the fields that a record has gained. *)
Definition frame (n : nat) (h h' : list obj) : Prop :=
  length h <= length h' /\
  forall l o, h !! l = Some o ->
              exists o', h' !! l = Some o' /\ skeleton o' = skeleton o /\
                         (l < n -> erase_fields o' = erase_fields o).

(** A node that is not an object below [n]. *)
Definition new_node (n : nat) (x : node) : Prop :=
  match x with
  | NObj l => n <= l
  | NExpr _ => True
  end.

(** A run of [m] from a store of at least [n] objects leaves the objects
    below [n] alone, whether it returns or raises, and returns a value that
    satisfies [Q]. *)
Definition pres (n : nat) {A} (m : M E A) (Q : A -> Prop) : Prop :=
  forall s, n <= length (heap s) ->
            match m s with
            | Ok a s' => Q a /\ frame n (heap s) (heap s')
            | Raised _ s' => frame n (heap s) (heap s')
            end.

(** A setter keeps what an object is for good; it may also keep the
    object up to the fields of a record. *)
Definition keeps_skeleton (f : obj -> option obj) : Prop :=
  forall o o', f o = Some o' -> skeleton o' = skeleton o.

Definition keeps_but_fields (f : obj -> option obj) : Prop :=
  forall o o', f o = Some o' -> erase_fields o' = erase_fields o.

(** What the induction over a statement carries: the statement itself, and
    the statement lowered as a method of a record. *)
Definition lowering_pres (self : ast.stmt -> M E node) (st : ast.stmt) : Prop :=
  (forall n, pres n (self st) any) /\
  (forall n record, pres n (handle_function_or_method self st record) any).

(** The parts of a for or async-for statement. *)
Definition for_parts (stmt : ast.stmt)
  : option (ast.expr * ast.expr * list ast.stmt * list ast.stmt) :=
  match stmt with
  | ast.For target iter body orelse => Some (target, iter, body, orelse)
  | ast.AsyncFor target iter body orelse => Some (target, iter, body, orelse)
  | _ => None
  end.

(** What [handle_for] logs before it lowers the iterable, and after it has
    lowered the body. *)
Definition for_async_log (stmt : ast.stmt) : list log_entry :=
  if isinstance_AsyncFor stmt then
    [LogEntry ERROR
       (dq ++ "async" ++ dq ++ " is currently not supported. The statement"
           ++ " is parsed but the " ++ dq ++ "async" ++ dq
           ++ " information is not available in the" ++ " graph.") []]
  else [].

Definition for_orelse_log (orelse : list ast.stmt) : list log_entry :=
  if negb (Nat.eqb (length orelse) 0) then [LogEntry ERROR NOT_IMPLEMENTED_MSG []]
  else [].

(** The parts of a function or async function definition. *)
Definition function_parts (stmt : ast.stmt)
  : option (string * ast.arguments * list ast.stmt * list ast.expr * option ast.expr) :=
  match stmt with
  | ast.FunctionDef name args body decorator_list returns =>
      Some (name, args, body, decorator_list, returns)
  | ast.AsyncFunctionDef name args body decorator_list returns =>
      Some (name, args, body, decorator_list, returns)
  | _ => None
  end.

(** What [handle_function_or_method] logs before it creates the
    declaration. *)
Definition function_log (stmt : ast.stmt) : list log_entry :=
  LogEntry DEFAULT "Handling a function/method: %s" [LogDump (ast.OfStmt stmt)]
    :: (if isinstance_AsyncFunctionDef stmt then
          [LogEntry ERROR
             (dq ++ "async" ++ dq
                 ++ " is currently not supported and the information is lost "
                 ++ "in the graph.") []]
        else []).

(** What [recv.getName()] reads for the receiver of a method: the name of
    the object in the store, or the name of an expression; nothing for a
    location that the store does not have. *)
Definition receiver_name (h : list obj) (recv : node) : option string :=
  match recv with
  | NObj l => option_map obj_name (h !! l)
  | NExpr g => Some (getName g)
  end.

(** The variable [mem_base_is_receiver] of [handle_assign_impl] (lines
    617-626) for a method with the receiver [receiver]: whether the base of
    the member access is a name reference with the name of the receiver.
    A method without a receiver has no receiver name, and no base is its
    receiver.  The result is [None] when reading the name raises. *)
Definition mem_base_is_receiver (h : list obj) (base : gexpr)
           (receiver : option node) : option bool :=
  match receiver with
  | Some recv =>
      match receiver_name h recv with
      | Some recv_name =>
          Some (is_declared_reference base && String.eqb (getName base) recv_name)
      | None => None
      end
  | None => Some false
  end.

(** The state with one more error for something that is not implemented. *)
Definition not_implemented_logged (s : state E) : state E :=
  State (heap s) (ext s) (LogEntry ERROR NOT_IMPLEMENTED_MSG [] :: log s) (locations s).

(** The declaration kind that the rules of the specification give to a
    function definition: by the enclosing record and by the name. *)
Definition declaration_kind (record : option node) (name : string) : function_kind :=
  match record with
  | Some _ => if String.eqb name "__init__" then Constructor else Method
  | None => Function
  end.

End SpecificationTerms.
(** * Further terms, for the properties beyond the specification's *)


(** A computation that raises from every state, and one that raises a
    given exception from every state; a computation that returns from
    every state. *)
Definition raises {E A : Type} (m : M E A) : Prop :=
  forall s, exists x s', m s = Raised x s'.

Definition raises_with {E A : Type} (x : exn) (m : M E A) : Prop :=
  forall s, exists s', m s = Raised x s'.

Definition succeeds {E A : Type} (m : M E A) : Prop :=
  forall s, exists a s', m s = Ok a s'.

(** A later state against an earlier one: the store has not shrunk, and
    the log and the locations have only been added to. *)
Definition grows {E : Type} (s s' : state E) : Prop :=
  length (heap s) <= length (heap s')
  /\ (exists lg, log s' = lg ++ log s)
  /\ (exists lc, locations s' = lc ++ locations s).

(** A run of [m] only adds to the log and to the locations, and takes the
    state of the collaborators to one that [Xok] relates to it when the run
    returns, and to one that [Xraise] relates to it when the run raises. *)
Definition keeps {E A : Type} (Xok Xraise : E -> E -> Prop) (m : M E A) : Prop :=
  forall s, match m s with
            | Ok _ s' => grows s s' /\ Xok (ext s) (ext s')
            | Raised _ s' => grows s s' /\ Xraise (ext s) (ext s')
            end.

Section FurtherTerms.
Context {E : Type} `{Frontend E}.

(** A name reference on the right-hand side after
    [rhs.setRefersTo(self.scopemanager.resolveReference(rhs))]; another
    expression is left as it is. *)
Definition with_resolved_reference (h : list obj) (e : E) (rhs : gexpr) : gexpr :=
  match rhs with
  | DeclaredReferenceExpression name type code _ =>
      DeclaredReferenceExpression name type code (resolve_reference h rhs e)
  | _ => rhs
  end.

(** The type that a declaration gets from the right-hand side. *)
Definition type_of_value (rhs : option gexpr) : jtype :=
  match rhs with
  | Some rhs => getType rhs
  | None => UnknownType
  end.

(** The statement kinds whose branch of [handle_statement_impl] only logs
    and returns an empty statement: delete, with, async with, raise,
    assert, global, nonlocal, continue, and what the final [else] receives
    (a match statement). *)
Definition is_unimplemented (stmt : ast.stmt) : bool :=
  match stmt with
  | ast.Delete _ | ast.With _ _ | ast.AsyncWith _ _ | ast.Raise _ _
  | ast.Assert _ _ | ast.Global _ | ast.Nonlocal _ | ast.Continue
  | ast.Match _ _ => true
  | _ => false
  end.

(** What such a branch logs, most recent first. *)
Definition unimplemented_log (stmt : ast.stmt) : list log_entry :=
  match stmt with
  | ast.Match _ _ =>
      [LogEntry DEFAULT "Received unexpected stmt: %s with type %s"
                [LogAst (ast.OfStmt stmt); LogTypeOf (ast.OfStmt stmt)];
       LogEntry ERROR NOT_IMPLEMENTED_MSG []]
  | _ => [LogEntry ERROR NOT_IMPLEMENTED_MSG []]
  end.

(** The super types of a class definition: one parsed type per base that
    is a name, qualified by the namespace; another base gives none. *)
Definition base_types (namespace : string) (bases : list ast.expr) : list jtype :=
  flat_map (fun base => match base with
                        | ast.Name id => [ParsedType (namespace ++ "." ++ id)]
                        | _ => []
                        end) bases.

(** What the loop over the bases logs for one base. *)
Definition base_entry (namespace : string) (base : ast.expr) : log_entry :=
  match base with
  | ast.Name id =>
      LogEntry DEFAULT ("Building super type using current " ++ "namespace: %s")
               [LogStr (namespace ++ "." ++ id)]
  | _ => LogEntry ERROR "Expected a name, but got: %s" [LogTypeOf (ast.OfExpr base)]
  end.

(** One error per element of a part of the syntax that is not
    implemented. *)
Definition not_implemented_entries {A : Type} (l : list A) : list log_entry :=
  map (fun _ => LogEntry ERROR NOT_IMPLEMENTED_MSG []) l.

(** The statements of a class body that become methods, and the others. *)
Definition method_definitions (body : list ast.stmt) : list ast.stmt :=
  List.filter isinstance_FunctionDef body.

Definition other_statements (body : list ast.stmt) : list ast.stmt :=
  List.filter (fun st => negb (isinstance_FunctionDef st)) body.

(** A decorator that is a call, [@f(...)], as opposed to a bare
    [@f] or [@a.b]. *)
Definition is_call (decorator : ast.expr) : bool :=
  match decorator with
  | ast.Call _ _ _ => true
  | _ => false
  end.

(** A parameter whose annotation is not a plain name, [x: List[int]] or
    [x: a.B]. *)
Definition annotation_without_id (a : ast.arg) : bool :=
  match ast.arg_annotation a with
  | Some (ast.Name _) | None => false
  | Some _ => true
  end.

(** The parameters that are given to [handle_argument]: all of them for a
    function, all but the first for a method. *)
Definition handled_arguments (record : option node) (args : ast.arguments)
  : list ast.arg :=
  match record with
  | Some _ => List.tl (ast.args args)
  | None => ast.args args
  end.

(** The type that a parameter gets from its annotation. *)
Definition annotation_type (a : ast.arg) : jtype :=
  match ast.arg_annotation a with
  | Some (ast.Name id) => ParsedType id
  | _ => UnknownType
  end.

(** The declaration of a parameter, and the one of the receiver of a
    method of the record named [record_name]. *)
Definition parameter_declaration (a : ast.arg) : obj :=
  ParamVariableDeclaration (ast.arg_arg a) (annotation_type a)
                           (get_src_code (ast.OfArg a)).

Definition receiver_declaration (record_name : string) (a : ast.arg) : obj :=
  VariableDeclaration (ast.arg_arg a) (ParsedType record_name)
                      (get_src_code (ast.OfArg a)) None.

(** Whether a node is a declaration, in a store: what [is_declaration]
    answers. *)
Definition declared_in (h : list obj) (r : node) : bool :=
  match r with
  | NObj l => match h !! l with
              | Some o => obj_is_declaration o
              | None => false
              end
  | NExpr _ => false
  end.

(** The statement that stands for a lowered node: the node itself, or, for
    a declaration, a new declaration statement that holds it. *)
Definition statement_form (r : node) (s : state E) : node * state E :=
  if declared_in (heap s) r
  then (NObj (length (heap s)),
        set_heap s (heap s ++ [DeclarationStatement EmptyString [r]]))
  else (r, s).

(** A block or a record with one more statement, a record with one more
    method. *)
Definition with_statement (c : node) (o : obj) : obj :=
  match o with
  | CompoundStatement code statements => CompoundStatement code (statements ++ [c])
  | RecordDeclaration name kind code bases methods statements fields =>
      RecordDeclaration name kind code bases methods (statements ++ [c]) fields
  | _ => o
  end.

Definition with_method (m : node) (o : obj) : obj :=
  match o with
  | RecordDeclaration name kind code bases methods statements fields =>
      RecordDeclaration name kind code bases (methods ++ [m]) statements fields
  | _ => o
  end.

(** The statements [stmts] lowered one after the other into the block at
    location [n], from the state [s] to the state [s']: every statement is
    lowered by [handle_statement] from the state that the one before it has
    left, and the statement form of its result is appended to the block.
    [cs] are the children that the block has gained, in their order. *)
Inductive lowered_into (n : nat)
  : list ast.stmt -> state E -> list node -> state E -> Prop :=
| lowered_into_nil (s : state E) : lowered_into n [] s [] s
| lowered_into_cons (st : ast.stmt) (stmts : list ast.stmt) (s s1 s2 s' : state E)
                    (r c : node) (o : obj) (cs : list node) :
    handle_statement st s = Ok r s1 ->
    statement_form r s1 = (c, s2) ->
    heap s2 !! n = Some o ->
    lowered_into n stmts (set_heap s2 (<[n := with_statement c o]> (heap s2))) cs s' ->
    lowered_into n (st :: stmts) s (c :: cs) s'.

(** The statements of a class body lowered one after the other into the
    record at location [n]: a [def] is lowered by
    [handle_function_or_method] with the record and its result is appended
    to the methods; another statement is lowered by [handle_statement] and
    the statement form of its result is appended to the statements. *)
Inductive class_body_lowered (n : nat)
  : list ast.stmt -> state E -> list node -> list node -> state E -> Prop :=
| class_body_nil (s : state E) : class_body_lowered n [] s [] [] s
| class_body_method (st : ast.stmt) (body : list ast.stmt) (s s1 s' : state E)
                    (m : node) (o : obj) (ms ss : list node) :
    isinstance_FunctionDef st = true ->
    handle_function_or_method handle_statement st (Some (NObj n)) s = Ok m s1 ->
    heap s1 !! n = Some o ->
    class_body_lowered n body (set_heap s1 (<[n := with_method m o]> (heap s1)))
                       ms ss s' ->
    class_body_lowered n (st :: body) s (m :: ms) ss s'
| class_body_statement (st : ast.stmt) (body : list ast.stmt) (s s1 s2 s' : state E)
                       (r c : node) (o : obj) (ms ss : list node) :
    isinstance_FunctionDef st = false ->
    handle_statement st s = Ok r s1 ->
    statement_form r s1 = (c, s2) ->
    heap s2 !! n = Some o ->
    class_body_lowered n body (set_heap s2 (<[n := with_statement c o]> (heap s2)))
                       ms ss s' ->
    class_body_lowered n (st :: body) s ms (c :: ss) s'.

(** A state with more entries in its log, most recent first. *)
Definition logged (entries : list log_entry) (s : state E) : state E :=
  State (heap s) (ext s) (entries ++ log s) (locations s).

(** The state after [handle_argument] has declared the parameter [a]: the
    declaration is the new object of the store, it has the location of the
    parameter and it has been given to the scope manager. *)
Definition with_parameter (s : state E) (a : ast.arg) : state E :=
  let p := NObj (length (heap s)) in
  let h := heap s ++ [parameter_declaration a] in
  State h (add_declaration h p (ext s))
        (LogEntry DEFAULT "Handling an argument: %s" [LogDump (ast.OfArg a)] :: log s)
        ((p, LocOf (ast.OfArg a)) :: locations s).

Definition with_parameters (l : list ast.arg) (s : state E) : state E :=
  fold_left with_parameter l s.

(** The error for an optional part of the syntax that is not implemented,
    when the part is there. *)
Definition optional_entry {A : Type} (x : option A) : list log_entry :=
  match x with
  | Some _ => [LogEntry ERROR NOT_IMPLEMENTED_MSG []]
  | None => []
  end.

(** What a function definition logs, after its parameters are declared,
    for the parts of its signature that it does not lower, most recent
    first: the defaults, [**kwargs], the keyword-only parameters and their
    defaults, [*args]. *)
Definition unsupported_parameters_log (args : ast.arguments) : list log_entry :=
  map (fun _ => LogEntry ERROR ("Default args. " ++ NOT_IMPLEMENTED_MSG) [])
      (ast.defaults args)
    ++ optional_entry (ast.kwarg args)
    ++ not_implemented_entries (ast.kw_defaults args)
    ++ not_implemented_entries (ast.kwonlyargs args)
    ++ optional_entry (ast.vararg args).

(** The arguments of a decorator that become members of its annotation,
    in the order in which they are lowered: the first positional argument,
    under the name [value], and every keyword argument under its own name.
    Each comes with the code of its syntax node. *)
Definition decorator_arguments (args : list ast.expr) (keywords : list ast.keyword)
  : list (option string * ast.expr * string) :=
  match args with
  | arg0 :: _ => [(Some "value", arg0, get_src_code (ast.OfExpr arg0))]
  | [] => []
  end
    ++ map (fun kw => match kw with
                      | ast.Keyword arg value =>
                          (arg, value, get_src_code (ast.OfKeyword kw))
                      end) keywords.

(** The members that these arguments become: each value is lowered in the
    store that holds the members before it, and becomes the value of a new
    member.  A value whose lowering raises ends the run. *)
Fixpoint lower_members (h : list obj) (e : E)
         (l : list (option string * ast.expr * string)) : xres E (list obj) :=
  match l with
  | [] => XOk [] e
  | (name, value, code) :: l' =>
      match lower_expression h value e with
      | XOk g e1 =>
          let member := AnnotationMember name (NExpr g) code in
          match lower_members (h ++ [member]) e1 l' with
          | XOk members e2 => XOk (member :: members) e2
          | XRaise x e2 => XRaise x e2
          end
      | XRaise x e1 => XRaise x e1
      end
  end.

(** The member that holds the base of a decorator [@a.b(...)]. *)
Definition receiver_member (func : ast.expr) (ref : gexpr) : list obj :=
  match func, ref with
  | ast.Attribute _ _, MemberExpression base _ _ _ =>
      [AnnotationMember (Some "receiver") (NExpr base) (get_src_code (ast.OfExpr func))]
  | _, _ => []
  end.

(** The name of the annotation of a decorator: the code of the lowered
    function expression for [@a.b(...)], its name for [@f(...)]. *)
Definition annotation_name (func : ast.expr) (ref : gexpr) : string :=
  match func with
  | ast.Attribute _ _ => getCode ref
  | _ => getName ref
  end.

(** The objects at the locations [n], [n + 1], ... of a store. *)
Definition objects_from (n len : nat) : list node := map NObj (seq n len).

(** What [make_compound_statement] logs before it creates the block. *)
Definition block_log (stmts : list ast.stmt) : list log_entry :=
  match stmts with
  | [] => [LogEntry WARN "Expected at least one statement. Returning a dummy." []]
  | _ :: _ => []
  end.

(** The location that a block gets: the span of its statements. *)
Definition block_location (b : node) (stmts : list ast.stmt)
  : list (node * loc_info) :=
  match stmts !! 0, last stmts with
  | Some s0, Some s1 => [(b, LocSpan (ast.OfStmt s0) (ast.OfStmt s1))]
  | _, _ => []
  end.

(** What the lowering of a try statement logs for the parts that it does
    not lower, most recent first: the handlers, the [else] part. *)
Definition try_log (handlers : list ast.excepthandler) (orelse : list ast.stmt)
  : list log_entry :=
  (if negb (Nat.eqb (length handlers) 0)
   then [LogEntry ERROR ("Try handlers. " ++ NOT_IMPLEMENTED_MSG) []] else [])
    ++ (if negb (Nat.eqb (length orelse) 0)
        then [LogEntry ERROR NOT_IMPLEMENTED_MSG []] else []).


End FurtherTerms.

(** * Reasoning about runs of the lowering *)

Unset Implicit Arguments.

Arguments update : simpl never.
Arguments call : simpl never.
Arguments is_declaration : simpl never.
Arguments handle_expression : simpl never.
Arguments function_contents : simpl never.
Arguments make_compound_statement : simpl never.
Arguments handle_function_or_method : simpl never.
Arguments handle_statement : simpl never.

Section Runs.
Context {E : Type}.
Implicit Types (h l : list obj) (e : E) (lg : list log_entry)
         (lc : list (node * loc_info)).

Lemma alloc_run (o : obj) h e lg lc :
  alloc o (State h e lg lc) = Ok (NObj (length h)) (State (h ++ [o]) e lg lc).
Proof. reflexivity. Qed.

Lemma alloc_run_app (o : obj) h l e lg lc :
  alloc o (State (h ++ l) e lg lc)
  = Ok (NObj (length h + length l)) (State (h ++ (l ++ [o])) e lg lc).
Proof. unfold alloc; cbn. now rewrite length_app, <- app_assoc. Qed.

Lemma heap_lookup_0 h (o : obj) l : (h ++ o :: l) !! length h = Some o.
Proof. now apply list_lookup_middle. Qed.

Lemma heap_lookup_app h l n : (h ++ l) !! (length h + n) = l !! n.
Proof. rewrite lookup_app_r by lia. f_equal. lia. Qed.

Lemma heap_insert_0 h (o o' : obj) l :
  <[length h := o']> (h ++ o :: l) = h ++ o' :: l.
Proof.
  replace (length h) with (length h + 0) by lia.
  now rewrite insert_app_r.
Qed.

Lemma heap_insert_app h l n (o' : obj) :
  <[length h + n := o']> (h ++ l) = h ++ <[n := o']> l.
Proof. apply insert_app_r. Qed.

Lemma update_run_0 m (f : obj -> option obj) h o l e lg lc :
  update m (NObj (length h)) f (State (h ++ o :: l) e lg lc)
  = match f o with
    | Some o' => Ok tt (State (h ++ o' :: l) e lg lc)
    | None => Raised (AttributeError m) (State (h ++ o :: l) e lg lc)
    end.
Proof.
  unfold update; cbn. rewrite heap_lookup_0.
  destruct (f o); [|reflexivity]. unfold set_heap; cbn. now rewrite heap_insert_0.
Qed.

Lemma update_run_app m (f : obj -> option obj) h l n e lg lc :
  update m (NObj (length h + n)) f (State (h ++ l) e lg lc)
  = match l !! n with
    | Some o =>
        match f o with
        | Some o' => Ok tt (State (h ++ <[n := o']> l) e lg lc)
        | None => Raised (AttributeError m) (State (h ++ l) e lg lc)
        end
    | None => Raised (AttributeError m) (State (h ++ l) e lg lc)
    end.
Proof.
  unfold update; cbn. rewrite heap_lookup_app.
  destruct (l !! n); [|reflexivity].
  destruct (f o); [|reflexivity]. unfold set_heap; cbn. now rewrite heap_insert_app.
Qed.

Lemma call_run {A} m (f : obj -> option A) (k : loc) h o e lg lc :
  h !! k = Some o ->
  call m (NObj k) f (State h e lg lc)
  = match f o with
    | Some a => Ok a (State h e lg lc)
    | None => Raised (AttributeError m) (State h e lg lc)
    end.
Proof. intros Hk. unfold call; cbn. now rewrite Hk. Qed.

Lemma is_declaration_run_0 h o l e lg lc :
  is_declaration (NObj (length h)) (State (h ++ o :: l) e lg lc)
  = Ok (obj_is_declaration o) (State (h ++ o :: l) e lg lc).
Proof. unfold is_declaration; cbn. now rewrite heap_lookup_0. Qed.

Lemma is_declaration_run_app h l n e lg lc :
  is_declaration (NObj (length h + n)) (State (h ++ l) e lg lc)
  = match l !! n with
    | Some o => Ok (obj_is_declaration o) (State (h ++ l) e lg lc)
    | None => Ok false (State (h ++ l) e lg lc)
    end.
Proof. unfold is_declaration; cbn. now rewrite heap_lookup_app. Qed.

End Runs.

Section RunsOfCollaborators.
Context {E : Type} `{Frontend E}.

Lemma handle_expression_run x h e lg lc :
  handle_expression x (State h e lg lc)
  = match lower_expression h x e with
    | XOk g e' => Ok g (State h e' lg lc)
    | XRaise err e' => Raised err (State h e' lg lc)
    end.
Proof. reflexivity. Qed.

End RunsOfCollaborators.

(** Running the lowering symbolically: the monad is unfolded, the store
    primitives are rewritten by their equations, the rest is computed. *)
Ltac run_rewrite :=
  first [ rewrite alloc_run_app
        | rewrite update_run_0
        | rewrite update_run_app
        | rewrite is_declaration_run_0
        | rewrite is_declaration_run_app
        | rewrite handle_expression_run ].

Create HintDb lowering discriminated.
#[global] Hint Unfold bind
  setReceiver setBody addAnnotations setMembers setSuperClasses addMethod
  addField addStatement addDeclaration setReturnValue setConditionDeclaration
  setCondition setStatement setThenStatement setElseStatement setTryBlock
  setFinallyBlock setIterable setVariable setLhs setRhs setInitializer
  getReceiver node_getName set_heap set_ext : lowering.

Ltac run_normalize :=
  rewrite <- ?app_assoc, ?length_app; cbn.

Ltac run :=
  repeat (progress (cbn; autounfold with lowering; cbn;
                    try run_normalize; try run_rewrite)).

(** * What a run leaves alone *)

Section Frames.
Context {E : Type}.
Implicit Types (h : list obj) (n : nat).

Lemma frame_refl n h : frame n h h.
Proof. split; [lia|]. intros l o Hl. exists o. auto. Qed.

Lemma frame_trans n h1 h2 h3 : frame n h1 h2 -> frame n h2 h3 -> frame n h1 h3.
Proof.
  intros [Hlen12 H12] [Hlen23 H23]. split; [lia|].
  intros l o Hl.
  destruct (H12 l o Hl) as (o2 & Hl2 & Hs2 & He2).
  destruct (H23 l o2 Hl2) as (o3 & Hl3 & Hs3 & He3).
  exists o3. split; [assumption|]. split.
  - now rewrite Hs3.
  - intros Hn. rewrite (He3 Hn). auto.
Qed.

Lemma frame_alloc n h (o : obj) : frame n h (h ++ [o]).
Proof.
  split; [rewrite length_app; lia|].
  intros l o' Hl. exists o'. split; [|auto].
  now apply lookup_app_l_Some.
Qed.

Lemma frame_insert n h (l : loc) (o o' : obj) :
  h !! l = Some o -> skeleton o' = skeleton o ->
  (l < n -> erase_fields o' = erase_fields o) ->
  frame n h (<[l := o']> h).
Proof.
  intros Hl Hs He. split; [rewrite length_insert; lia|].
  intros k ok Hk. destruct (decide (k = l)) as [->|Hne].
  - exists o'. rewrite list_lookup_insert_eq by (now apply lookup_lt_Some in Hl).
    assert (ok = o) as -> by congruence. auto.
  - exists ok. rewrite list_lookup_insert_ne by (intros ->; now apply Hne). auto.
Qed.

Lemma pres_ret n {A} (a : A) (Q : A -> Prop) : Q a -> pres (E := E) n (ret a) Q.
Proof. intros HQ s _. cbn. split; [assumption | apply frame_refl]. Qed.

Lemma pres_raise n {A} (x : exn) (Q : A -> Prop) : pres (E := E) n (raise x) Q.
Proof. intros s _. cbn. apply frame_refl. Qed.

Lemma pres_bind n {A B} (m : M E A) (k : A -> M E B) (P : A -> Prop) (Q : B -> Prop) :
  pres n m P -> (forall a, P a -> pres n (k a) Q) -> pres n (bind m k) Q.
Proof.
  intros Hm Hk s Hn. unfold bind. specialize (Hm s Hn).
  destruct (m s) as [a s'|x s']; [|assumption].
  destruct Hm as [HP Hf].
  assert (Hn' : n <= length (heap s')) by (destruct Hf; lia).
  specialize (Hk a HP s' Hn').
  destruct (k a s') as [b s''|x s''].
  - destruct Hk as [HQ Hf']. split; [assumption|]. eapply frame_trans; eassumption.
  - eapply frame_trans; eassumption.
Qed.

Lemma pres_weaken n {A} (m : M E A) (P Q : A -> Prop) :
  pres n m P -> (forall a, P a -> Q a) -> pres n m Q.
Proof.
  intros Hm HPQ s Hn. specialize (Hm s Hn).
  destruct (m s); [|assumption]. destruct Hm. auto.
Qed.

(** A computation that does not write the store. *)
Lemma pres_reader n {A} (m : M E A) :
  (forall s, match m s with Ok _ s' | Raised _ s' => heap s' = heap s end) ->
  pres n m any.
Proof.
  intros Hm s _. specialize (Hm s).
  destruct (m s); [split; [exact I|]|]; rewrite Hm; apply frame_refl.
Qed.

Lemma pres_alloc n (o : obj) : pres (E := E) n (alloc o) (new_node n).
Proof.
  intros s Hn. cbn. split; [assumption | apply frame_alloc].
Qed.

Lemma pres_update n m (x : node) (f : obj -> option obj) :
  keeps_skeleton f -> new_node n x \/ keeps_but_fields f ->
  pres (E := E) n (update m x f) any.
Proof.
  intros Hs Hx s Hn. unfold update.
  destruct x as [l|g]; [|apply frame_refl].
  destruct (heap s !! l) as [o|] eqn:Hl; [|apply frame_refl].
  destruct (f o) as [o'|] eqn:Hf; [|apply frame_refl].
  split; [exact I|]. cbn. eapply frame_insert; eauto.
  intros Hln. destruct Hx as [Hx|Hx]; [cbn in Hx; lia | eauto].
Qed.

Lemma pres_for_each n {A} (body : A -> M E unit) (l : list A) :
  Forall (fun x => pres n (body x) any) l -> pres n (for_each body l) any.
Proof.
  induction 1 as [|x l Hx Hl IH]; cbn.
  - now apply pres_ret.
  - eapply pres_bind; [exact Hx | intros _ _; exact IH].
Qed.

Lemma pres_for_fold n {A S} (body : S -> A -> M E S) (I : S -> Prop) (l : list A) :
  (forall acc x, I acc -> pres n (body acc x) I) ->
  forall acc, I acc -> pres n (for_fold body l acc) I.
Proof.
  intros Hbody. induction l as [|x l IH]; intros acc Hacc; cbn.
  - now apply pres_ret.
  - eapply pres_bind; [apply Hbody; exact Hacc | intros acc' Hacc'; now apply IH].
Qed.

End Frames.

Ltac keeps_tac :=
  let o := fresh "o" in
  let o' := fresh "o'" in
  let Hf := fresh "Hf" in
  intros o o' Hf; destruct o;
  try match goal with k : function_kind |- _ => destruct k end;
  cbn in Hf; try discriminate Hf;
  injection Hf as <-; reflexivity.

Ltac reader_tac :=
  apply pres_reader; intros s; cbn;
  repeat match goal with
         | |- context [match ?x with _ => _ end] => destruct x; cbn
         end;
  reflexivity.

Section FramesOfPrimitives.
Context {E : Type} `{Frontend E}.
Implicit Types (n : nat) (x y : node).

Lemma pres_log_with_loc n fmt args lvl : pres (E := E) n (log_with_loc fmt args lvl) any.
Proof. reader_tac. Qed.

Lemma pres_add_loc_info n a x : pres (E := E) n (add_loc_info a x) any.
Proof. reader_tac. Qed.

Lemma pres_add_mul_loc_infos n a b x : pres (E := E) n (add_mul_loc_infos a b x) any.
Proof. reader_tac. Qed.

Lemma pres_handle_expression n a : pres (E := E) n (handle_expression a) any.
Proof. apply pres_reader; intros s. unfold handle_expression.
       destruct lower_expression; reflexivity. Qed.

Lemma pres_handle_operator_code n a : pres (E := E) n (handle_operator_code a) any.
Proof. reader_tac. Qed.

Lemma pres_enterScope n x : pres (E := E) n (scopemanager.enterScope x) any.
Proof. reader_tac. Qed.

Lemma pres_leaveScope n x : pres (E := E) n (scopemanager.leaveScope x) any.
Proof. reader_tac. Qed.

Lemma pres_scope_addDeclaration n x : pres (E := E) n (scopemanager.addDeclaration x) any.
Proof. reader_tac. Qed.

Lemma pres_resolveReference n g : pres (E := E) n (scopemanager.resolveReference g) any.
Proof. reader_tac. Qed.

Lemma pres_isInRecord n : pres (E := E) n scopemanager.isInRecord any.
Proof. reader_tac. Qed.

Lemma pres_isInFunction n : pres (E := E) n scopemanager.isInFunction any.
Proof. reader_tac. Qed.

Lemma pres_getCurrentFunction n : pres (E := E) n scopemanager.getCurrentFunction any.
Proof. reader_tac. Qed.

Lemma pres_getCurrentRecord n : pres (E := E) n scopemanager.getCurrentRecord any.
Proof. reader_tac. Qed.

Lemma pres_getCurrentNamespace n : pres (E := E) n scopemanager.getCurrentNamespace any.
Proof. reader_tac. Qed.

Lemma pres_call n {A} m x (f : obj -> option A) : pres (E := E) n (call m x f) any.
Proof.
  apply pres_reader; intros s. unfold call.
  destruct x; [|reflexivity].
  destruct (heap s !! l); [|reflexivity]. destruct (f o); reflexivity.
Qed.

Lemma pres_is_declaration n x : pres (E := E) n (is_declaration x) any.
Proof.
  apply pres_reader; intros s. unfold is_declaration.
  destruct x; [|reflexivity]. destruct (heap s !! l); reflexivity.
Qed.

Lemma pres_node_getName n x : pres (E := E) n (node_getName x) any.
Proof. destruct x; [apply pres_call | now apply pres_ret]. Qed.

Lemma pres_getReceiver n x : pres (E := E) n (getReceiver x) any.
Proof. apply pres_call. Qed.

Lemma pres_getBase n g : pres (E := E) n (getBase g) any.
Proof. destruct g; first [now apply pres_ret | apply pres_raise]. Qed.

Lemma pres_setRefersTo n g d : pres (E := E) n (setRefersTo g d) any.
Proof. destruct g; first [now apply pres_ret | apply pres_raise]. Qed.

Lemma pres_index n {A} (l : list A) i : pres (E := E) n (index l i) any.
Proof. unfold index. destruct (l !! i); first [now apply pres_ret | apply pres_raise]. Qed.

Lemma pres_stmt_target n s : pres (E := E) n (stmt_target s) any.
Proof. destruct s; first [now apply pres_ret | apply pres_raise]. Qed.

Lemma pres_stmt_value n s : pres (E := E) n (stmt_value s) any.
Proof. destruct s; first [now apply pres_ret | apply pres_raise]. Qed.

Lemma pres_pass n : pres (E := E) n pass any.
Proof. now apply pres_ret. Qed.

Lemma pres_alloc_any n (o : obj) : pres (E := E) n (alloc o) any.
Proof. eapply pres_weaken; [apply pres_alloc | easy]. Qed.

(** The setters.  All of them keep what the object is for good; [addField]
    also keeps the object up to the fields of a record, so it may be
    called on an object below [n]. *)
Lemma pres_addField n x y : pres (E := E) n (addField x y) any.
Proof. apply pres_update; [keeps_tac | right; keeps_tac]. Qed.

Lemma pres_setReceiver n x y : new_node n x -> pres (E := E) n (setReceiver x y) any.
Proof. intros Hx. apply pres_update; [keeps_tac | now left]. Qed.

Lemma pres_setBody n x y : new_node n x -> pres (E := E) n (setBody x y) any.
Proof. intros Hx. apply pres_update; [keeps_tac | now left]. Qed.

Lemma pres_addAnnotations n x l : new_node n x -> pres (E := E) n (addAnnotations x l) any.
Proof. intros Hx. apply pres_update; [keeps_tac | now left]. Qed.

Lemma pres_setMembers n x l : new_node n x -> pres (E := E) n (setMembers x l) any.
Proof. intros Hx. apply pres_update; [keeps_tac | now left]. Qed.

Lemma pres_setSuperClasses n x l : new_node n x -> pres (E := E) n (setSuperClasses x l) any.
Proof. intros Hx. apply pres_update; [keeps_tac | now left]. Qed.

Lemma pres_addMethod n x y : new_node n x -> pres (E := E) n (addMethod x y) any.
Proof. intros Hx. apply pres_update; [keeps_tac | now left]. Qed.

Lemma pres_addStatement n x y : new_node n x -> pres (E := E) n (addStatement x y) any.
Proof. intros Hx. apply pres_update; [keeps_tac | now left]. Qed.

Lemma pres_addDeclaration n x y : new_node n x -> pres (E := E) n (addDeclaration x y) any.
Proof. intros Hx. apply pres_update; [keeps_tac | now left]. Qed.

Lemma pres_setReturnValue n x y : new_node n x -> pres (E := E) n (setReturnValue x y) any.
Proof. intros Hx. apply pres_update; [keeps_tac | now left]. Qed.

Lemma pres_setConditionDeclaration n x y :
  new_node n x -> pres (E := E) n (setConditionDeclaration x y) any.
Proof. intros Hx. apply pres_update; [keeps_tac | now left]. Qed.

Lemma pres_setCondition n x y : new_node n x -> pres (E := E) n (setCondition x y) any.
Proof. intros Hx. apply pres_update; [keeps_tac | now left]. Qed.

Lemma pres_setStatement n x y : new_node n x -> pres (E := E) n (setStatement x y) any.
Proof. intros Hx. apply pres_update; [keeps_tac | now left]. Qed.

Lemma pres_setThenStatement n x y : new_node n x -> pres (E := E) n (setThenStatement x y) any.
Proof. intros Hx. apply pres_update; [keeps_tac | now left]. Qed.

Lemma pres_setElseStatement n x y : new_node n x -> pres (E := E) n (setElseStatement x y) any.
Proof. intros Hx. apply pres_update; [keeps_tac | now left]. Qed.

Lemma pres_setTryBlock n x y : new_node n x -> pres (E := E) n (setTryBlock x y) any.
Proof. intros Hx. apply pres_update; [keeps_tac | now left]. Qed.

Lemma pres_setFinallyBlock n x y : new_node n x -> pres (E := E) n (setFinallyBlock x y) any.
Proof. intros Hx. apply pres_update; [keeps_tac | now left]. Qed.

Lemma pres_setIterable n x y : new_node n x -> pres (E := E) n (setIterable x y) any.
Proof. intros Hx. apply pres_update; [keeps_tac | now left]. Qed.

Lemma pres_setVariable n x y : new_node n x -> pres (E := E) n (setVariable x y) any.
Proof. intros Hx. apply pres_update; [keeps_tac | now left]. Qed.

Lemma pres_setLhs n x y : new_node n x -> pres (E := E) n (setLhs x y) any.
Proof. intros Hx. apply pres_update; [keeps_tac | now left]. Qed.

Lemma pres_setRhs n x y : new_node n x -> pres (E := E) n (setRhs x y) any.
Proof. intros Hx. apply pres_update; [keeps_tac | now left]. Qed.

Lemma pres_setInitializer n x y : new_node n x -> pres (E := E) n (setInitializer x y) any.
Proof. intros Hx. apply pres_update; [keeps_tac | now left]. Qed.

End FramesOfPrimitives.

Create HintDb pres discriminated.
#[global] Hint Resolve
  pres_log_with_loc pres_add_loc_info pres_add_mul_loc_infos pres_handle_expression
  pres_handle_operator_code pres_enterScope pres_leaveScope pres_scope_addDeclaration
  pres_resolveReference pres_isInRecord pres_isInFunction pres_getCurrentFunction
  pres_getCurrentRecord pres_getCurrentNamespace pres_call pres_is_declaration
  pres_node_getName pres_getReceiver pres_getBase pres_setRefersTo pres_index
  pres_stmt_target pres_stmt_value pres_pass pres_alloc_any pres_raise
  pres_addField pres_setReceiver pres_setBody pres_addAnnotations pres_setMembers
  pres_setSuperClasses pres_addMethod pres_addStatement pres_addDeclaration
  pres_setReturnValue pres_setConditionDeclaration pres_setCondition
  pres_setStatement pres_setThenStatement pres_setElseStatement pres_setTryBlock
  pres_setFinallyBlock pres_setIterable pres_setVariable pres_setLhs pres_setRhs
  pres_setInitializer : pres.

(** Following a definition of the lowering through the rules above. *)
Ltac pres_new :=
  repeat match goal with
         | |- pres _ (match ?x with _ => _ end) _ => destruct x
         end;
  apply pres_alloc.

Ltac pres_atom :=
  solve [ eauto with pres
        | eapply pres_weaken; [apply pres_alloc | easy] ].

Ltac pres_go :=
  repeat match goal with
         | |- pres ?n (bind ?m _) _ =>
             first [ eapply (pres_bind n m _ (new_node n));
                     [ solve [pres_new] | intros ? ? ]
                   | eapply (pres_bind n m _ any); [ | intros ? _ ] ]
         | |- pres _ (ret _) _ => apply pres_ret; try exact I
         | |- pres _ (let _ := _ in _) _ => cbv zeta
         | |- pres _ (match ?x with _ => _ end) _ => destruct x
         | |- pres _ (for_each _ _) _ =>
             apply pres_for_each;
             first [ eapply Forall_impl; [eassumption | cbv beta; intros ? ?]
                   | apply Forall_forall; intros ? _ ]
         | |- pres _ _ _ => pres_atom
         end.

Section FramesOfFunctions.
Context {E : Type} `{Frontend E}.
Implicit Types (n : nat) (self : ast.stmt -> M E node).

Lemma pres_handle_argument n arg : pres n (handle_argument arg) any.
Proof. unfold handle_argument. pres_go. Qed.

Lemma pres_make_compound_statement self stmts :
  Forall (fun st => forall n, pres n (self st) any) stmts ->
  forall n, pres n (make_compound_statement self stmts) any.
Proof.
  intros Hself n. unfold make_compound_statement.
  destruct (Nat.eqb (length stmts) 0); [pres_go|].
  cbn [andb]. pres_go.
Qed.

Lemma pres_handle_for self stmt :
  Forall (fun st => forall n, pres n (self st) any) (children stmt) ->
  forall n, pres n (handle_for self stmt) any.
Proof.
  intros Hself n. unfold handle_for.
  pose proof (pres_make_compound_statement self _ Hself) as Hbody.
  destruct stmt; cbn in Hbody; pres_go.
Qed.

Lemma pres_handle_assign n stmt : pres n (handle_assign stmt) any.
Proof.
  unfold handle_assign, handle_assign_impl, assign_in_class_body,
    assign_new_variable, assign_member_in_method.
  pres_go.
Qed.

(** In the loop over the decorators the variable [annotation], when it is
    bound, holds an annotation that this call has created. *)
Lemma pres_handle_decorator n locals decorator :
  match snd locals with Some a => new_node n a | None => True end ->
  pres n (handle_decorator locals decorator)
       (fun locals' => match snd locals' with Some a => new_node n a | None => True end).
Proof.
  intros Hlocals. unfold handle_decorator.
  destruct decorator; try apply pres_raise.
  eapply (pres_bind n _ _
            (fun bound => match fst bound with Some a => new_node n a | None => True end)).
  - destruct decorator; pres_go; cbn; auto.
  - intros bound Hbound. cbv zeta.
    eapply (pres_bind n _ _ any); [pres_go|intros ? _].
    eapply (pres_bind n _ _ any).
    + apply pres_for_fold; [|exact I]. intros acc [] _. pres_go.
    + intros ? _. destruct (fst bound); pres_go. assumption.
Qed.

Lemma pres_function_contents self f record args body decorator_list returns :
  Forall (fun st => forall n, pres n (self st) any) body ->
  forall n, new_node n f ->
            pres n (function_contents self f record args body decorator_list returns) any.
Proof.
  intros Hself n Hf. unfold function_contents.
  pose proof (pres_make_compound_statement self _ Hself) as Hbody.
  pose proof pres_handle_argument as Harg.
  assert (Hdec : pres n (for_fold handle_decorator decorator_list ([], None)) any).
  { eapply pres_weaken; [|easy].
    apply (pres_for_fold n _ (fun locals => match snd locals with
                                             | Some a => new_node n a
                                             | None => True
                                             end)); [|exact I].
    intros. now apply pres_handle_decorator. }
  pres_go.
Qed.

Lemma pres_handle_function_or_method self node' record :
  Forall (fun st => forall n, pres n (self st) any) (children node') ->
  forall n, pres n (handle_function_or_method self node' record) any.
Proof.
  intros Hself n. unfold handle_function_or_method.
  destruct node'; cbn [children] in Hself;
    try pose proof (fun f => pres_function_contents self f record args body
                                                    decorator_list returns Hself)
      as Hcontents;
    pres_go.
Qed.

Lemma pres_handle_class_body_stmt self cls st n :
  lowering_pres self st -> new_node n cls ->
  pres n (handle_class_body_stmt self cls st) any.
Proof.
  intros [Hst Hmethod] Hcls. unfold handle_class_body_stmt. pres_go.
Qed.

Lemma pres_handle_base n bases base : pres n (handle_base bases base) any.
Proof. unfold handle_base. pres_go. Qed.

Lemma pres_handle_alias n decl_stmt a :
  new_node n decl_stmt -> pres n (handle_alias decl_stmt a) any.
Proof. intros Hdecl. unfold handle_alias. pres_go. Qed.

Lemma pres_handle_statement_impl self stmt :
  Forall (lowering_pres self) (children stmt) ->
  forall n, pres n (handle_statement_impl self stmt) any.
Proof.
  intros Hchildren n.
  assert (Hself : Forall (fun st => forall n, pres n (self st) any) (children stmt)).
  { eapply Forall_impl; [exact Hchildren | now intros st [Hst _]]. }
  pose proof (pres_handle_function_or_method self stmt None Hself) as Hfun.
  pose proof (pres_handle_for self stmt Hself) as Hfor.
  pose proof pres_handle_assign as Hassign.
  unfold handle_statement_impl, not_implemented.
  destruct stmt; cbn [children] in Hself, Hchildren;
    try apply Forall_app in Hself as [Hbody Horelse];
    try pose proof (pres_make_compound_statement self _ Hbody) as Hmcs1;
    try pose proof (pres_make_compound_statement self _ Horelse) as Hmcs2;
    try pose proof (pres_make_compound_statement self _ Hself) as Hmcs;
    try solve [pres_go].
  - clear Hself Hmcs.
    eapply (pres_bind n _ _ (new_node n)); [pres_new | intros cls Hcls].
    eapply (pres_bind n _ _ any); [|intros ? _].
    { apply pres_for_fold; [|exact I]. intros. apply pres_handle_base. }
    pres_go. now apply pres_handle_class_body_stmt.
  - pose proof (pres_handle_alias n) as Halias. pres_go.
  - pose proof (pres_handle_alias n) as Halias. pres_go.
Qed.

Lemma handle_statement_unfold stmt :
  handle_statement stmt
  = (log_with_loc ("Start " ++ dq ++ "handle_statement" ++ dq ++ " for:" ++ nl
                     ++ "%s" ++ nl)
                  [LogStr (get_src_code (ast.OfStmt stmt))] DEFAULT ;;
     r <- handle_statement_impl handle_statement stmt ;;
     add_loc_info (ast.OfStmt stmt) r ;;
     log_with_loc ("End " ++ dq ++ "handle_statement" ++ dq ++ " for:" ++ nl
                     ++ "%s" ++ nl ++ "Result is: %s")
                  [LogStr (get_src_code (ast.OfStmt stmt)); LogNode r] DEFAULT ;;
     ret r)%lowering.
Proof. destruct stmt; reflexivity. Qed.

(** Induction over a statement and the statements that its lowering
    descends into. *)
Lemma stmt_children_ind (P : ast.stmt -> Prop) :
  (forall stmt, Forall P (children stmt) -> P stmt) -> forall stmt, P stmt.
Proof.
  intros Hstep. fix IH 1. intros stmt. apply Hstep.
  assert (Hlist : forall l : list ast.stmt, Forall P l).
  { induction l as [|st l IHl]; constructor; [apply IH | exact IHl]. }
  destruct stmt; cbn [children]; try apply Forall_app; auto.
Qed.

(** Lowering a statement leaves the objects that were there alone, but
    for the fields that a record has gained. *)
Theorem pres_handle_statement stmt : lowering_pres handle_statement stmt.
Proof.
  induction stmt as [stmt IH] using stmt_children_ind.
  assert (Hself : Forall (fun st => forall n, pres n (handle_statement st) any)
                         (children stmt)).
  { eapply Forall_impl; [exact IH | now intros st [Hst _]]. }
  split.
  - intros n. rewrite handle_statement_unfold.
    pose proof (pres_handle_statement_impl handle_statement stmt IH). pres_go.
  - intros n record. now apply pres_handle_function_or_method.
Qed.


End FramesOfFunctions.

Section FrameLookups.
Context {E : Type} `{Frontend E}.
Implicit Types (h : list obj) (n : nat).

Lemma update_run_lookup m (f : obj -> option obj) (k : nat) h (o : obj) (e : E) lg lc :
  h !! k = Some o ->
  update m (NObj k) f (State h e lg lc)
  = match f o with
    | Some o' => Ok tt (State (<[k := o']> h) e lg lc)
    | None => Raised (AttributeError m) (State h e lg lc)
    end.
Proof. intros Hk. unfold update; cbn. rewrite Hk. reflexivity. Qed.

Lemma is_declaration_run_lookup (k : nat) h (o : obj) (e : E) lg lc :
  h !! k = Some o ->
  is_declaration (NObj k) (State h e lg lc)
  = Ok (obj_is_declaration o) (State h e lg lc).
Proof. intros Hk. unfold is_declaration; cbn. now rewrite Hk. Qed.

(** An object below [n] that is not a record is as it was. *)
Lemma frame_lookup_below n h h' (l : nat) (o : obj) :
  frame n h h' -> l < n -> h !! l = Some o ->
  match o with RecordDeclaration _ _ _ _ _ _ _ => False | _ => True end ->
  h' !! l = Some o.
Proof.
  intros [_ Hf] Hl Ho Hrec.
  destruct (Hf l o Ho) as (o' & Ho' & _ & Herase).
  specialize (Herase Hl). rewrite Ho'. f_equal.
  destruct o; try contradiction; destruct o'; cbn in Herase; congruence.
Qed.

(** A record below [n] is as it was, but for its fields. *)
Lemma frame_lookup_record n h h' (l : nat) name kind code bases methods statements fields :
  frame n h h' -> l < n ->
  h !! l = Some (RecordDeclaration name kind code bases methods statements fields) ->
  exists fields',
    h' !! l = Some (RecordDeclaration name kind code bases methods statements fields').
Proof.
  intros [_ Hf] Hl Ho.
  destruct (Hf l _ Ho) as (o' & Ho' & _ & Herase).
  specialize (Herase Hl). rewrite Ho'.
  destruct o'; cbn in Herase; try discriminate Herase.
  injection Herase as -> -> -> -> -> ->. eauto.
Qed.

(** A function declaration keeps its kind, name, code and record; a free
    function keeps having the receiver it had. *)
Lemma frame_lookup_function n h h' (l : nat) kind name code record receiver body anns :
  frame n h h' ->
  h !! l = Some (FunctionDeclaration kind name code record receiver body anns) ->
  exists receiver' body' anns',
    h' !! l = Some (FunctionDeclaration kind name code record receiver' body' anns')
    /\ (kind = Function -> receiver' = receiver).
Proof.
  intros [_ Hf] Ho.
  destruct (Hf l _ Ho) as (o' & Ho' & Hskel & _). rewrite Ho'.
  destruct o'; try (destruct kind; discriminate Hskel).
  destruct kind, kind0; try discriminate Hskel; cbn in Hskel.
  all: injection Hskel as -> -> ->; try subst; do 3 eexists; split;
    [reflexivity | try discriminate; auto].
Qed.

End FrameLookups.

Section AssignmentProperties.
Context {E : Type} `{Frontend E}.

Ltac assignment_cases stmt Hparts :=
  destruct stmt as
    [ | | | | | [|? [|? ?]] ? | | ? ? [?|] | | | | | | | | | | | | | | | | | | ];
  try discriminate Hparts; cbn in Hparts;
  injection Hparts as <- <-.

Ltac lower_value_cases Hrhs :=
  cbn in Hrhs;
  try match type of Hrhs with
      | context [lower_expression ?h ?v ?e] =>
          let Hv := fresh "Hv" in
          destruct (lower_expression h v e) eqn:Hv; try discriminate Hrhs
      end;
  injection Hrhs as <- <-.

(** C6.  A simple assignment with two or more targets: an error is logged
    and a bare "=" operator is returned; its operands are not set, the
    store gains this one object and the scope manager is not called. *)
Theorem handle_assign_multi_target (targets : list ast.expr) (value : ast.expr)
        (s : state E) :
  2 <= length targets ->
  let stmt := ast.Assign targets value in
  let r := NObj (length (heap s)) in
  handle_assign stmt s
  = Ok r (State (heap s ++ [BinaryOperator "=" (get_src_code (ast.OfStmt stmt)) None None])
                (ext s)
                (end_entry "handle_assign" stmt r
                   :: LogEntry ERROR NOT_IMPLEMENTED_MSG []
                   :: start_entry "handle_assign" stmt :: log s)
                ((r, LocOf (ast.OfStmt stmt)) :: locations s)).
Proof.
  intros Hlen stmt r. subst stmt r.
  destruct s as [h e lg lc].
  destruct targets as [|a [|b t]]; cbn in Hlen; try lia.
  unfold handle_assign, handle_assign_impl. run. reflexivity.
Qed.

(** C1.  An assignment-like statement whose left-hand side is a name
    reference or a member access that resolves: the result is a "="
    operator whose left operand is the reference and whose right operand,
    when there is a right-hand side, is the lowered right-hand side.  The
    store gains this one object and nothing is registered with the scope
    manager. *)
Theorem handle_assign_rebinding (stmt : ast.stmt) (target : ast.expr)
        (value : option ast.expr) (s : state E) (lhs : gexpr) (rhs : option gexpr)
        (e1 e2 : E) (d : loc) :
  assignment_parts stmt = Some (target, value) ->
  lower_expression (heap s) target (ext s) = XOk lhs e1 ->
  lower_value (heap s) value e1 = XOk rhs e2 ->
  is_reference lhs = true ->
  resolve_reference (heap s) lhs e2 = Some d ->
  let r := NObj (length (heap s)) in
  handle_assign stmt s
  = Ok r (State (heap s ++ [BinaryOperator "=" (get_src_code (ast.OfStmt stmt))
                                           (Some (NExpr lhs)) (option_map NExpr rhs)])
                e2
                (end_entry "handle_assign" stmt r
                   :: start_entry "handle_assign" stmt :: log s)
                ((r, LocOf (ast.OfStmt stmt)) :: locations s)).
Proof.
  intros Hparts Hlhs Hrhs Href Hres r. subst r.
  destruct s as [h e lg lc]. cbn in *.
  unfold is_reference in Href.
  assignment_cases stmt Hparts.
  all: lower_value_cases Hrhs.
  all: unfold handle_assign, handle_assign_impl; run; rewrite Hlhs; run.
  all: try (rewrite Hv; run).
  all: destruct lhs; try discriminate Href; run; rewrite Hres; run.
  all: reflexivity.
Qed.

(** C2.  An assignment-like statement whose left-hand side does not
    resolve, in a class body that is not inside a function: the result is
    a Field declaration, typed from the right-hand side when there is one
    and unknown otherwise, with the right-hand side as its value; it is
    registered with the scope manager, whose current frame is the one of
    the enclosing record.  No Variable is created: the field is the one
    object that the store gains. *)
Theorem handle_assign_class_attribute (stmt : ast.stmt) (target : ast.expr)
        (value : option ast.expr) (s : state E) (lhs : gexpr) (rhs : option gexpr)
        (e1 e2 : E) :
  assignment_parts stmt = Some (target, value) ->
  lower_expression (heap s) target (ext s) = XOk lhs e1 ->
  lower_value (heap s) value e1 = XOk rhs e2 ->
  is_reference lhs = true ->
  resolve_reference (heap s) lhs e2 = None ->
  is_in_record e2 = true ->
  is_in_function e2 = false ->
  let name := if is_declared_reference lhs then getName lhs else "DUMMY" in
  let type := match rhs with Some rhs => getType rhs | None => UnknownType end in
  let v := NObj (length (heap s)) in
  let h' := heap s ++ [FieldDeclaration name type (get_src_code (ast.OfStmt stmt))
                                        (option_map NExpr rhs)] in
  handle_assign stmt s
  = Ok v (State h' (add_declaration h' v e2)
                (end_entry "handle_assign" stmt v
                   :: LogEntry DEFAULT "Could not resolve -> creating a new field for: %s"
                               [LogStr name]
                   :: (if is_declared_reference lhs then []
                       else [LogEntry ERROR
                               ("Expected a DeclaredReferenceExpression but got a "
                                  ++ "MemberExpression. Using a dummy.") []])
                   ++ start_entry "handle_assign" stmt :: log s)
                ((v, LocOf (ast.OfStmt stmt)) :: locations s)).
Proof.
  intros Hparts Hlhs Hrhs Href Hres Hrec Hfun name type v h'.
  subst name type v h'.
  destruct s as [h e lg lc]. cbn in *.
  unfold is_reference in Href.
  assignment_cases stmt Hparts.
  all: lower_value_cases Hrhs.
  all: unfold handle_assign, handle_assign_impl; run; rewrite Hlhs; run.
  all: try (rewrite Hv; run).
  all: destruct lhs; try discriminate Href; run; rewrite Hres, Hrec, Hfun; run.
  all: reflexivity.
Qed.


End AssignmentProperties.

Section ImportProperties.
Context {E : Type} `{Frontend E}.

Lemma handle_alias_run (h : list obj) (code : string) (names : list ast.alias)
      (i : nat) (a : ast.alias) (e : E) lg lc :
  names !! i = Some a ->
  handle_alias (NObj (length h)) a (State (import_store h code names i) e lg lc)
  = Ok tt (State (import_store h code names (S i))
                 (import_registration h code names e i) lg lc).
Proof.
  intros Hi.
  assert (Hlen : length (take i names) = i).
  { rewrite length_take. apply lookup_lt_Some in Hi. lia. }
  unfold handle_alias, import_registration, import_store.
  rewrite (take_S_r _ _ _ Hi), map_app, seq_S, map_app. cbn [map].
  replace (S (length h) + i) with (length h + S i) by lia.
  assert (Hvars : length (map alias_variable (take i names)) = i)
    by now rewrite length_map.
  generalize dependent (map alias_variable (take i names)). intros vars Hvars.
  unfold alias_variable.
  destruct (ast.alias_asname a) as [y|]; cbn [fst snd].
  all: unfold DeclarationBuilderKt.newVariableDeclaration, bind.
  all: rewrite alloc_run_app; cbn [length]; rewrite Hvars.
  all: unfold scopemanager.addDeclaration, addDeclaration, set_ext.
  all: cbn [heap ext log locations app].
  all: rewrite update_run_0.
  all: reflexivity.
Qed.

Lemma import_loop (h : list obj) (code : string) (names : list ast.alias) lg lc :
  forall (k i : nat) (e : E),
    i + k = length names ->
    for_each (handle_alias (NObj (length h))) (drop i names)
             (State (import_store h code names i) e lg lc)
    = Ok tt (State (import_store h code names (length names))
                   (fold_left (import_registration h code names) (seq i k) e)
                   lg lc).
Proof.
  induction k as [|k IH]; intros i e Hik.
  - replace i with (length names) by lia. now rewrite drop_all.
  - destruct (names !! i) as [a|] eqn:Hi.
    2: { apply lookup_ge_None in Hi. lia. }
    rewrite (drop_S _ _ _ Hi). cbn [for_each seq fold_left]. unfold bind.
    erewrite handle_alias_run by exact Hi.
    apply IH. lia.
Qed.

Lemma import_loop_all (h : list obj) (code : string) (names : list ast.alias)
      (e : E) lg lc :
  for_each (handle_alias (NObj (length h))) names
           (State (h ++ [DeclarationStatement code []]) e lg lc)
  = Ok tt (State (h ++ DeclarationStatement
                         code (map NObj (seq (S (length h)) (length names)))
                     :: map alias_variable names)
                 (fold_left (import_registration h code names)
                            (seq 0 (length names)) e)
                 lg lc).
Proof.
  pose proof (@import_loop h code names lg lc (length names) 0 e eq_refl) as Hl.
  unfold import_store in Hl.
  rewrite drop_0, firstn_all, take_0 in Hl. exact Hl.
Qed.

(** C10.  An import or import-from statement: the result is a declaration
    statement; every alias yields one Variable declaration of unknown
    type, which is registered with the scope manager and added to the
    declaration statement, in the order of the aliases.  For an alias with
    an as-name [Y] the Variable is named [Y] and its code is [Y as Y]; the
    imported name is not in it. *)
Theorem handle_statement_import (stmt : ast.stmt) (names : list ast.alias)
        (s : state E) :
  import_names stmt = Some names ->
  let h := heap s in
  let code := get_src_code (ast.OfStmt stmt) in
  let variable (a : ast.alias) :=
    match ast.alias_asname a with
    | Some y => VariableDeclaration y UnknownType (y ++ " as " ++ y) None
    | None => VariableDeclaration (ast.alias_name a) UnknownType (ast.alias_name a) None
    end in
  let r := NObj (length h) in
  handle_statement stmt s
  = Ok r (State (h ++ DeclarationStatement
                        code (map NObj (seq (S (length h)) (length names)))
                    :: map variable names)
                (fold_left (import_registration h code names)
                           (seq 0 (length names)) (ext s))
                (end_entry "handle_statement" stmt r
                   :: import_log stmt ++ start_entry "handle_statement" stmt :: log s)
                ((r, LocOf (ast.OfStmt stmt)) :: locations s)).
Proof.
  intros Hnames h code variable r. subst h code variable r.
  destruct s as [h e lg lc].
  destruct stmt; try discriminate Hnames; injection Hnames as ->.
  all: rewrite handle_statement_unfold; unfold handle_statement_impl.
  all: cbn; unfold bind; cbn; unfold set_heap; cbn [heap ext log locations].
  all: rewrite import_loop_all; reflexivity.
Qed.

End ImportProperties.

Section LoopProperties.
Context {E : Type} `{Frontend E}.

(** C4, as the code has it.  A for or async-for statement whose target
    does not resolve: the iterable is lowered first, in the state that the
    statement was met in; the target is lowered in the state that the
    lowering of the iterable has left, and is resolved after that.  The
    Variable that is created has the name of the target and the type of
    the lowered iterable expression (its own type, not the type of its
    elements); it is registered with the scope manager, wrapped into a
    declaration statement, and the wrapper is the loop variable of the
    for-each statement that is returned once the body has been lowered. *)
Theorem handle_for_unresolved_target (stmt : ast.stmt) (target iter : ast.expr)
        (body orelse : list ast.stmt) (s : state E) (it tgt : gexpr) (e1 e2 : E) :
  for_parts stmt = Some (target, iter, body, orelse) ->
  let n := length (heap s) in
  let code := get_src_code (ast.OfStmt stmt) in
  lower_expression (heap s ++ [ForEachStatement code None None None]) iter (ext s)
  = XOk it e1 ->
  let h2 := heap s ++ [ForEachStatement code (Some (NExpr it)) None None] in
  lower_expression h2 target e1 = XOk tgt e2 ->
  resolve_reference h2 tgt e2 = None ->
  let variable := VariableDeclaration (getName tgt) (getType it)
                                      (get_src_code (ast.OfExpr target)) None in
  let wrapper := DeclarationStatement EmptyString [NObj (n + 1)] in
  let s3 := State (heap s ++ [ForEachStatement code (Some (NExpr it))
                                               (Some (NObj (n + 2))) None;
                              variable; wrapper])
                  (add_declaration
                     (heap s ++ [ForEachStatement code (Some (NExpr it)) None None;
                                 variable])
                     (NObj (n + 1)) e2)
                  (for_async_log stmt ++ log s) (locations s) in
  let for_stmt b := ForEachStatement code (Some (NExpr it)) (Some (NObj (n + 2)))
                                     (Some b) in
  handle_for handle_statement stmt s
  = match make_compound_statement handle_statement body s3 with
    | Ok b s4 =>
        Ok (NObj n) (State (<[n := for_stmt b]> (heap s4)) (ext s4)
                           (for_orelse_log orelse ++ log s4) (locations s4))
    | Raised x s4 => Raised x s4
    end
  /\ forall b s4,
      make_compound_statement handle_statement body s3 = Ok b s4 ->
      <[n := for_stmt b]> (heap s4) !! n = Some (for_stmt b)
      /\ <[n := for_stmt b]> (heap s4) !! (n + 1) = Some variable
      /\ <[n := for_stmt b]> (heap s4) !! (n + 2) = Some wrapper.
Proof.
  intros Hparts n code Hit h2 Htgt Hres variable wrapper s3 for_stmt.
  assert (Hframe : forall b s4,
             make_compound_statement handle_statement body s3 = Ok b s4 ->
             heap s4 !! n = Some (ForEachStatement code (Some (NExpr it))
                                                   (Some (NObj (n + 2))) None)
             /\ heap s4 !! (n + 1) = Some variable
             /\ heap s4 !! (n + 2) = Some wrapper).
  { intros b s4 Hbody.
    assert (Hpres : pres (length (heap s3)) (make_compound_statement handle_statement body) any).
    { apply pres_make_compound_statement. apply Forall_forall. intros st _.
      apply pres_handle_statement. }
    specialize (Hpres s3 (le_n _)). rewrite Hbody in Hpres. destruct Hpres as [_ Hfr].
    subst s3 n. cbn [heap] in Hfr. rewrite length_app in Hfr. cbn [length] in Hfr.
    repeat split.
    - eapply frame_lookup_below; [exact Hfr | lia | | exact I].
      now rewrite heap_lookup_0.
    - eapply frame_lookup_below; [exact Hfr | lia | | exact I].
      now rewrite heap_lookup_app.
    - eapply frame_lookup_below; [exact Hfr | lia | | exact I].
      now rewrite heap_lookup_app. }
  split.
  - subst n code h2 variable wrapper s3 for_stmt.
    destruct s as [h e lg lc]. cbn [heap ext log locations] in *.
    destruct stmt; try discriminate Hparts; injection Hparts as -> -> -> ->.
    all: unfold handle_for, for_async_log; run; rewrite Hit; run.
    all: rewrite Htgt; run; rewrite Hres; run.
    all: match goal with
         | |- context [make_compound_statement handle_statement ?bd ?s3] =>
             destruct (make_compound_statement handle_statement bd s3)
               as [b [h4 e4 lg4 lc4]|x s4] eqn:Hbody; [|reflexivity]
         end.
    all: destruct (Hframe _ _ Hbody) as (Hfor & _ & _); cbn [heap] in Hfor.
    all: run; erewrite update_run_lookup by exact Hfor; run.
    all: unfold for_orelse_log; destruct (Nat.eqb (length orelse) 0); reflexivity.
  - intros b s4 Hbody. destruct (Hframe b s4 Hbody) as (Hfor & Hvar & Hwrap).
    repeat split.
    + apply list_lookup_insert_eq. now apply lookup_lt_Some in Hfor.
    + rewrite list_lookup_insert_ne by lia. exact Hvar.
    + rewrite list_lookup_insert_ne by lia. exact Hwrap.
Qed.

End LoopProperties.

Section DeclarationProperties.
Context {E : Type} `{Frontend E}.

(** A decorator that is a call of something other than an attribute or a
    name, without arguments: the error is logged and [annotation] is not
    assigned.  When no earlier decorator has bound it, reading it raises;
    otherwise the annotation of the earlier decorator is the one whose
    members are set, and it is appended once more. *)
Lemma handle_decorator_other_shape (annotations : list node)
      (annotation : option node) (func : ast.expr) (s : state E) :
  match func with ast.Attribute _ _ | ast.Name _ => False | _ => True end ->
  handle_decorator (annotations, annotation) (ast.Call func [] []) s
  = match annotation with
    | Some a => (setMembers a [] ;; ret (annotations ++ [a], Some a))%lowering
                  (not_implemented_logged s)
    | None => Raised (UnboundLocalError "annotation") (not_implemented_logged s)
    end.
Proof.
  intros Hshape.
  destruct func; try contradiction; destruct annotation; reflexivity.
Qed.

(** A function definition, lowered with or without an enclosing record:
    the declaration is created, its frame is entered, the contents are
    lowered, the frame is left, and the declaration is registered. *)
Lemma function_declaration_run (stmt : ast.stmt) (name : string)
      (args : ast.arguments) (body : list ast.stmt) (decorator_list : list ast.expr)
      (returns : option ast.expr) (record : option node) (s : state E) :
  function_parts stmt = Some (name, args, body, decorator_list, returns) ->
  let n := length (heap s) in
  let f := NObj n in
  let declaration := FunctionDeclaration (declaration_kind record name) name
                                         (get_src_code (ast.OfStmt stmt))
                                         record None None [] in
  let s1 := State (heap s ++ [declaration])
                  (enter_scope (heap s ++ [declaration]) f (ext s))
                  (function_log stmt ++ log s) (locations s) in
  handle_function_or_method handle_statement stmt record s
  = match function_contents handle_statement f record args body
                            decorator_list returns s1 with
    | Ok _ s2 =>
        Ok f (State (heap s2)
                    (add_declaration (heap s2) f (leave_scope (heap s2) f (ext s2)))
                    (log s2) (locations s2))
    | Raised x s2 => Raised x s2
    end
  /\ forall u s2,
      function_contents handle_statement f record args body decorator_list returns s1
      = Ok u s2 ->
      exists receiver body' annotations,
        heap s2 !! n
        = Some (FunctionDeclaration (declaration_kind record name) name
                                    (get_src_code (ast.OfStmt stmt))
                                    record receiver body' annotations)
        /\ (record = None -> receiver = None).
Proof.
  intros Hparts n f declaration s1. split.
  - subst n f declaration s1. destruct s as [h e lg lc].
    unfold handle_function_or_method, declaration_kind, function_log.
    destruct stmt; try discriminate Hparts; injection Hparts as -> -> -> -> ->.
    all: destruct record as [record|]; [destruct (String.eqb name "__init__")|].
    all: run.
    all: match goal with
         | |- context [function_contents ?a ?b ?c ?d ?e ?f ?g ?s] =>
             destruct (function_contents a b c d e f g s) as [[] [h2 e2 lg2 lc2]|x s2]
         end.
    all: reflexivity.
  - intros u s2 Hcontents.
    assert (Hpres : pres n (function_contents handle_statement f record args body
                                              decorator_list returns) any).
    { apply pres_function_contents; [|cbn; lia].
      apply Forall_forall. intros st _. apply pres_handle_statement. }
    assert (Hn : n <= length (heap s1)).
    { subst s1 n. cbn. rewrite length_app. lia. }
    specialize (Hpres s1 Hn). rewrite Hcontents in Hpres. destruct Hpres as [_ Hfr].
    assert (Hf : heap s1 !! n = Some declaration).
    { subst s1 n. cbn. apply heap_lookup_0. }
    destruct (frame_lookup_function _ _ _ _ _ _ _ _ _ _ _ Hfr Hf)
      as (receiver & body' & annotations & Hlookup & Hfree).
    exists receiver, body', annotations. split; [exact Hlookup|].
    intros ->. now apply Hfree.
Qed.

(** C8.  A function definition lowered with an enclosing record becomes a
    Constructor when its name is [__init__] and a Method otherwise; lowered
    without an enclosing record it becomes a free Function.  In the three
    cases the frame of the declaration is entered before the parameters,
    the body and the decorators are lowered; when their lowering returns,
    the frame is left and only then is the declaration given to the scope
    manager and returned; when it raises, the exception goes on to the
    caller. *)
Theorem handle_function_or_method_kind_and_scope (stmt : ast.stmt) (name : string)
        (args : ast.arguments) (body : list ast.stmt) (decorator_list : list ast.expr)
        (returns : option ast.expr) (record : option node) (s : state E) :
  function_parts stmt = Some (name, args, body, decorator_list, returns) ->
  let kind := match record with
              | Some _ => if String.eqb name "__init__" then Constructor else Method
              | None => Function
              end in
  let n := length (heap s) in
  let f := NObj n in
  let code := get_src_code (ast.OfStmt stmt) in
  let declaration := FunctionDeclaration kind name code record None None [] in
  let s1 := State (heap s ++ [declaration])
                  (enter_scope (heap s ++ [declaration]) f (ext s))
                  (function_log stmt ++ log s) (locations s) in
  handle_function_or_method handle_statement stmt record s
  = match function_contents handle_statement f record args body
                            decorator_list returns s1 with
    | Ok _ s2 =>
        Ok f (State (heap s2)
                    (add_declaration (heap s2) f (leave_scope (heap s2) f (ext s2)))
                    (log s2) (locations s2))
    | Raised x s2 => Raised x s2
    end
  /\ forall u s2,
      function_contents handle_statement f record args body decorator_list returns s1
      = Ok u s2 ->
      exists receiver body' annotations,
        heap s2 !! n
        = Some (FunctionDeclaration kind name code record receiver body' annotations).
Proof.
  intros Hparts kind n f code declaration s1.
  destruct (function_declaration_run stmt name args body decorator_list returns
                                     record s Hparts) as [Hrun Hkind].
  split; [exact Hrun|].
  intros u s2 Hcontents.
  destruct (Hkind u s2 Hcontents) as (receiver & body' & annotations & Hlookup & _).
  eauto.
Qed.

(** C9.  An async function definition that is a statement of a class body.
    The method check of the class lowerer is for [ast.FunctionDef] only; the
    definition goes through [handle_statement], which lowers it without an
    enclosing record.  When that lowering returns, its result is a free
    Function declaration with no record and no receiver; it is wrapped into
    a declaration statement and the wrapper is appended to the statements
    of the record, whose methods stay as they were. *)
Theorem async_function_in_class_body (name : string) (args : ast.arguments)
        (body : list ast.stmt) (decorator_list : list ast.expr)
        (returns : option ast.expr) (c : nat) (st st1 : state E) (f : node)
        (rname rkind rcode : string) (bases : list jtype)
        (methods statements fields : list node) :
  let stmt := ast.AsyncFunctionDef name args body decorator_list returns in
  heap st !! c = Some (RecordDeclaration rname rkind rcode bases methods statements fields) ->
  handle_statement stmt st = Ok f st1 ->
  isinstance_FunctionDef stmt = false
  /\ handle_statement_impl handle_statement stmt
     = handle_function_or_method handle_statement stmt None
  /\ f = NObj (length (heap st))
  /\ (exists body' annotations,
         heap st1 !! length (heap st)
         = Some (FunctionDeclaration Function name (get_src_code (ast.OfStmt stmt))
                                     None None body' annotations))
  /\ exists fields',
      heap st1 !! c
      = Some (RecordDeclaration rname rkind rcode bases methods statements fields')
      /\ handle_class_body_stmt handle_statement (NObj c) stmt st
         = Ok tt (State (<[c := RecordDeclaration
                                  rname rkind rcode bases methods
                                  (statements ++ [NObj (length (heap st1))]) fields']>
                           (heap st1 ++ [DeclarationStatement EmptyString [f]]))
                        (ext st1) (log st1) (locations st1)).
Proof.
  intros stmt Hcls Hst. subst stmt.
  set (stmt := ast.AsyncFunctionDef name args body decorator_list returns) in *.
  split; [reflexivity|]. split; [reflexivity|].
  (* the declaration *)
  assert (Hdecl : f = NObj (length (heap st))
                  /\ exists body' annotations,
                      heap st1 !! length (heap st)
                      = Some (FunctionDeclaration
                                Function name (get_src_code (ast.OfStmt stmt))
                                None None body' annotations)).
  { pose proof Hst as Hrun. rewrite handle_statement_unfold in Hrun.
    destruct st as [h e lg lc].
    change (handle_statement_impl handle_statement stmt)
      with (handle_function_or_method handle_statement stmt None) in Hrun.
    unfold bind at 1 in Hrun. cbn [log_with_loc heap ext log locations] in Hrun.
    unfold bind at 1 in Hrun.
    match type of Hrun with
    | context [handle_function_or_method _ _ _ ?s0] =>
        destruct (function_declaration_run stmt name args body decorator_list
                                           returns None s0 eq_refl) as [Heq Hkind]
    end.
    cbn [heap ext log locations] in Heq, Hkind. rewrite Heq in Hrun.
    match type of Hrun with
    | context [function_contents ?a ?b ?c ?d ?e ?f ?g ?s] =>
        destruct (function_contents a b c d e f g s) as [u s2|x s2] eqn:Hcontents
    end; [|discriminate Hrun].
    destruct (Hkind u s2 eq_refl) as (receiver & body' & annotations & Hlookup & Hfree).
    rewrite (Hfree eq_refl) in Hlookup.
    cbn in Hrun. injection Hrun as <- <-. cbn [heap].
    split; [reflexivity|]. eauto. }
  destruct Hdecl as [-> (body' & annotations & Hf)].
  split; [reflexivity|]. split; [eauto|].
  (* the record *)
  destruct (pres_handle_statement stmt) as [Hpres _].
  specialize (Hpres (length (heap st)) st (le_n _)). rewrite Hst in Hpres.
  destruct Hpres as [_ Hfr].
  assert (Hc : c < length (heap st)) by (now apply lookup_lt_Some in Hcls).
  destruct (frame_lookup_record _ _ _ _ _ _ _ _ _ _ _ Hfr Hc Hcls) as [fields' Hcls1].
  exists fields'. split; [exact Hcls1|].
  unfold handle_class_body_stmt.
  change (isinstance_FunctionDef stmt) with false. cbv iota.
  unfold bind at 1. rewrite Hst. destruct st1 as [h1 e1 lg1 lc1].
  cbn [heap ext log locations] in *.
  unfold bind at 1. erewrite is_declaration_run_lookup by exact Hf.
  cbn [obj_is_declaration]. unfold bind at 1. unfold wrap_declaration_to_stmt.
  rewrite alloc_run. unfold addStatement.
  erewrite update_run_lookup by (apply lookup_app_l_Some; exact Hcls1).
  reflexivity.
Qed.

End DeclarationProperties.

(** * Beyond the specification's properties: assignments *)

Section FurtherAssignmentProperties.
Context {E : Type} `{Frontend E}.

Ltac assignment_forms stmt Hparts :=
  destruct stmt as
    [ | | | | | [|? [|? ?]] ? | | ? ? [?|] | | | | | | | | | | | | | | | | | | ];
  try discriminate Hparts; cbn in Hparts;
  injection Hparts as <- <-.

Ltac value_forms Hrhs :=
  cbn in Hrhs;
  try match type of Hrhs with
      | context [lower_expression ?h ?v ?e] =>
          let Hv := fresh "Hv" in
          destruct (lower_expression h v e) eqn:Hv; try discriminate Hrhs
      end;
  injection Hrhs as <- <-.

(** X1.  An assignment-like statement whose lowered left-hand side is
    neither a name reference nor a member access (a subscript, a tuple):
    both sides are lowered all the same, an error that names the Java class
    of the left-hand side is logged, and a "=" operator without operands is
    returned.  Nothing is declared and the scope manager is not asked. *)
Theorem handle_assign_other_target (stmt : ast.stmt) (target : ast.expr)
        (value : option ast.expr) (s : state E) (lhs : gexpr) (rhs : option gexpr)
        (e1 e2 : E) :
  assignment_parts stmt = Some (target, value) ->
  lower_expression (heap s) target (ext s) = XOk lhs e1 ->
  lower_value (heap s) value e1 = XOk rhs e2 ->
  is_reference lhs = false ->
  let r := NObj (length (heap s)) in
  handle_assign stmt s
  = Ok r (State (heap s ++ [BinaryOperator "=" (get_src_code (ast.OfStmt stmt)) None None])
                e2
                (end_entry "handle_assign" stmt r
                   :: LogEntry ERROR
                        ("Expected a DeclaredReferenceExpression or MemberExpression "
                           ++ "but got " ++ dq ++ "%s" ++ dq ++ ". Skipping.")
                        [LogJavaName (NExpr lhs)]
                   :: start_entry "handle_assign" stmt :: log s)
                ((r, LocOf (ast.OfStmt stmt)) :: locations s)).
Proof.
  intros Hparts Hlhs Hrhs Href r. subst r.
  destruct s as [h e lg lc]. cbn in *.
  unfold is_reference in Href.
  assignment_forms stmt Hparts.
  all: value_forms Hrhs.
  all: unfold handle_assign, handle_assign_impl; run; rewrite Hlhs; run.
  all: try (rewrite Hv; run).
  all: destruct lhs; try discriminate Href; run.
  all: reflexivity.
Qed.

(** X2.  An assignment-like statement whose left-hand side does not
    resolve, outside of every class body, or for a plain name inside a
    function of a class body: the result is a new Variable declaration named
    by the left-hand side, typed from the right-hand side when there is one
    and unknown otherwise, with the right-hand side as its initializer, and
    it is registered with the scope manager.  Outside of a class body this
    is also what a member access [a.b = ...] gives: a Variable named [b]. *)
Theorem handle_assign_new_variable (stmt : ast.stmt) (target : ast.expr)
        (value : option ast.expr) (s : state E) (lhs : gexpr) (rhs : option gexpr)
        (e1 e2 : E) :
  assignment_parts stmt = Some (target, value) ->
  lower_expression (heap s) target (ext s) = XOk lhs e1 ->
  lower_value (heap s) value e1 = XOk rhs e2 ->
  is_reference lhs = true ->
  resolve_reference (heap s) lhs e2 = None ->
  negb (is_in_record e2) || (is_in_function e2 && is_declared_reference lhs) = true ->
  let v := NObj (length (heap s)) in
  let h' := heap s ++ [VariableDeclaration (getName lhs) (type_of_value rhs)
                                           (get_src_code (ast.OfStmt stmt))
                                           (option_map NExpr rhs)] in
  handle_assign stmt s
  = Ok v (State h' (add_declaration h' v e2)
                (end_entry "handle_assign" stmt v
                   :: LogEntry DEFAULT
                        "Could not resolve -> creating a new variable for: %s"
                        [LogStr (getName lhs)]
                   :: start_entry "handle_assign" stmt :: log s)
                ((v, LocOf (ast.OfStmt stmt)) :: locations s)).
Proof.
  intros Hparts Hlhs Hrhs Href Hres Hwhere v h'. subst v h'.
  destruct s as [h e lg lc]. cbn [heap ext log locations] in *.
  unfold is_reference in Href.
  assignment_forms stmt Hparts.
  all: value_forms Hrhs.
  all: unfold handle_assign, handle_assign_impl; run; rewrite Hlhs; run.
  all: try (rewrite Hv; run).
  all: destruct lhs; try discriminate Href; run; rewrite Hres; run.
  all: match goal with
       | |- context [is_in_record ?x] =>
           destruct (is_in_record x) eqn:Hr; destruct (is_in_function x) eqn:Hfn
       end.
  all: cbn in Hwhere; try discriminate Hwhere.
  all: unfold assign_new_variable, type_of_value; run.
  all: reflexivity.
Qed.

(** X3.  An assignment-like statement inside a method whose left-hand side
    is a member access that does not resolve and whose base is a name
    reference with the name of the receiver ([self.y = ...]): the result is
    a new Field declaration named by the member, typed from the right-hand
    side, with the right-hand side as its value (a name on the right-hand
    side is first made to refer to what it resolves to).  The field is
    registered with the scope manager and appended to the fields of the
    current record. *)
Theorem handle_assign_field_of_receiver (stmt : ast.stmt) (target : ast.expr)
        (value : option ast.expr) (s : state E) (rhs : option gexpr) (e1 e2 : E)
        (base : gexpr) (name : string) (type : jtype) (code : string)
        (f recv rc : nat) (kind : function_kind) (fname fcode : string)
        (frecord fbody : option node) (fannotations : list node) (recv_obj : obj)
        (rname rkind rcode : string) (bases : list jtype)
        (methods statements fields : list node) :
  let lhs := MemberExpression base name type code in
  assignment_parts stmt = Some (target, value) ->
  lower_expression (heap s) target (ext s) = XOk lhs e1 ->
  lower_value (heap s) value e1 = XOk rhs e2 ->
  resolve_reference (heap s) lhs e2 = None ->
  is_in_record e2 = true ->
  is_in_function e2 = true ->
  current_function e2 = Some (NObj f) ->
  heap s !! f = Some (FunctionDeclaration kind fname fcode frecord
                                          (Some (NObj recv)) fbody fannotations) ->
  kind <> Function ->
  heap s !! recv = Some recv_obj ->
  is_declared_reference base && String.eqb (getName base) (obj_name recv_obj) = true ->
  let rhs' := option_map (with_resolved_reference (heap s) e2) rhs in
  let v := NObj (length (heap s)) in
  let field := FieldDeclaration name (type_of_value rhs)
                                (get_src_code (ast.OfStmt stmt))
                                (option_map NExpr rhs') in
  let e3 := add_declaration (heap s ++ [field]) v e2 in
  current_record e3 = Some (NObj rc) ->
  heap s !! rc = Some (RecordDeclaration rname rkind rcode bases methods
                                         statements fields) ->
  handle_assign stmt s
  = Ok v (State (<[rc := RecordDeclaration rname rkind rcode bases methods statements
                                            (fields ++ [v])]>
                   (heap s ++ [field]))
                e3
                (end_entry "handle_assign" stmt v
                   :: LogEntry DEFAULT "Probably a new field for: %s" [LogStr name]
                   :: start_entry "handle_assign" stmt :: log s)
                ((v, LocOf (ast.OfStmt stmt)) :: locations s)).
Proof.
  intros lhs Hparts Hlhs Hrhs Hres Hrec Hfun Hcur Hf Hkind Hrecv Hbase rhs' v field e3
         Hrecord Hrc.
  subst lhs rhs' v field e3.
  destruct s as [h e lg lc]. cbn [heap ext log locations] in *.
  assert (Hrc' : forall o : obj, (h ++ [o]) !! rc = Some (RecordDeclaration
                   rname rkind rcode bases methods statements fields))
    by (intros o; now apply lookup_app_l_Some).
  assignment_forms stmt Hparts.
  all: value_forms Hrhs.
  all: unfold handle_assign, handle_assign_impl; run; rewrite Hlhs; run.
  all: try (rewrite Hv; run).
  all: rewrite Hres, Hrec, Hfun; run.
  all: unfold assign_member_in_method; run; rewrite Hcur; run.
  all: erewrite call_run by exact Hf; destruct kind; try contradiction; run.
  all: erewrite call_run by exact Hrecv; run.
  all: destruct (is_declared_reference base); cbn in Hbase; try discriminate Hbase.
  all: rewrite Hbase; run.
  all: try match goal with
           | |- context [is_declared_reference ?a] =>
               destruct a; run
           end.
  all: unfold type_of_value, with_resolved_reference in *; cbn in Hrecord |- *.
  all: rewrite Hrecord; run.
  all: erewrite update_run_lookup by apply Hrc'; run.
  all: reflexivity.
Qed.

End FurtherAssignmentProperties.

(** * Beyond the specification's properties: loops and blocks *)

Section FurtherLoopProperties.
Context {E : Type} `{Frontend E}.

(** X4.  A for or async-for statement whose target resolves: no Variable is
    created and nothing is registered; the lowered target expression itself
    is the loop variable of the for-each statement that is returned once the
    body has been lowered. *)
Theorem handle_for_resolved_target (stmt : ast.stmt) (target iter : ast.expr)
        (body orelse : list ast.stmt) (s : state E) (it tgt : gexpr) (e1 e2 : E)
        (d : nat) :
  for_parts stmt = Some (target, iter, body, orelse) ->
  let n := length (heap s) in
  let code := get_src_code (ast.OfStmt stmt) in
  lower_expression (heap s ++ [ForEachStatement code None None None]) iter (ext s)
  = XOk it e1 ->
  let h2 := heap s ++ [ForEachStatement code (Some (NExpr it)) None None] in
  lower_expression h2 target e1 = XOk tgt e2 ->
  resolve_reference h2 tgt e2 = Some d ->
  let s3 := State (heap s ++ [ForEachStatement code (Some (NExpr it))
                                               (Some (NExpr tgt)) None])
                  e2 (for_async_log stmt ++ log s) (locations s) in
  let for_stmt b := ForEachStatement code (Some (NExpr it)) (Some (NExpr tgt))
                                     (Some b) in
  handle_for handle_statement stmt s
  = match make_compound_statement handle_statement body s3 with
    | Ok b s4 =>
        Ok (NObj n) (State (<[n := for_stmt b]> (heap s4)) (ext s4)
                           (for_orelse_log orelse ++ log s4) (locations s4))
    | Raised x s4 => Raised x s4
    end
  /\ forall b s4,
      make_compound_statement handle_statement body s3 = Ok b s4 ->
      <[n := for_stmt b]> (heap s4) !! n = Some (for_stmt b).
Proof.
  intros Hparts n code Hit h2 Htgt Hres s3 for_stmt.
  assert (Hframe : forall b s4,
             make_compound_statement handle_statement body s3 = Ok b s4 ->
             heap s4 !! n = Some (ForEachStatement code (Some (NExpr it))
                                                   (Some (NExpr tgt)) None)).
  { intros b s4 Hbody.
    assert (Hpres : pres (length (heap s3))
                         (make_compound_statement handle_statement body) any).
    { apply pres_make_compound_statement. apply Forall_forall. intros st _.
      apply pres_handle_statement. }
    specialize (Hpres s3 (le_n _)). rewrite Hbody in Hpres. destruct Hpres as [_ Hfr].
    subst s3 n. cbn [heap] in Hfr. rewrite length_app in Hfr. cbn [length] in Hfr.
    eapply frame_lookup_below; [exact Hfr | lia | | exact I].
    now rewrite heap_lookup_0. }
  split.
  - subst n code h2 s3 for_stmt.
    destruct s as [h e lg lc]. cbn [heap ext log locations] in *.
    destruct stmt; try discriminate Hparts; injection Hparts as -> -> -> ->.
    all: unfold handle_for, for_async_log; run; rewrite Hit; run.
    all: rewrite Htgt; run; rewrite Hres; run.
    all: match goal with
         | |- context [make_compound_statement handle_statement ?bd ?s3] =>
             destruct (make_compound_statement handle_statement bd s3)
               as [b [h4 e4 lg4 lc4]|x s4] eqn:Hbody; [|reflexivity]
         end.
    all: pose proof (Hframe _ _ Hbody) as Hfor; cbn [heap] in Hfor.
    all: run; erewrite update_run_lookup by exact Hfor; run.
    all: unfold for_orelse_log; destruct (Nat.eqb (length orelse) 0); reflexivity.
  - intros b s4 Hbody. pose proof (Hframe b s4 Hbody) as Hfor.
    apply list_lookup_insert_eq. now apply lookup_lt_Some in Hfor.
Qed.

End FurtherLoopProperties.
(** * Beyond the specification's properties: statements *)

Section FurtherStatementProperties.
Context {E : Type} `{Frontend E}.


(** X6.  A statement of a kind that is not implemented (delete, with,
    async with, raise, assert, global, nonlocal, continue, match): the
    lowering logs the error and returns one new empty statement.  Nothing
    inside the statement is lowered: no expression is given to the
    expression lowerer and the body of a with statement is dropped; the
    state of the collaborators is as before. *)
Theorem handle_statement_unimplemented (stmt : ast.stmt) (s : state E) :
  is_unimplemented stmt = true ->
  let r := NObj (length (heap s)) in
  handle_statement stmt s
  = Ok r (State (heap s ++ [Statement EmptyString]) (ext s)
                (end_entry "handle_statement" stmt r
                   :: unimplemented_log stmt
                   ++ start_entry "handle_statement" stmt :: log s)
                ((r, LocOf (ast.OfStmt stmt)) :: locations s)).
Proof.
  intros Hkind r. subst r. destruct s as [h e lg lc].
  rewrite handle_statement_unfold.
  destruct stmt; try discriminate Hkind; reflexivity.
Qed.

(** X7.  An expression statement: the result is the lowered expression
    itself.  No statement is created for it and the store is as before; the
    location of the statement is recorded on the expression.  When the
    expression lowerer raises, the exception goes on to the caller and the
    trace of the statement has no end entry. *)
Theorem handle_statement_expression (value : ast.expr) (s : state E) :
  let stmt := ast.Expr value in
  handle_statement stmt s
  = match lower_expression (heap s) value (ext s) with
    | XOk g e1 =>
        Ok (NExpr g)
           (State (heap s) e1
                  (end_entry "handle_statement" stmt (NExpr g)
                     :: start_entry "handle_statement" stmt :: log s)
                  ((NExpr g, LocOf (ast.OfStmt stmt)) :: locations s))
    | XRaise x e1 =>
        Raised x (State (heap s) e1
                        (start_entry "handle_statement" stmt :: log s)
                        (locations s))
    end.
Proof.
  intros stmt. subst stmt. destruct s as [h e lg lc].
  rewrite handle_statement_unfold. unfold handle_statement_impl. run.
  destruct (lower_expression h value e); reflexivity.
Qed.

(** X8.  A return statement: the return statement is created first, so
    the expression lowerer sees it in the store when it lowers the value;
    the lowered value becomes the return value.  A bare [return] has no
    return value, and the expression lowerer is not called. *)
Theorem handle_statement_return (value : option ast.expr) (s : state E)
        (v : option gexpr) (e1 : E) :
  let stmt := ast.Return value in
  let code := get_src_code (ast.OfStmt stmt) in
  let r := NObj (length (heap s)) in
  lower_value (heap s ++ [ReturnStatement code None]) value (ext s) = XOk v e1 ->
  handle_statement stmt s
  = Ok r (State (heap s ++ [ReturnStatement code (option_map NExpr v)]) e1
                (end_entry "handle_statement" stmt r
                   :: start_entry "handle_statement" stmt :: log s)
                ((r, LocOf (ast.OfStmt stmt)) :: locations s)).
Proof.
  intros stmt code r Hvalue. subst stmt code r. destruct s as [h e lg lc].
  cbn [heap ext] in *. rewrite handle_statement_unfold. unfold handle_statement_impl.
  destruct value as [value|]; cbn in Hvalue.
  - destruct (lower_expression _ value e) as [g e'|x e'] eqn:Hlower;
      [|discriminate Hvalue].
    injection Hvalue as <- <-. run. rewrite Hlower. run. reflexivity.
  - injection Hvalue as <- <-. reflexivity.
Qed.

End FurtherStatementProperties.
(** * Beyond the specification's properties: blocks *)

Section BlockProperties.
Context {E : Type} `{Frontend E}.

Lemma is_declaration_reads (x : node) (s : state E) :
  exists d, is_declaration x s = Ok d s.
Proof.
  unfold is_declaration. destruct x as [l|g]; [|eauto].
  destruct (heap s !! l); eauto.
Qed.

(** A run of [handle_statement] leaves an object that is not a record as
    it was. *)
Lemma handle_statement_lookup (st : ast.stmt) (s s1 : state E) (r : node)
      (l : nat) (o : obj) :
  handle_statement st s = Ok r s1 ->
  heap s !! l = Some o ->
  match o with RecordDeclaration _ _ _ _ _ _ _ => False | _ => True end ->
  heap s1 !! l = Some o.
Proof.
  intros Hrun Hl Ho.
  destruct (pres_handle_statement st) as [Hpres _].
  specialize (Hpres (length (heap s)) s (le_n _)). rewrite Hrun in Hpres.
  destruct Hpres as [_ Hfr].
  eapply frame_lookup_below; [exact Hfr | | exact Hl | exact Ho].
  now apply lookup_lt_Some in Hl.
Qed.

(** One turn of the loop of [make_compound_statement] (lines 479-483):
    the statement adds one child to the compound statement. *)
Lemma block_step (n : nat) (code : string) (st : ast.stmt) (s s' : state E)
      (cs : list node) :
  heap s !! n = Some (CompoundStatement code cs) ->
  (s <- handle_statement st ;;
   d <- is_declaration s ;;
   s <- (if d then wrap_declaration_to_stmt s else ret s) ;;
   addStatement (NObj n) s)%lowering s = Ok tt s' ->
  exists x, heap s' !! n = Some (CompoundStatement code (cs ++ [x])).
Proof.
  intros Hn Hrun. unfold bind at 1 in Hrun.
  destruct (handle_statement st s) as [r s1|x s1] eqn:Hst; [|discriminate Hrun].
  pose proof (handle_statement_lookup _ _ _ _ _ _ Hst Hn I) as Hn1.
  destruct (is_declaration_reads r s1) as [d Hd].
  unfold bind at 1 in Hrun. rewrite Hd in Hrun.
  destruct s1 as [h1 e1 lg1 lc1]. cbn [heap] in Hn1.
  pose proof (lookup_lt_Some _ _ _ Hn1) as Hlt.
  unfold bind in Hrun. destruct d.
  - unfold wrap_declaration_to_stmt in Hrun. rewrite alloc_run in Hrun.
    unfold addStatement in Hrun.
    erewrite update_run_lookup in Hrun by (apply lookup_app_l_Some; exact Hn1).
    injection Hrun as <-. eexists. cbn [heap].
    apply list_lookup_insert_eq. rewrite length_app. lia.
  - cbn [ret] in Hrun. unfold addStatement in Hrun.
    erewrite update_run_lookup in Hrun by exact Hn1.
    injection Hrun as <-. eexists. cbn [heap].
    now apply list_lookup_insert_eq.
Qed.

Lemma block_loop (n : nat) (code : string) (stmts : list ast.stmt) :
  forall (s s' : state E) (cs : list node),
    heap s !! n = Some (CompoundStatement code cs) ->
    for_each (fun st =>
                s <- handle_statement st ;;
                d <- is_declaration s ;;
                s <- (if d then wrap_declaration_to_stmt s else ret s) ;;
                addStatement (NObj n) s)%lowering stmts s = Ok tt s' ->
    exists cs', heap s' !! n = Some (CompoundStatement code (cs ++ cs'))
                /\ length cs' = length stmts.
Proof.
  induction stmts as [|st stmts IH]; intros s s' cs Hn Hrun.
  - cbn in Hrun. injection Hrun as <-. exists []. now rewrite app_nil_r.
  - cbn [for_each] in Hrun. unfold bind at 1 in Hrun.
    match type of Hrun with
    | match ?m s with _ => _ end = _ =>
        destruct (m s) as [[] s1|x s1] eqn:Hstep; [|discriminate Hrun]
    end.
    destruct (block_step _ _ _ _ _ _ Hn Hstep) as [x Hn1].
    destruct (IH _ _ _ Hn1 Hrun) as (cs' & Hfinal & Hlen).
    exists (x :: cs'). rewrite <- app_assoc in Hfinal.
    split; [exact Hfinal|]. cbn. auto.
Qed.

(** What [make_compound_statement] returns. *)
Lemma make_compound_statement_result (stmts : list ast.stmt) (s s' : state E)
      (b : node) :
  make_compound_statement handle_statement stmts s = Ok b s' ->
  b = NObj (length (heap s))
  /\ (exists cs, heap s' !! length (heap s) = Some (CompoundStatement EmptyString cs)
                 /\ length cs = length stmts)
  /\ match stmts !! 0, last stmts with
     | Some s0, Some s1 =>
         exists lc, locations s'
                    = (b, LocSpan (ast.OfStmt s0) (ast.OfStmt s1)) :: lc
     | _, _ => locations s' = locations s
     end.
Proof.
  intros Hrun. unfold make_compound_statement in Hrun.
  destruct stmts as [|st stmts].
  - destruct s as [h e lg lc]. cbn in Hrun. injection Hrun as <- <-.
    split; [reflexivity|]. split; [|reflexivity].
    exists []. split; [|reflexivity]. cbn [heap]. apply heap_lookup_0.
  - change (Nat.eqb (length (st :: stmts)) 0) with false in Hrun.
    cbn [andb] in Hrun. cbv iota in Hrun.
    change (Nat.ltb 0 (length (st :: stmts))) with true in Hrun. cbv iota in Hrun.
    destruct (last_is_Some (st :: stmts)) as [_ Hlast'].
    destruct Hlast' as [s1 Hlast]; [discriminate|]. rewrite Hlast in Hrun.
    cbn [lookup list_lookup] in Hrun |- *. rewrite Hlast.
    destruct s as [h e lg lc]. unfold bind at 1 in Hrun.
    unfold StatementBuilderKt.newCompoundStatement in Hrun.
    rewrite alloc_run in Hrun. unfold bind at 1 in Hrun.
    match type of Hrun with
    | match ?m ?s0 with _ => _ end = _ =>
        destruct (m s0) as [[] s2|x s2] eqn:Hloop; [|discriminate Hrun]
    end.
    cbn [heap] in *.
    assert (Hblock : heap (State (h ++ [CompoundStatement EmptyString []]) e lg lc)
                     !! length h = Some (CompoundStatement EmptyString []))
      by apply heap_lookup_0.
    destruct (block_loop (length h) EmptyString (st :: stmts) _ _ [] Hblock Hloop)
      as (cs & Hcs & Hlen).
    cbn in Hrun. injection Hrun as <- <-. cbn [heap locations].
    split; [reflexivity|]. split; eauto.
Qed.

(** A run of [make_compound_statement] leaves an object that is not a
    record as it was. *)
Lemma make_compound_statement_lookup (stmts : list ast.stmt) (s s1 : state E)
      (b : node) (l : nat) (o : obj) :
  make_compound_statement handle_statement stmts s = Ok b s1 ->
  heap s !! l = Some o ->
  match o with RecordDeclaration _ _ _ _ _ _ _ => False | _ => True end ->
  heap s1 !! l = Some o.
Proof.
  intros Hrun Hl Ho.
  assert (Hpres : pres (length (heap s))
                       (make_compound_statement handle_statement stmts) any).
  { apply pres_make_compound_statement. apply Forall_forall. intros st _.
    apply pres_handle_statement. }
  specialize (Hpres s (le_n _)). rewrite Hrun in Hpres. destruct Hpres as [_ Hfr].
  eapply frame_lookup_below; [exact Hfr | | exact Hl | exact Ho].
  now apply lookup_lt_Some in Hl.
Qed.

Lemma is_declaration_run (r : node) (s : state E) :
  is_declaration r s = Ok (declared_in (heap s) r) s.
Proof.
  unfold is_declaration, declared_in. destruct r as [l|g]; [|reflexivity].
  destruct (heap s !! l); reflexivity.
Qed.

(** One turn of the loop of [make_compound_statement], in full. *)
Lemma block_turn (n : nat) (code : string) (st : ast.stmt) (s s' : state E)
      (cs : list node) :
  heap s !! n = Some (CompoundStatement code cs) ->
  (s <- handle_statement st ;;
   d <- is_declaration s ;;
   s <- (if d then wrap_declaration_to_stmt s else ret s) ;;
   addStatement (NObj n) s)%lowering s = Ok tt s' ->
  exists r s1 c s2,
    handle_statement st s = Ok r s1
    /\ statement_form r s1 = (c, s2)
    /\ heap s2 !! n = Some (CompoundStatement code cs)
    /\ s' = set_heap s2 (<[n := CompoundStatement code (cs ++ [c])]> (heap s2)).
Proof.
  intros Hn Hrun. unfold bind at 1 in Hrun.
  destruct (handle_statement st s) as [r s1|x s1] eqn:Hst; [|discriminate Hrun].
  pose proof (handle_statement_lookup _ _ _ _ _ _ Hst Hn I) as Hn1.
  unfold bind at 1 in Hrun. rewrite is_declaration_run in Hrun.
  exists r, s1. unfold statement_form.
  destruct s1 as [h1 e1 lg1 lc1]. cbn [heap] in *.
  unfold bind in Hrun. destruct (declared_in h1 r).
  - unfold wrap_declaration_to_stmt in Hrun. rewrite alloc_run in Hrun.
    unfold addStatement in Hrun.
    erewrite update_run_lookup in Hrun by (apply lookup_app_l_Some; exact Hn1).
    injection Hrun as <-. eexists _, _. split; [reflexivity|].
    split; [reflexivity|]. split; [|reflexivity].
    cbn. now apply lookup_app_l_Some.
  - cbn [ret] in Hrun. unfold addStatement in Hrun.
    erewrite update_run_lookup in Hrun by exact Hn1.
    injection Hrun as <-. eexists _, _. split; [reflexivity|].
    split; [reflexivity|]. split; [exact Hn1 | reflexivity].
Qed.

Lemma block_turns (n : nat) (code : string) (stmts : list ast.stmt) :
  forall (s s' : state E) (cs : list node),
    heap s !! n = Some (CompoundStatement code cs) ->
    for_each (fun st =>
                s <- handle_statement st ;;
                d <- is_declaration s ;;
                s <- (if d then wrap_declaration_to_stmt s else ret s) ;;
                addStatement (NObj n) s)%lowering stmts s = Ok tt s' ->
    exists cs', lowered_into n stmts s cs' s'
                /\ heap s' !! n = Some (CompoundStatement code (cs ++ cs'))
                /\ length cs' = length stmts.
Proof.
  induction stmts as [|st stmts IH]; intros s s' cs Hn Hrun.
  - cbn in Hrun. injection Hrun as <-. exists []. rewrite app_nil_r.
    split; [constructor | auto].
  - cbn [for_each] in Hrun. unfold bind at 1 in Hrun.
    match type of Hrun with
    | match ?m s with _ => _ end = _ =>
        destruct (m s) as [[] s3|x s3] eqn:Hstep; [|discriminate Hrun]
    end.
    destruct (block_turn _ _ _ _ _ _ Hn Hstep) as (r & s1 & c & s2 & Hst & Hform & Hn2 & ->).
    assert (Hn3 : heap (set_heap s2 (<[n := CompoundStatement code (cs ++ [c])]> (heap s2)))
                  !! n = Some (CompoundStatement code (cs ++ [c]))).
    { cbn. apply list_lookup_insert_eq. now apply lookup_lt_Some in Hn2. }
    destruct (IH _ _ _ Hn3 Hrun) as (cs' & Hchain & Hfinal & Hlen).
    exists (c :: cs'). rewrite <- app_assoc in Hfinal.
    split; [|split; [exact Hfinal | cbn; auto]].
    econstructor; [exact Hst | exact Hform | exact Hn2 | exact Hchain].
Qed.

(** X9.  A block that is lowered: the result is a new compound statement,
    the first object that the call creates.  The statements of the block
    are lowered one after the other by [handle_statement], each from the
    state that the one before it has left, and when the call returns the
    children of the compound statement are exactly the statement forms of
    their results, in the order of the statements: the lowered node
    itself, or, when it is a declaration, a new declaration statement that
    holds it.  A block of one statement is no exception: the shortcut for
    it is switched off in the code.  An empty block logs a warning and
    records no location; another block records the span from its first to
    its last statement. *)
Theorem make_compound_statement_children (stmts : list ast.stmt) (s s' : state E)
        (b : node) :
  make_compound_statement handle_statement stmts s = Ok b s' ->
  let n := length (heap s) in
  b = NObj n
  /\ exists (cs : list node) (s1 : state E),
      lowered_into n stmts
                   (State (heap s ++ [CompoundStatement EmptyString []]) (ext s)
                          (block_log stmts ++ log s) (locations s))
                   cs s1
      /\ heap s1 !! n = Some (CompoundStatement EmptyString cs)
      /\ length cs = length stmts
      /\ s' = State (heap s1) (ext s1) (log s1)
                    (block_location b stmts ++ locations s1).
Proof.
  intros Hrun n. subst n. unfold make_compound_statement in Hrun.
  destruct stmts as [|st stmts].
  - destruct s as [h e lg lc]. cbn in Hrun. injection Hrun as <- <-.
    split; [reflexivity|]. eexists [], _. split; [constructor|].
    cbn [heap]. split; [apply heap_lookup_0|]. split; reflexivity.
  - change (Nat.eqb (length (st :: stmts)) 0) with false in Hrun.
    cbn [andb] in Hrun. cbv iota in Hrun.
    change (Nat.ltb 0 (length (st :: stmts))) with true in Hrun. cbv iota in Hrun.
    unfold block_location.
    destruct (last_is_Some (st :: stmts)) as [_ Hlast'].
    destruct Hlast' as [sl Hlast]; [discriminate|]. rewrite Hlast in Hrun.
    cbn [lookup list_lookup] in Hrun |- *. rewrite Hlast.
    destruct s as [h e lg lc]. unfold bind at 1 in Hrun.
    unfold StatementBuilderKt.newCompoundStatement in Hrun.
    rewrite alloc_run in Hrun. unfold bind at 1 in Hrun.
    match type of Hrun with
    | match ?m ?s0 with _ => _ end = _ =>
        destruct (m s0) as [[] s2|x s2] eqn:Hloop; [|discriminate Hrun]
    end.
    cbn [heap ext log locations block_log app] in *.
    assert (Hblock : heap (State (h ++ [CompoundStatement EmptyString []]) e lg lc)
                     !! length h = Some (CompoundStatement EmptyString []))
      by apply heap_lookup_0.
    destruct (block_turns (length h) EmptyString (st :: stmts) _ _ [] Hblock Hloop)
      as (cs & Hchain & Hcs & Hlen).
    cbn in Hrun. injection Hrun as <- <-.
    split; [reflexivity|]. exists cs, s2. auto.
Qed.

(** X10.  A try statement.  The try statement is created first; its try
    block is what [make_compound_statement] returns for the body, its
    finally block what [make_compound_statement] then returns for
    [finalbody] (for a try statement without [finally]: an empty block).
    The handlers and the [else] part are not lowered: all that they add to
    the final state is one error each in the log.  When the lowering of one
    of the two blocks raises, the exception goes on to the caller.  The try
    block is the object that follows the try statement; it is as it was
    after the lowering of [finalbody], and the try statement is still at
    its location when the blocks are set. *)
Theorem handle_statement_try (body : list ast.stmt)
        (handlers : list ast.excepthandler) (orelse finalbody : list ast.stmt)
        (s : state E) :
  let stmt := ast.Try body handlers orelse finalbody in
  let n := length (heap s) in
  let r := NObj n in
  let code := get_src_code (ast.OfStmt stmt) in
  let s1 := State (heap s ++ [TryStatement code None None]) (ext s)
                  (start_entry "handle_statement" stmt :: log s) (locations s) in
  handle_statement stmt s
  = match make_compound_statement handle_statement body s1 with
    | Ok tb s2 =>
        match make_compound_statement handle_statement finalbody s2 with
        | Ok fb s3 =>
            Ok r (State (<[n := TryStatement code (Some tb) (Some fb)]> (heap s3))
                        (ext s3)
                        (end_entry "handle_statement" stmt r
                           :: try_log handlers orelse ++ log s3)
                        ((r, LocOf (ast.OfStmt stmt)) :: locations s3))
        | Raised x s3 => Raised x s3
        end
    | Raised x s2 => Raised x s2
    end
  /\ forall tb s2 fb s3,
      make_compound_statement handle_statement body s1 = Ok tb s2 ->
      make_compound_statement handle_statement finalbody s2 = Ok fb s3 ->
      tb = NObj (S n) /\ fb = NObj (length (heap s2))
      /\ heap s3 !! n = Some (TryStatement code None None)
      /\ heap s3 !! S n = heap s2 !! S n.
Proof.
  intros stmt n r code s1.
  assert (Hframe : forall tb s2 fb s3,
             make_compound_statement handle_statement body s1 = Ok tb s2 ->
             make_compound_statement handle_statement finalbody s2 = Ok fb s3 ->
             tb = NObj (S n) /\ fb = NObj (length (heap s2))
             /\ heap s3 !! n = Some (TryStatement code None None)
             /\ heap s3 !! S n = heap s2 !! S n).
  { intros tb s2 fb s3 Hbody Hfinal.
    destruct (make_compound_statement_result _ _ _ _ Hbody)
      as (-> & (cs & Hcs & _) & _).
    destruct (make_compound_statement_result _ _ _ _ Hfinal) as (-> & _).
    pose proof (make_compound_statement_lookup _ _ _ _ _ _ Hfinal Hcs I) as Hcs'.
    subst s1 n. cbn [heap] in *. rewrite length_app, Nat.add_1_r in *.
    split; [reflexivity|]. split; [reflexivity|].
    split; [|now rewrite Hcs, Hcs'].
    eapply make_compound_statement_lookup; [exact Hfinal | | exact I].
    eapply make_compound_statement_lookup; [exact Hbody | | exact I].
    apply heap_lookup_0. }
  split; [|exact Hframe].
  subst stmt n r code s1. rewrite handle_statement_unfold.
  destruct s as [h e lg lc]. cbn [heap ext log locations] in *.
  unfold handle_statement_impl, try_log, start_entry, end_entry in *. run.
  match goal with
  | |- context [make_compound_statement handle_statement body ?s1] =>
      destruct (make_compound_statement handle_statement body s1)
        as [tb s2|x s2] eqn:Hbody; [|reflexivity]
  end.
  run.
  destruct (make_compound_statement handle_statement finalbody s2)
    as [fb [h3 e3 lg3 lc3]|x s3] eqn:Hfinal; [|reflexivity].
  destruct (Hframe _ _ _ _ eq_refl Hfinal) as (_ & _ & Htry & _). cbn [heap] in Htry.
  run.
  destruct (negb (Nat.eqb (length orelse) 0)), (negb (Nat.eqb (length handlers) 0)).
  all: run.
  all: erewrite update_run_lookup by exact Htry; run.
  all: erewrite update_run_lookup
    by (apply list_lookup_insert_eq; now apply lookup_lt_Some in Htry).
  all: run; rewrite list_insert_insert_eq; reflexivity.
Qed.

End BlockProperties.
(** * Beyond the specification's properties: branches and loops *)

Section BranchProperties.
Context {E : Type} `{Frontend E}.

(** X11.  An if statement whose test is lowered.  The if statement is
    created first, then the test is lowered (the lowerer sees the new
    statement) and becomes its condition.  The then branch is what
    [make_compound_statement] returns for the body; it is the object that
    follows the if statement.  Without an [else] part nothing more is
    lowered and the statement has no else branch; with one, the else branch
    is what [make_compound_statement] returns for the [else] part, lowered
    after the then branch has been set (an [elif] is the one statement of
    such an [else] part); the then branch is as it was after the lowering
    of the [else] part.  When the lowering of a branch raises, the
    exception goes on to the caller. *)
Theorem handle_statement_if (test : ast.expr) (body orelse : list ast.stmt)
        (s : state E) (c : gexpr) (e1 : E) :
  let stmt := ast.If test body orelse in
  let n := length (heap s) in
  let r := NObj n in
  let code := get_src_code (ast.OfStmt stmt) in
  lower_expression (heap s ++ [IfStatement code None None None]) test (ext s)
  = XOk c e1 ->
  let s2 := State (heap s ++ [IfStatement code (Some (NExpr c)) None None]) e1
                  (start_entry "handle_statement" stmt :: log s) (locations s) in
  let if_stmt tb els := IfStatement code (Some (NExpr c)) (Some tb) els in
  let done tb els (s4 : state E) :=
    Ok r (State (<[n := if_stmt tb els]> (heap s4)) (ext s4)
                (end_entry "handle_statement" stmt r :: log s4)
                ((r, LocOf (ast.OfStmt stmt)) :: locations s4)) in
  let then_set tb (s3 : state E) :=
    State (<[n := if_stmt tb None]> (heap s3)) (ext s3) (log s3) (locations s3) in
  handle_statement stmt s
  = match make_compound_statement handle_statement body s2 with
    | Ok tb s3 =>
        match orelse with
        | [] => done tb None (then_set tb s3)
        | _ :: _ =>
            match make_compound_statement handle_statement orelse (then_set tb s3) with
            | Ok eb s4 => done tb (Some eb) s4
            | Raised x s4 => Raised x s4
            end
        end
    | Raised x s3 => Raised x s3
    end
  /\ forall tb s3,
      make_compound_statement handle_statement body s2 = Ok tb s3 ->
      tb = NObj (S n)
      /\ heap s3 !! n = Some (IfStatement code (Some (NExpr c)) None None)
      /\ forall eb s4,
          make_compound_statement handle_statement orelse (then_set tb s3) = Ok eb s4 ->
          eb = NObj (length (heap s3)) /\ heap s4 !! n = Some (if_stmt tb None)
          /\ heap s4 !! S n = heap s3 !! S n.
Proof.
  intros stmt n r code Hc s2 if_stmt done then_set.
  assert (Hframe : forall tb s3,
             make_compound_statement handle_statement body s2 = Ok tb s3 ->
             tb = NObj (S n)
             /\ heap s3 !! n = Some (IfStatement code (Some (NExpr c)) None None)
             /\ forall eb s4,
                 make_compound_statement handle_statement orelse (then_set tb s3)
                 = Ok eb s4 ->
                 eb = NObj (length (heap s3)) /\ heap s4 !! n = Some (if_stmt tb None)
                 /\ heap s4 !! S n = heap s3 !! S n).
  { intros tb s3 Hbody.
    destruct (make_compound_statement_result _ _ _ _ Hbody)
      as (-> & (cs & Hcs & _) & _).
    assert (Hif : heap s3 !! n = Some (IfStatement code (Some (NExpr c)) None None)).
    { eapply make_compound_statement_lookup; [exact Hbody | | exact I].
      subst s2 n. cbn [heap]. apply heap_lookup_0. }
    subst s2 n. cbn [heap] in *. rewrite length_app, Nat.add_1_r in *.
    split; [reflexivity|]. split; [exact Hif|].
    intros eb s4 Helse.
    destruct (make_compound_statement_result _ _ _ _ Helse) as (-> & _).
    subst then_set. cbn [heap] in *. rewrite length_insert.
    split; [reflexivity|]. split.
    - eapply make_compound_statement_lookup; [exact Helse | | exact I].
      cbn [heap]. apply list_lookup_insert_eq. now apply lookup_lt_Some in Hif.
    - rewrite Hcs. eapply make_compound_statement_lookup; [exact Helse | | exact I].
      cbn [heap]. rewrite list_lookup_insert_ne by lia. exact Hcs. }
  split; [|exact Hframe].
  subst stmt n r code s2 if_stmt done then_set. rewrite handle_statement_unfold.
  destruct s as [h e lg lc]. cbn [heap ext log locations] in *.
  unfold handle_statement_impl, start_entry, end_entry in *. run. rewrite Hc. run.
  match goal with
  | |- context [make_compound_statement handle_statement body ?s1] =>
      destruct (make_compound_statement handle_statement body s1)
        as [tb [h3 e3 lg3 lc3]|x s3] eqn:Hbody; [|reflexivity]
  end.
  destruct (Hframe _ _ eq_refl) as (_ & Hif & Helse). cbn [heap] in Hif, Helse.
  run. erewrite update_run_lookup by exact Hif. run.
  destruct orelse as [|st orelse]; run.
  - rewrite list_insert_insert_eq. reflexivity.
  - match goal with
    | |- context [make_compound_statement handle_statement (st :: orelse) ?s1] =>
        destruct (make_compound_statement handle_statement (st :: orelse) s1)
          as [eb [h4 e4 lg4 lc4]|x s4] eqn:Hrun; [|reflexivity]
    end.
    destruct (Helse _ _ Hrun) as (_ & Hif4 & _). cbn [heap] in Hif4.
    run. erewrite update_run_lookup by exact Hif4. run. reflexivity.
Qed.


End BranchProperties.
(** * Beyond the specification's properties: class definitions *)

Section ClassProperties.
Context {E : Type} `{Frontend E}.

(** The loops that only report. *)
Lemma not_implemented_loop {A : Type} (l : list A) (h : list obj) (e : E) lg lc :
  for_each (fun _ => log_with_loc NOT_IMPLEMENTED_MSG [] ERROR) l (State h e lg lc)
  = Ok tt (State h e (not_implemented_entries l ++ lg) lc).
Proof.
  revert lg. induction l as [|x l IH]; intros lg; [reflexivity|].
  cbn [for_each]. unfold bind. cbn [log_with_loc heap ext log locations].
  rewrite IH. unfold not_implemented_entries. cbn [map].
  f_equal. f_equal.
  change (?a :: ?l) with ([a] ++ l) at 1.
  rewrite app_assoc. f_equal.
  clear IH. induction l as [|y l IHl]; [reflexivity|].
  cbn [map app] in *. now rewrite IHl.
Qed.

(** The loop over the bases of a class definition (lines 56-67). *)
Lemma handle_bases_run (bases : list ast.expr) (acc : list jtype) (h : list obj)
      (e : E) lg lc :
  for_fold handle_base bases acc (State h e lg lc)
  = Ok (acc ++ base_types (current_namespace e) bases)
       (State h e (rev (map (base_entry (current_namespace e)) bases) ++ lg) lc).
Proof.
  revert acc lg. induction bases as [|base bases IH]; intros acc lg.
  - cbn. now rewrite app_nil_r.
  - cbn [for_fold]. unfold bind at 1.
    destruct base; cbn; rewrite IH; cbn [heap ext log locations];
      rewrite <- ?app_assoc; reflexivity.
Qed.

(** One turn of the loop over a class body (lines 73-80): a function
    definition adds a method, another statement adds a statement. *)
Lemma class_body_turn (n : nat) (st : ast.stmt) (body : list ast.stmt)
      (s s3 s' : state E) (name kind code : string) (bases : list jtype)
      (ms ss fs ms' ss' : list node) :
  heap s !! n = Some (RecordDeclaration name kind code bases ms ss fs) ->
  handle_class_body_stmt handle_statement (NObj n) st s = Ok tt s3 ->
  class_body_lowered n body s3 ms' ss' s' ->
  exists x fs',
    heap s3 !! n
    = Some (if isinstance_FunctionDef st
            then RecordDeclaration name kind code bases (ms ++ [x]) ss fs'
            else RecordDeclaration name kind code bases ms (ss ++ [x]) fs')
    /\ if isinstance_FunctionDef st
       then class_body_lowered n (st :: body) s (x :: ms') ss' s'
       else class_body_lowered n (st :: body) s ms' (x :: ss') s'.
Proof.
  intros Hn Hrun Hrest. pose proof (lookup_lt_Some _ _ _ Hn) as Hlt.
  destruct (pres_handle_statement st) as [Hst Hmethod].
  unfold handle_class_body_stmt in Hrun.
  destruct (isinstance_FunctionDef st) eqn:Hdef; unfold bind at 1 in Hrun.
  - specialize (Hmethod (length (heap s)) (Some (NObj n)) s (le_n _)).
    destruct (handle_function_or_method handle_statement st (Some (NObj n)) s)
      as [m s1|x s1] eqn:Hm; [|discriminate Hrun].
    destruct Hmethod as [_ Hfr].
    destruct (frame_lookup_record _ _ _ _ _ _ _ _ _ _ _ Hfr Hlt Hn) as [fs' Hn1].
    destruct s1 as [h1 e1 lg1 lc1]. cbn [heap] in Hn1.
    unfold addMethod in Hrun. erewrite update_run_lookup in Hrun by exact Hn1.
    injection Hrun as <-. exists m, fs'. cbn [heap].
    split; [apply list_lookup_insert_eq; now apply lookup_lt_Some in Hn1|].
    eapply class_body_method; [exact Hdef | exact Hm | exact Hn1 | exact Hrest].
  - specialize (Hst (length (heap s)) s (le_n _)).
    destruct (handle_statement st s) as [r s1|x s1] eqn:Hr; [|discriminate Hrun].
    destruct Hst as [_ Hfr].
    destruct (frame_lookup_record _ _ _ _ _ _ _ _ _ _ _ Hfr Hlt Hn) as [fs' Hn1].
    unfold bind at 1 in Hrun. rewrite is_declaration_run in Hrun.
    destruct s1 as [h1 e1 lg1 lc1]. cbn [heap] in Hn1, Hrun.
    pose proof (lookup_lt_Some _ _ _ Hn1) as Hlt1.
    unfold bind in Hrun. destruct (declared_in h1 r) eqn:Hd.
    + unfold wrap_declaration_to_stmt in Hrun. rewrite alloc_run in Hrun.
      unfold addStatement in Hrun.
      erewrite update_run_lookup in Hrun by (apply lookup_app_l_Some; exact Hn1).
      injection Hrun as <-. eexists _, fs'. cbn [heap].
      split; [apply list_lookup_insert_eq; rewrite length_app; lia|].
      eapply class_body_statement;
        [exact Hdef | exact Hr | unfold statement_form; cbn [heap]; rewrite Hd;
                                 reflexivity
         | cbn; apply lookup_app_l_Some; exact Hn1 | exact Hrest].
    + cbn [ret] in Hrun. unfold addStatement in Hrun.
      erewrite update_run_lookup in Hrun by exact Hn1.
      injection Hrun as <-. eexists _, fs'. cbn [heap].
      split; [now apply list_lookup_insert_eq|].
      eapply class_body_statement;
        [exact Hdef | exact Hr | unfold statement_form; cbn [heap]; rewrite Hd;
                                 reflexivity
         | exact Hn1 | exact Hrest].
Qed.

Lemma class_body_turns (n : nat) (name kind code : string) (bases : list jtype)
      (body : list ast.stmt) :
  forall (s s' : state E) (ms ss fs : list node),
    heap s !! n = Some (RecordDeclaration name kind code bases ms ss fs) ->
    for_each (handle_class_body_stmt handle_statement (NObj n)) body s = Ok tt s' ->
    exists ms' ss' fs',
      class_body_lowered n body s ms' ss' s'
      /\ heap s' !! n = Some (RecordDeclaration name kind code bases
                                                (ms ++ ms') (ss ++ ss') fs')
      /\ length ms' = length (method_definitions body)
      /\ length ss' = length (other_statements body).
Proof.
  induction body as [|st body IH]; intros s s' ms ss fs Hn Hrun.
  - cbn in Hrun. injection Hrun as <-. exists [], [], fs.
    rewrite !app_nil_r. split; [constructor | auto].
  - cbn [for_each] in Hrun. unfold bind at 1 in Hrun.
    destruct (handle_class_body_stmt handle_statement (NObj n) st s)
      as [[] s1|x s1] eqn:Hstep; [|discriminate Hrun].
    assert (Hnext : exists ms1 ss1 fs1,
               heap s1 !! n = Some (RecordDeclaration name kind code bases ms1 ss1 fs1)
               /\ if isinstance_FunctionDef st
                  then exists x, ms1 = ms ++ [x] /\ ss1 = ss
                  else exists x, ms1 = ms /\ ss1 = ss ++ [x]).
    { destruct (class_body_turn n st [] s s1 s1 _ _ _ _ _ _ _ [] [] Hn Hstep
                                (class_body_nil n s1)) as (x & fs1 & Hn1 & _).
      destruct (isinstance_FunctionDef st); eauto 10. }
    destruct Hnext as (ms1 & ss1 & fs1 & Hn1 & Hshape).
    destruct (IH _ _ _ _ _ Hn1 Hrun) as (ms' & ss' & fs' & Hchain & Hfinal & Hms & Hss).
    destruct (class_body_turn n st body s s1 s' _ _ _ _ _ _ _ ms' ss' Hn Hstep Hchain)
      as (x & fs2 & Hn2 & Hcons).
    unfold method_definitions, other_statements. cbn [List.filter].
    rewrite Hn1 in Hn2.
    destruct (isinstance_FunctionDef st); cbn [negb].
    + injection Hn2 as -> -> _.
      exists (x :: ms'), ss', fs'. rewrite <- app_assoc in Hfinal.
      split; [exact Hcons|]. split; [exact Hfinal|].
      cbn [length]. split; [now f_equal | exact Hss].
    + injection Hn2 as -> -> _.
      exists ms', (x :: ss'), fs'. rewrite <- app_assoc in Hfinal.
      split; [exact Hcons|]. split; [exact Hfinal|].
      cbn [length]. split; [exact Hms | now f_equal].
Qed.

(** A class definition: the record is created and given its super types,
    its frame is entered, the body is lowered, the frame is left, and the
    record is registered. *)
Lemma class_declaration_run (name : string) (bases : list ast.expr)
      (keywords : list ast.keyword) (body : list ast.stmt)
      (decorator_list : list ast.expr) (s : state E) :
  let stmt := ast.ClassDef name bases keywords body decorator_list in
  let cls := NObj (length (heap s)) in
  let namespace := current_namespace (ext s) in
  let h1 := heap s ++ [RecordDeclaration name "class" (get_src_code (ast.OfStmt stmt))
                                         (base_types namespace bases) [] [] []] in
  let s1 := State h1 (enter_scope h1 cls (ext s))
                  (not_implemented_entries keywords
                     ++ rev (map (base_entry namespace) bases) ++ log s)
                  (locations s) in
  handle_statement_impl handle_statement stmt s
  = match for_each (handle_class_body_stmt handle_statement cls) body s1 with
    | Ok _ s2 =>
        Ok cls (State (heap s2)
                      (add_declaration (heap s2) cls (leave_scope (heap s2) cls (ext s2)))
                      (not_implemented_entries decorator_list ++ log s2)
                      (locations s2))
    | Raised x s2 => Raised x s2
    end.
Proof.
  intros stmt cls namespace h1 s1. subst stmt cls namespace h1 s1.
  destruct s as [h e lg lc]. unfold handle_statement_impl.
  unfold bind at 1. unfold DeclarationBuilderKt.newRecordDeclaration.
  rewrite alloc_run. unfold bind at 1. rewrite handle_bases_run. cbn [app].
  run. rewrite not_implemented_loop. run.
  match goal with
  | |- context [for_each (handle_class_body_stmt ?a ?b) ?c ?d] =>
      destruct (for_each (handle_class_body_stmt a b) c d)
        as [[] [h2 e2 lg2 lc2]|x s2]; [|reflexivity]
  end.
  run. rewrite not_implemented_loop. reflexivity.
Qed.

(** X13.  A class definition that is lowered.  The result is a new
    record of kind "class" named by the class; its super types are the
    bases that are names, in their order, each qualified by the namespace
    that was current before the class was entered (a base of another shape
    is reported and left out).  The frame of the record is entered, and the
    statements of the body are lowered one after the other, each from the
    state that the one before it has left: a [def] by
    [handle_function_or_method] with the record, its result appended to
    the methods; every other statement (an [async def] too) by
    [handle_statement], the statement form of its result appended to the
    statements.  When the body is done the methods and the statements of
    the record are exactly these, the frame is left and the record is given
    to the scope manager; keywords and decorators only add errors to the
    log. *)
Theorem handle_statement_class (name : string) (bases : list ast.expr)
        (keywords : list ast.keyword) (body : list ast.stmt)
        (decorator_list : list ast.expr) (s s' : state E) (r : node) :
  let stmt := ast.ClassDef name bases keywords body decorator_list in
  let n := length (heap s) in
  let code := get_src_code (ast.OfStmt stmt) in
  let namespace := current_namespace (ext s) in
  let h1 := heap s ++ [RecordDeclaration name "class" code
                                         (base_types namespace bases) [] [] []] in
  let s1 := State h1 (enter_scope h1 (NObj n) (ext s))
                  (not_implemented_entries keywords
                     ++ rev (map (base_entry namespace) bases)
                     ++ start_entry "handle_statement" stmt :: log s)
                  (locations s) in
  handle_statement stmt s = Ok r s' ->
  r = NObj n
  /\ exists (methods statements fields : list node) (s2 : state E),
      class_body_lowered n body s1 methods statements s2
      /\ heap s2 !! n
         = Some (RecordDeclaration name "class" code (base_types namespace bases)
                                   methods statements fields)
      /\ length methods = length (method_definitions body)
      /\ length statements = length (other_statements body)
      /\ s' = State (heap s2)
                    (add_declaration (heap s2) r (leave_scope (heap s2) r (ext s2)))
                    (end_entry "handle_statement" stmt r
                       :: not_implemented_entries decorator_list ++ log s2)
                    ((r, LocOf (ast.OfStmt stmt)) :: locations s2).
Proof.
  intros stmt n code namespace h1 s1 Hrun. subst n code namespace h1 s1.
  rewrite handle_statement_unfold in Hrun.
  unfold bind at 1 in Hrun. cbn [log_with_loc] in Hrun.
  unfold bind at 1 in Hrun. subst stmt. rewrite class_declaration_run in Hrun.
  cbn [heap ext log locations] in Hrun. unfold start_entry, end_entry.
  match type of Hrun with
  | context [for_each (handle_class_body_stmt ?a ?b) ?c ?d] =>
      destruct (for_each (handle_class_body_stmt a b) c d)
        as [[] s2|x s2] eqn:Hbody; [|discriminate Hrun]
  end.
  match type of Hbody with
  | for_each _ _ ?s1 = _ =>
      assert (Hcls : heap s1 !! length (heap s)
                     = Some (RecordDeclaration
                               name "class"
                               (get_src_code
                                  (ast.OfStmt (ast.ClassDef name bases keywords
                                                            body decorator_list)))
                               (base_types (current_namespace (ext s)) bases) [] [] []))
        by apply heap_lookup_0
  end.
  destruct (class_body_turns _ _ _ _ _ _ _ _ _ _ _ Hcls Hbody)
    as (ms & ss & fs & Hchain & Hfinal & Hms & Hss).
  cbn in Hrun. injection Hrun as <- <-.
  split; [reflexivity|]. exists ms, ss, fs, s2.
  split; [exact Hchain|]. split; [exact Hfinal|]. auto.
Qed.

End ClassProperties.
(** * Beyond the specification's properties: what is not lowered *)

Section Raising.
Context {E : Type}.

Lemma raises_bind_l {A B} (m : M E A) (k : A -> M E B) :
  raises m -> raises (bind m k).
Proof. intros Hm s. unfold bind. destruct (Hm s) as (x & s' & ->). eauto. Qed.

Lemma raises_bind_r {A B} (m : M E A) (k : A -> M E B) :
  (forall a, raises (k a)) -> raises (bind m k).
Proof.
  intros Hk s. unfold bind. destruct (m s) as [a s1|x s1]; [apply Hk | eauto].
Qed.

Lemma raises_with_raises {A} (x : exn) (m : M E A) : raises_with x m -> raises m.
Proof. intros Hm s. destruct (Hm s) as [s' ->]. eauto. Qed.

Lemma raises_with_bind_l {A B} (x : exn) (m : M E A) (k : A -> M E B) :
  raises_with x m -> raises_with x (bind m k).
Proof. intros Hm s. unfold bind. destruct (Hm s) as (s' & ->). eauto. Qed.

Lemma raises_with_bind_r {A B} (x : exn) (m : M E A) (k : A -> M E B) :
  succeeds m -> (forall a, raises_with x (k a)) -> raises_with x (bind m k).
Proof.
  intros Hm Hk s. unfold bind. destruct (Hm s) as (a & s1 & ->). apply Hk.
Qed.

End Raising.

Section NotLowered.
Context {E : Type} `{Frontend E}.

Lemma succeeds_not_implemented_loop {A : Type} (l : list A) :
  succeeds (E := E) (for_each (fun _ => log_with_loc NOT_IMPLEMENTED_MSG [] ERROR) l).
Proof. intros [h e lg lc]. rewrite not_implemented_loop. eauto. Qed.

(** A decorator that is not a call has no [func]. *)
Lemma decorators_raise (decorator_list : list ast.expr) :
  Exists (fun d => is_call d = false) decorator_list ->
  forall locals, raises (E := E) (for_fold handle_decorator decorator_list locals).
Proof.
  induction 1 as [d ds Hd|d ds _ IH]; intros locals; cbn [for_fold].
  - apply raises_bind_l. intros s. unfold handle_decorator.
    destruct d; try discriminate Hd; cbn; eauto.
  - apply raises_bind_r. intros locals'. apply IH.
Qed.

(** An annotation that is not a name has no [id]. *)
Lemma handle_argument_raises (a : ast.arg) :
  annotation_without_id a = true ->
  raises_with (E := E) (AttributeError "id") (handle_argument a).
Proof.
  intros Ha s. unfold handle_argument, annotation_without_id in *.
  destruct (ast.arg_annotation a) as [[]|]; try discriminate Ha; cbn; eauto.
Qed.

Lemma handle_argument_succeeds (a : ast.arg) :
  annotation_without_id a = false -> succeeds (E := E) (handle_argument a).
Proof.
  intros Ha s. unfold handle_argument, annotation_without_id in *.
  destruct (ast.arg_annotation a) as [[]|]; try discriminate Ha; cbn; eauto.
Qed.

Lemma arguments_raise (l : list ast.arg) :
  Exists (fun a => annotation_without_id a = true) l ->
  raises_with (E := E) (AttributeError "id")
              (for_each (fun arg => handle_argument arg ;; pass)%lowering l).
Proof.
  induction l as [|a l IH]; intros Hex; [inversion Hex|].
  cbn [for_each]. destruct (annotation_without_id a) eqn:Ha.
  - apply raises_with_bind_l, raises_with_bind_l. now apply handle_argument_raises.
  - apply raises_with_bind_r.
    + intros s. unfold bind. destruct (handle_argument_succeeds a Ha s) as (r & s1 & ->).
      cbn. eauto.
    + intros _. apply IH. inversion Hex; subst; [congruence | assumption].
Qed.

Lemma function_contents_bare_decorator self f record args body decorator_list returns :
  Exists (fun d => is_call d = false) decorator_list ->
  raises (E := E) (function_contents self f record args body decorator_list returns).
Proof.
  intros Hd. unfold function_contents.
  repeat first [ apply raises_bind_l; solve [apply decorators_raise; exact Hd]
               | apply raises_bind_r; intros ? ].
Qed.

Lemma function_contents_annotation self f record args body decorator_list returns :
  Exists (fun a => annotation_without_id a = true) (handled_arguments record args) ->
  raises (E := E) (function_contents self f record args body decorator_list returns)
  /\ (record = None ->
      raises_with (AttributeError "id")
                  (function_contents self f record args body decorator_list returns)).
Proof.
  intros Ha. unfold function_contents, handled_arguments in *. split.
  - apply raises_bind_r. intros _. apply raises_bind_l.
    destruct record.
    + apply raises_bind_r. intros _.
      eapply raises_with_raises, arguments_raise, Ha.
    + eapply raises_with_raises, arguments_raise, Ha.
  - intros ->. apply raises_with_bind_r; [apply succeeds_not_implemented_loop|].
    intros _. apply raises_with_bind_l. now apply arguments_raise.
Qed.

(** A function definition whose contents raise is not lowered, alone or
    as a statement. *)
Lemma function_not_lowered (stmt : ast.stmt) (name : string)
      (args : ast.arguments) (body : list ast.stmt) (decorator_list : list ast.expr)
      (returns : option ast.expr) :
  function_parts stmt = Some (name, args, body, decorator_list, returns) ->
  (forall f record,
      raises (function_contents handle_statement f record args body
                                decorator_list returns)) ->
  (forall record, raises (handle_function_or_method handle_statement stmt record))
  /\ raises (handle_statement stmt).
Proof.
  intros Hparts Hcontents.
  assert (Hfun : forall record,
             raises (handle_function_or_method handle_statement stmt record)).
  { intros record s.
    destruct (function_declaration_run stmt name args body decorator_list returns
                                       record s Hparts) as [-> _].
    match goal with
    | |- context [function_contents ?a ?b ?c ?d ?e ?f ?g ?s1] =>
        destruct (Hcontents b c s1) as (x & s2 & ->)
    end.
    eauto. }
  split; [exact Hfun|].
  rewrite handle_statement_unfold. apply raises_bind_r. intros _.
  apply raises_bind_l.
  destruct stmt; try discriminate Hparts; apply Hfun.
Qed.

(** X14.  A function definition with a decorator that is not a call, a
    bare [@staticmethod] or [@app.route]: reading [decorator.func] raises.
    The definition is never lowered, as a function, as a method or as a
    statement; whatever the rest of the definition is, the lowering ends in
    an exception. *)
Theorem function_with_bare_decorator_raises (stmt : ast.stmt) (name : string)
        (args : ast.arguments) (body : list ast.stmt) (decorator_list : list ast.expr)
        (returns : option ast.expr) (decorator : ast.expr) :
  function_parts stmt = Some (name, args, body, decorator_list, returns) ->
  In decorator decorator_list ->
  is_call decorator = false ->
  (forall (record : option node) (s : state E),
      exists x s', handle_function_or_method handle_statement stmt record s
                   = Raised x s')
  /\ forall s : state E, exists x s', handle_statement stmt s = Raised x s'.
Proof.
  intros Hparts Hin Hbare.
  assert (Hex : Exists (fun d => is_call d = false) decorator_list)
    by (apply List.Exists_exists; eauto).
  destruct (function_not_lowered stmt name args body decorator_list returns Hparts)
    as [Hfun Hstmt]; [|split; [exact Hfun | exact Hstmt]].
  intros f record. now apply function_contents_bare_decorator.
Qed.

(** X15.  A function definition with a parameter whose annotation is not a
    plain name, [x: List[int]] or [x: a.B] (for a method: a parameter after
    the receiver): reading [arg.annotation.id] raises.  The definition is
    never lowered; for a function without an enclosing record the exception
    is the AttributeError for [id]. *)
Theorem function_with_annotation_without_id_raises (stmt : ast.stmt) (name : string)
        (args : ast.arguments) (body : list ast.stmt) (decorator_list : list ast.expr)
        (returns : option ast.expr) (record : option node) (a : ast.arg) :
  function_parts stmt = Some (name, args, body, decorator_list, returns) ->
  In a (handled_arguments record args) ->
  annotation_without_id a = true ->
  forall s : state E,
    exists x s',
      handle_function_or_method handle_statement stmt record s = Raised x s'
      /\ (record = None -> x = AttributeError "id").
Proof.
  intros Hparts Hin Hbad s.
  assert (Hex : Exists (fun a => annotation_without_id a = true)
                       (handled_arguments record args))
    by (apply List.Exists_exists; eauto).
  destruct (function_declaration_run stmt name args body decorator_list returns
                                     record s Hparts) as [-> _].
  match goal with
  | |- context [function_contents ?a ?b ?c ?d ?e ?f ?g ?s1] =>
      destruct (function_contents_annotation a b c d e f g Hex) as [Hany Hid];
      destruct (Hany s1) as (x & s2 & Hrun)
  end.
  destruct record as [record|].
  - rewrite Hrun. exists x, s2. split; [reflexivity | discriminate].
  - match type of Hrun with
    | ?m ?s1 = _ => destruct (Hid eq_refl s1) as (s3 & Hrun')
    end.
    rewrite Hrun'. eauto.
Qed.

End NotLowered.
(** * Beyond the specification's properties: what a run adds to, and the
      scopes it enters and leaves *)

Section Growth.
Context {E : Type} `{Frontend E}.

(** Two relations on the state of the collaborators, closed under what the
    lowering asks of the collaborators: lowering an expression, registering
    a declaration, and entering the frame of a new object and leaving it
    again around a run that keeps the relation. *)
Variable Xok : E -> E -> Prop.
Variable Xraise : E -> E -> Prop.
Hypothesis Xok_refl : forall e, Xok e e.
Hypothesis Xok_trans : forall e1 e2 e3, Xok e1 e2 -> Xok e2 e3 -> Xok e1 e3.
Hypothesis Xok_raise : forall e1 e2, Xok e1 e2 -> Xraise e1 e2.
Hypothesis Xraise_trans : forall e1 e2 e3, Xok e1 e2 -> Xraise e2 e3 -> Xraise e1 e3.
Hypothesis X_lower_ok :
  forall h x e g e', lower_expression h x e = XOk g e' -> Xok e e'.
Hypothesis X_lower_raise :
  forall h x e err e', lower_expression h x e = XRaise err e' -> Xraise e e'.
Hypothesis X_declare : forall h n e, Xok e (add_declaration h n e).
Hypothesis X_bracket :
  forall h h2 (l : nat) e e2,
    l < length h -> Xok (enter_scope h (NObj l) e) e2 ->
    Xok e (leave_scope h2 (NObj l) e2).
Hypothesis X_entered :
  forall h (l : nat) e e2,
    l < length h -> Xraise (enter_scope h (NObj l) e) e2 -> Xraise e e2.

Local Abbreviation keeps' := (keeps Xok Xraise).

Lemma grows_refl (s : state E) : grows s s.
Proof. split; [lia|]. split; exists []; reflexivity. Qed.

Lemma grows_trans (s1 s2 s3 : state E) : grows s1 s2 -> grows s2 s3 -> grows s1 s3.
Proof.
  intros (Hh & [lg Hlg] & [lc Hlc]) (Hh' & [lg' Hlg'] & [lc' Hlc']).
  split; [lia|]. split.
  - exists (lg' ++ lg). now rewrite Hlg', Hlg, app_assoc.
  - exists (lc' ++ lc). now rewrite Hlc', Hlc, app_assoc.
Qed.

Lemma keeps_ret {A} (a : A) : keeps' (ret a).
Proof. intros s. cbn. split; [apply grows_refl | apply Xok_refl]. Qed.

Lemma keeps_raise {A} (x : exn) : keeps' (raise (A := A) x).
Proof. intros s. cbn. split; [apply grows_refl | apply Xok_raise, Xok_refl]. Qed.

Lemma keeps_bind {A B} (m : M E A) (k : A -> M E B) :
  keeps' m -> (forall a, keeps' (k a)) -> keeps' (bind m k).
Proof.
  intros Hm Hk s. unfold bind. specialize (Hm s).
  destruct (m s) as [a s1|x s1]; [|exact Hm].
  destruct Hm as [Hg HX]. specialize (Hk a s1).
  destruct (k a s1) as [b s2|x s2]; destruct Hk as [Hg' HX'].
  - split; [eapply grows_trans | eapply Xok_trans]; eassumption.
  - split; [eapply grows_trans | eapply Xraise_trans]; eassumption.
Qed.

Lemma keeps_for_each {A} (body : A -> M E unit) (l : list A) :
  Forall (fun x => keeps' (body x)) l -> keeps' (for_each body l).
Proof.
  induction 1 as [|x l Hx Hl IH]; cbn.
  - apply keeps_ret.
  - apply keeps_bind; [exact Hx | intros _; exact IH].
Qed.

Lemma keeps_for_fold {A S} (body : S -> A -> M E S) (l : list A) :
  (forall acc x, keeps' (body acc x)) -> forall acc, keeps' (for_fold body l acc).
Proof.
  intros Hbody. induction l as [|x l IH]; intros acc; cbn.
  - apply keeps_ret.
  - apply keeps_bind; [apply Hbody | intros acc'; apply IH].
Qed.

(** A computation that leaves the state as it is. *)
Lemma keeps_reader {A} (m : M E A) :
  (forall s, match m s with Ok _ s' | Raised _ s' => s' = s end) -> keeps' m.
Proof.
  intros Hm s. specialize (Hm s).
  destruct (m s); subst; (split; [apply grows_refl|]); auto.
Qed.

Lemma grows_intro (h h' : list obj) (e e' : E) lg lg' lc lc' :
  length h <= length h' ->
  grows (State h e lg lc) (State h' e' (lg' ++ lg) (lc' ++ lc)).
Proof. intros Hh. split; [exact Hh|]. cbn. eauto. Qed.

Lemma keeps_alloc (o : obj) : keeps' (alloc o).
Proof.
  intros [h e lg lc]. cbn. split; [|apply Xok_refl].
  apply (grows_intro _ _ _ _ _ [] _ []). rewrite length_app. lia.
Qed.

Lemma keeps_update m (x : node) (f : obj -> option obj) : keeps' (update m x f).
Proof.
  intros [h e lg lc]. unfold update. cbn [heap].
  destruct x as [l|g]; [|split; [apply grows_refl | auto]].
  destruct (h !! l) as [o|]; [|split; [apply grows_refl | auto]].
  destruct (f o) as [o'|]; [|split; [apply grows_refl | auto]].
  cbn. split; [|apply Xok_refl].
  apply (grows_intro _ _ _ _ _ [] _ []). rewrite length_insert. lia.
Qed.

Lemma keeps_call {A} m (x : node) (f : obj -> option A) : keeps' (call m x f).
Proof.
  apply keeps_reader. intros s. unfold call.
  destruct x as [l|g]; [|reflexivity].
  destruct (heap s !! l) as [o|]; [|reflexivity]. destruct (f o); reflexivity.
Qed.

Lemma keeps_is_declaration (x : node) : keeps' (is_declaration x).
Proof.
  apply keeps_reader. intros s. unfold is_declaration.
  destruct x as [l|g]; [|reflexivity]. destruct (heap s !! l); reflexivity.
Qed.

Lemma keeps_log_with_loc fmt args lvl : keeps' (log_with_loc fmt args lvl).
Proof.
  intros [h e lg lc]. cbn. split; [|apply Xok_refl].
  now apply (grows_intro _ _ _ _ _ [_] _ []).
Qed.

Lemma keeps_add_loc_info a (x : node) : keeps' (add_loc_info a x).
Proof.
  intros [h e lg lc]. cbn. split; [|apply Xok_refl].
  now apply (grows_intro _ _ _ _ _ [] _ [_]).
Qed.

Lemma keeps_add_mul_loc_infos a b (x : node) : keeps' (add_mul_loc_infos a b x).
Proof.
  intros [h e lg lc]. cbn. split; [|apply Xok_refl].
  now apply (grows_intro _ _ _ _ _ [] _ [_]).
Qed.

Lemma keeps_handle_expression a : keeps' (handle_expression a).
Proof.
  intros [h e lg lc]. unfold handle_expression. cbn [heap ext].
  destruct (lower_expression h a e) eqn:Hlower; cbn.
  all: split; [now apply (grows_intro _ _ _ _ _ [] _ []) | eauto].
Qed.

Lemma keeps_scope_addDeclaration (x : node) : keeps' (scopemanager.addDeclaration x).
Proof.
  intros [h e lg lc]. cbn.
  split; [now apply (grows_intro _ _ _ _ _ [] _ []) | apply X_declare].
Qed.

Lemma keeps_resolveReference g : keeps' (scopemanager.resolveReference g).
Proof. now apply keeps_reader. Qed.

Lemma keeps_isInRecord : keeps' scopemanager.isInRecord.
Proof. now apply keeps_reader. Qed.

Lemma keeps_isInFunction : keeps' scopemanager.isInFunction.
Proof. now apply keeps_reader. Qed.

Lemma keeps_getCurrentFunction : keeps' scopemanager.getCurrentFunction.
Proof. now apply keeps_reader. Qed.

Lemma keeps_getCurrentRecord : keeps' scopemanager.getCurrentRecord.
Proof. now apply keeps_reader. Qed.

Lemma keeps_getCurrentNamespace : keeps' scopemanager.getCurrentNamespace.
Proof. now apply keeps_reader. Qed.

Lemma keeps_handle_operator_code op : keeps' (handle_operator_code op).
Proof. apply keeps_ret. Qed.

Lemma keeps_node_getName (x : node) : keeps' (node_getName x).
Proof. destruct x; [apply keeps_call | apply keeps_ret]. Qed.

Lemma keeps_getBase g : keeps' (getBase g).
Proof. destruct g; first [apply keeps_ret | apply keeps_raise]. Qed.

Lemma keeps_setRefersTo g d : keeps' (setRefersTo g d).
Proof. destruct g; first [apply keeps_ret | apply keeps_raise]. Qed.

Lemma keeps_index {A} (l : list A) i : keeps' (index l i).
Proof. unfold index. destruct (l !! i); first [apply keeps_ret | apply keeps_raise]. Qed.

Lemma keeps_stmt_target st : keeps' (stmt_target st).
Proof. destruct st; first [apply keeps_ret | apply keeps_raise]. Qed.

Lemma keeps_stmt_value st : keeps' (stmt_value st).
Proof. destruct st; first [apply keeps_ret | apply keeps_raise]. Qed.

(** Following a definition of the lowering through the rules above. *)
Ltac keeps_atom :=
  first [ assumption
        | apply keeps_ret | apply keeps_raise | apply keeps_alloc
        | apply keeps_log_with_loc | apply keeps_add_loc_info
        | apply keeps_add_mul_loc_infos | apply keeps_handle_expression
        | apply keeps_scope_addDeclaration | apply keeps_resolveReference
        | apply keeps_isInRecord | apply keeps_isInFunction
        | apply keeps_getCurrentFunction | apply keeps_getCurrentRecord
        | apply keeps_getCurrentNamespace | apply keeps_handle_operator_code
        | apply keeps_node_getName | apply keeps_getBase | apply keeps_setRefersTo
        | apply keeps_index | apply keeps_stmt_target | apply keeps_stmt_value
        | apply keeps_is_declaration | apply keeps_call | apply keeps_update
        | solve [auto] ].

Ltac keeps_go :=
  repeat match goal with
         | |- keeps _ _ (bind _ _) => apply keeps_bind; [|intros ?]
         | |- keeps _ _ (let _ := _ in _) => cbv zeta
         | |- keeps _ _ (match ?x with _ => _ end) => destruct x
         | |- keeps _ _ (for_each _ _) =>
             apply keeps_for_each;
             first [ eapply Forall_impl; [eassumption | cbv beta; intros ? ?]
                   | apply Forall_forall; intros ? _ ]
         | |- keeps _ _ (for_fold _ _ _) => apply keeps_for_fold; intros ? ?
         | |- keeps _ _ _ => keeps_atom
         end.

Implicit Types (self : ast.stmt -> M E node).

Lemma keeps_handle_argument arg : keeps' (handle_argument arg).
Proof. unfold handle_argument. keeps_go. Qed.

Lemma keeps_make_compound_statement self stmts :
  Forall (fun st => keeps' (self st)) stmts ->
  keeps' (make_compound_statement self stmts).
Proof.
  intros Hself. unfold make_compound_statement.
  destruct (Nat.eqb (length stmts) 0); [keeps_go|].
  cbn [andb]. keeps_go.
Qed.

Lemma keeps_handle_for self stmt :
  Forall (fun st => keeps' (self st)) (children stmt) ->
  keeps' (handle_for self stmt).
Proof.
  intros Hself. unfold handle_for.
  pose proof (keeps_make_compound_statement self _ Hself) as Hbody.
  destruct stmt; cbn in Hbody; keeps_go.
Qed.

Lemma keeps_handle_assign stmt : keeps' (handle_assign stmt).
Proof.
  unfold handle_assign, handle_assign_impl, assign_in_class_body,
    assign_new_variable, assign_member_in_method.
  keeps_go.
Qed.

Lemma keeps_handle_decorator locals decorator :
  keeps' (handle_decorator locals decorator).
Proof. unfold handle_decorator. keeps_go. Qed.

Lemma keeps_function_contents self f record args body decorator_list returns :
  Forall (fun st => keeps' (self st)) body ->
  keeps' (function_contents self f record args body decorator_list returns).
Proof.
  intros Hself. unfold function_contents.
  pose proof (keeps_make_compound_statement self _ Hself) as Hbody.
  pose proof keeps_handle_argument as Harg.
  pose proof keeps_handle_decorator as Hdec.
  keeps_go.
Qed.

Lemma keeps_handle_base bases base : keeps' (handle_base bases base).
Proof. unfold handle_base. keeps_go. Qed.

Lemma keeps_handle_alias decl_stmt a : keeps' (handle_alias decl_stmt a).
Proof. unfold handle_alias. keeps_go. Qed.

(** Entering the frame of a new object, running, leaving the frame and
    registering the object. *)
Lemma keeps_bracket (s s1 s2 : state E) (l : nat) :
  grows s s1 -> l < length (heap s1) ->
  ext s1 = enter_scope (heap s1) (NObj l) (ext s) ->
  grows s1 s2 /\ Xok (ext s1) (ext s2) ->
  forall lg,
    grows s (State (heap s2)
                   (add_declaration (heap s2) (NObj l)
                                    (leave_scope (heap s2) (NObj l) (ext s2)))
                   (lg ++ log s2) (locations s2))
    /\ Xok (ext s)
           (add_declaration (heap s2) (NObj l)
                            (leave_scope (heap s2) (NObj l) (ext s2))).
Proof.
  intros Hs Hl Hext [Hg HX] lg. split.
  - eapply grows_trans; [exact Hs|]. eapply grows_trans; [exact Hg|].
    split; [cbn; lia|]. cbn. split; [exists lg | exists []]; reflexivity.
  - eapply Xok_trans; [|apply X_declare].
    eapply X_bracket; [exact Hl|]. rewrite <- Hext. exact HX.
Qed.

Lemma keeps_handle_function_or_method node' record :
  Forall (fun st => keeps' (handle_statement st)) (children node') ->
  keeps' (handle_function_or_method handle_statement node' record).
Proof.
  intros Hself.
  destruct (function_parts node') as [[[[[name args] body] decorator_list] returns]|]
    eqn:Hparts.
  - assert (Hbody : children node' = body)
      by (destruct node'; try discriminate Hparts; cbn in *; congruence).
    rewrite Hbody in Hself. intros s.
    destruct (function_declaration_run node' name args body decorator_list returns
                                       record s Hparts) as [-> _].
    match goal with
    | |- context [function_contents ?a ?b ?c ?d ?e ?f ?g ?s1] =>
        assert (Hs1 : grows s s1);
        [|generalize (keeps_function_contents a b c d e f g Hself s1);
          destruct (function_contents a b c d e f g s1) as [u s2|x s2];
          intros Hcontents]
    end.
    + destruct s as [h e lg lc]. apply (grows_intro _ _ _ _ _ _ _ []).
      cbn. rewrite length_app. lia.
    + refine (keeps_bracket s _ s2 (length (heap s)) Hs1 _ eq_refl Hcontents []).
      cbn. rewrite length_app. cbn. lia.
    + destruct Hcontents as [Hg HX]. split; [eapply grows_trans; eassumption|].
      eapply X_entered; [|exact HX]. cbn. rewrite length_app. cbn. lia.
  - unfold handle_function_or_method.
    destruct node'; try discriminate Hparts; keeps_go.
Qed.

Lemma keeps_handle_class_body_stmt cls st :
  keeps' (handle_statement st) ->
  (forall record, keeps' (handle_function_or_method handle_statement st record)) ->
  keeps' (handle_class_body_stmt handle_statement cls st).
Proof. intros Hst Hmethod. unfold handle_class_body_stmt. keeps_go. Qed.

Lemma keeps_handle_statement_impl stmt :
  Forall (fun st =>
            keeps' (handle_statement st)
            /\ forall record,
                keeps' (handle_function_or_method handle_statement st record))
         (children stmt) ->
  keeps' (handle_statement_impl handle_statement stmt).
Proof.
  intros Hchildren.
  assert (Hself : Forall (fun st => keeps' (handle_statement st)) (children stmt)).
  { eapply Forall_impl; [exact Hchildren | now intros st [Hst _]]. }
  pose proof (keeps_handle_function_or_method stmt None Hself) as Hfun.
  pose proof (keeps_handle_for handle_statement stmt Hself) as Hfor.
  pose proof keeps_handle_assign as Hassign.
  pose proof keeps_handle_alias as Halias.
  destruct stmt; cbn [children] in Hself, Hchildren;
    try apply Forall_app in Hself as [Hbody Horelse];
    try pose proof (keeps_make_compound_statement handle_statement _ Hbody) as Hmcs1;
    try pose proof (keeps_make_compound_statement handle_statement _ Horelse) as Hmcs2;
    try pose proof (keeps_make_compound_statement handle_statement _ Hself) as Hmcs;
    try solve [unfold handle_statement_impl, not_implemented; keeps_go].
  intros s. rewrite class_declaration_run.
  match goal with
  | |- context [for_each ?f ?l ?s1] =>
      assert (Hs1 : grows s s1);
      [|assert (Hloop : keeps' (for_each f l));
        [|specialize (Hloop s1); destruct (for_each f l s1) as [u s2|x s2]]]
  end.
  - destruct s as [h e lg lc]. cbn [heap ext log locations].
    rewrite app_assoc. apply (grows_intro _ _ _ _ _ _ _ []).
    rewrite length_app. lia.
  - apply keeps_for_each. eapply Forall_impl; [exact Hchildren|].
    intros st [Hst Hmethod]. now apply keeps_handle_class_body_stmt.
  - refine (keeps_bracket s _ s2 (length (heap s)) Hs1 _ eq_refl Hloop _).
    cbn. rewrite length_app. cbn. lia.
  - destruct Hloop as [Hg HX]. split; [eapply grows_trans; eassumption|].
    eapply X_entered; [|exact HX]. cbn. rewrite length_app. cbn. lia.
Qed.

Lemma keeps_handle_statement stmt :
  keeps' (handle_statement stmt)
  /\ forall record, keeps' (handle_function_or_method handle_statement stmt record).
Proof.
  induction stmt as [stmt IH] using stmt_children_ind.
  assert (Hself : Forall (fun st => keeps' (handle_statement st)) (children stmt)).
  { eapply Forall_impl; [exact IH | now intros st [Hst _]]. }
  split.
  - rewrite handle_statement_unfold.
    pose proof (keeps_handle_statement_impl stmt IH). keeps_go.
  - intros record. now apply keeps_handle_function_or_method.
Qed.

End Growth.

Section Trace.
Context {E : Type} `{Frontend E}.


End Trace.

Section ScopeBalance.
Context {E : Type} `{Frontend E}.

(** The number of frames of the scope manager, and what the calls of the
    collaborators do to it: lowering an expression and registering a
    declaration keep it, entering the frame of an object of the store adds
    one, leaving a frame takes one away. *)
Variable depth : E -> nat.
Hypothesis depth_lower_ok :
  forall h x e g e', lower_expression h x e = XOk g e' -> depth e' = depth e.
Hypothesis depth_lower_raise :
  forall h x e err e', lower_expression h x e = XRaise err e' -> depth e <= depth e'.
Hypothesis depth_declare : forall h n e, depth (add_declaration h n e) = depth e.
Hypothesis depth_enter :
  forall h (l : nat) e, l < length h -> depth (enter_scope h (NObj l) e) = S (depth e).
Hypothesis depth_leave : forall h n e, depth (leave_scope h n e) = pred (depth e).

(** X17.  The frames of the scope manager are balanced.  When the lowering
    of a statement returns, every frame that it has entered has been left:
    the scope manager is as deep as before.  When it raises, the frames of
    the functions and classes whose lowering was under way stay entered:
    the scope manager is at least as deep as before. *)
Theorem handle_statement_scope_balance (stmt : ast.stmt) (s : state E) :
  match handle_statement stmt s with
  | Ok _ s' => depth (ext s') = depth (ext s)
  | Raised _ s' => depth (ext s) <= depth (ext s')
  end.
Proof.
  assert (Hkeeps : keeps (fun e e' => depth e' = depth e)
                         (fun e e' => depth e <= depth e')
                         (handle_statement stmt)).
  { apply keeps_handle_statement.
    - reflexivity.
    - intros e1 e2 e3 H12 H23. now rewrite H23.
    - intros e1 e2 H12. now rewrite H12.
    - intros e1 e2 e3 H12 H23. now rewrite <- H12.
    - exact depth_lower_ok.
    - exact depth_lower_raise.
    - exact depth_declare.
    - intros h h2 l e e2 Hl H12. rewrite depth_leave, H12, depth_enter by exact Hl.
      reflexivity.
    - intros h l e e2 Hl H12. rewrite depth_enter in H12 by exact Hl. lia. }
  specialize (Hkeeps s). destruct (handle_statement stmt s); apply Hkeeps.
Qed.

End ScopeBalance.
(** * Beyond the specification's properties: what a lowered function
      definition is made of *)

Section FunctionShape.
Context {E : Type} `{Frontend E}.

Lemma bind_Ok {A B} (m : M E A) (k : A -> M E B) (s s' : state E) (b : B) :
  bind m k s = Ok b s' -> exists a s1, m s = Ok a s1 /\ k a s1 = Ok b s'.
Proof. unfold bind. destruct (m s) as [a s1|x s1]; [eauto | discriminate]. Qed.

Lemma update_run_lookup' m (f : obj -> option obj) (k : nat) (s : state E) (o : obj) :
  heap s !! k = Some o ->
  update m (NObj k) f s
  = match f o with
    | Some o' => Ok tt (set_heap s (<[k := o']> (heap s)))
    | None => Raised (AttributeError m) s
    end.
Proof. intros Hk. unfold update. now rewrite Hk. Qed.

Lemma logged_nil (s : state E) : logged [] s = s.
Proof. now destruct s. Qed.

Lemma logged_app (l1 l2 : list log_entry) (s : state E) :
  logged l1 (logged l2 s) = logged (l1 ++ l2) s.
Proof. unfold logged. cbn. now rewrite app_assoc. Qed.

(** A loop that only reports: one entry for each element. *)
Lemma log_loop_run {A : Type} fmt args lvl (l : list A) :
  forall s : state E,
    for_each (fun _ => log_with_loc fmt args lvl) l s
    = Ok tt (logged (map (fun _ => LogEntry lvl fmt args) l) s).
Proof.
  induction l as [|x l IH]; intros s; [now rewrite logged_nil|].
  cbn [for_each]. unfold bind. cbn [log_with_loc].
  rewrite IH. unfold logged. cbn [heap ext log locations map].
  f_equal. f_equal.
  change (?a :: ?l0) with ([a] ++ l0) at 1.
  rewrite app_assoc. f_equal.
  clear IH. induction l as [|y l IHl]; [reflexivity|].
  cbn [map app] in *. now rewrite IHl.
Qed.

Lemma optional_log_run {A : Type} (x : option A) (s : state E) :
  match x with
  | Some _ => log_with_loc NOT_IMPLEMENTED_MSG [] ERROR
  | None => pass
  end s = Ok tt (logged (optional_entry x) s).
Proof. destruct x; [reflexivity | now rewrite logged_nil]. Qed.

(** [handle_argument] creates the declaration of the parameter. *)
Lemma handle_argument_run (a : ast.arg) (s s' : state E) (r : node) :
  handle_argument a s = Ok r s' ->
  r = NObj (length (heap s)) /\ s' = with_parameter s a.
Proof.
  unfold handle_argument, with_parameter, parameter_declaration, annotation_type.
  destruct s as [h e lg lc].
  destruct (ast.arg_annotation a) as [[]|]; cbn; intros Hrun;
    try discriminate Hrun; now injection Hrun as <- <-.
Qed.

Lemma arguments_loop_run (l : list ast.arg) :
  forall (s s' : state E) u,
    for_each (fun arg => handle_argument arg ;; pass)%lowering l s = Ok u s' ->
    s' = with_parameters l s.
Proof.
  induction l as [|a l IH]; intros s s' u Hrun.
  - cbn in Hrun. now injection Hrun as _ <-.
  - cbn [for_each] in Hrun. apply bind_Ok in Hrun as ([] & s1 & Harg & Hrun).
    apply bind_Ok in Harg as (r & s2 & Harg & Hpass).
    cbn in Hpass. injection Hpass as <-.
    apply handle_argument_run in Harg as [_ ->].
    exact (IH _ _ _ Hrun).
Qed.

Lemma with_parameters_heap (l : list ast.arg) :
  forall s : state E,
    heap (with_parameters l s) = heap s ++ map parameter_declaration l.
Proof.
  induction l as [|a l IH]; intros s; [now rewrite app_nil_r|].
  unfold with_parameters in *. cbn [fold_left map]. rewrite IH.
  cbn [with_parameter heap]. now rewrite <- app_assoc.
Qed.

(** Every decorator that is lowered appends one annotation to the list:
    the one that is bound afterwards, an object that did not exist when the
    loop began. *)
Lemma handle_decorator_appends n locals decorator :
  match snd locals with Some a => new_node n a | None => True end ->
  Forall (new_node n) (fst locals) ->
  pres (E := E) n (handle_decorator locals decorator)
       (fun locals' =>
          match snd locals' with Some a => new_node n a | None => True end
          /\ Forall (new_node n) (fst locals')
          /\ length (fst locals') = S (length (fst locals))).
Proof.
  intros Hlocals Hall. unfold handle_decorator.
  destruct decorator; try apply pres_raise.
  eapply (pres_bind n _ _
            (fun bound => match fst bound with Some a => new_node n a | None => True end)).
  - destruct decorator; pres_go; cbn; auto.
  - intros bound Hbound. cbv zeta.
    eapply (pres_bind n _ _ any); [pres_go|intros ? _].
    eapply (pres_bind n _ _ any).
    + apply pres_for_fold; [|exact I]. intros acc [] _. pres_go.
    + intros ? _. destruct (fst bound) as [ann|]; [|apply pres_raise].
      eapply (pres_bind n _ _ any); [apply pres_setMembers; exact Hbound|].
      intros _ _. apply pres_ret. cbn. split; [exact Hbound|]. split.
      * apply Forall_app. split; [exact Hall|]. constructor; [exact Hbound|constructor].
      * rewrite length_app. cbn. lia.
Qed.

Lemma decorators_loop_result n (decorator_list : list ast.expr) :
  forall locals,
    match snd locals with Some a => new_node n a | None => True end ->
    Forall (new_node n) (fst locals) ->
    pres (E := E) n (for_fold handle_decorator decorator_list locals)
         (fun locals' =>
            length (fst locals') = length (fst locals) + length decorator_list
            /\ Forall (new_node n) (fst locals')).
Proof.
  induction decorator_list as [|d ds IH]; intros locals Hlocals Hall; cbn [for_fold].
  - apply pres_ret. cbn. split; [lia | exact Hall].
  - eapply pres_bind; [apply handle_decorator_appends; eassumption|].
    intros locals' (Hnew & Hall' & Hlen).
    eapply pres_weaken; [apply IH; eassumption|].
    intros locals'' [Hlen' Hall'']. split; [cbn in *; lia | exact Hall''].
Qed.

(** What the lowering of the contents of a definition does, step by step:
    the parameters are declared (for a method the receiver first), the
    body is lowered into a block, the decorators are lowered, and the
    declaration receives the block and the annotations. *)
Lemma function_contents_result (h : list obj) (e1 : E) lg1 lc1
      (kind : function_kind) (name code rname : string) (record : option node)
      (args : ast.arguments) (body : list ast.stmt) (decorator_list : list ast.expr)
      (returns : option ast.expr) (u : unit) (s2 : state E) :
  let n := length h in
  let declaration := FunctionDeclaration kind name code record None None [] in
  (record = None
   \/ exists (c : nat) (o : obj),
        record = Some (NObj c) /\ h !! c = Some o /\ obj_name o = rname) ->
  function_contents handle_statement (NObj n) record args body decorator_list returns
                    (State (h ++ [declaration]) e1 lg1 lc1) = Ok u s2 ->
  let receiver := match record, ast.args args with
                  | Some _, _ :: _ => Some (NObj (S n))
                  | _, _ => None
                  end in
  let parameters := match record with
                    | Some _ =>
                        match ast.args args with
                        | recv :: rest =>
                            receiver_declaration rname recv
                              :: map parameter_declaration rest
                        | [] => []
                        end
                    | None => map parameter_declaration (ast.args args)
                    end in
  let fd b anns := FunctionDeclaration kind name code record receiver b anns in
  let s1 := State (h ++ [declaration]) e1
                  (not_implemented_entries (ast.posonlyargs args) ++ lg1) lc1 in
  let sp := match record with
            | Some _ =>
                match ast.args args with
                | recv :: rest =>
                    let h1 := h ++ [fd None []; receiver_declaration rname recv] in
                    with_parameters
                      rest (State h1 (add_declaration h1 (NObj (S n)) e1) (log s1) lc1)
                | [] =>
                    logged [LogEntry ERROR
                              "Expected to find the receiver but got nothing..." []] s1
                end
            | None => with_parameters (ast.args args) s1
            end in
  let sa := logged (unsupported_parameters_log args) sp in
  let k := S n + length parameters in
  heap sa = h ++ fd None [] :: parameters
  /\ exists (body' : option node) (sb : state E) (locals : list node * option node)
            (sc : state E),
      match body with
      | [] => body' = None /\ sb = sa
      | _ :: _ =>
          exists (b : node) (s3 : state E) (cs : list node),
            make_compound_statement handle_statement body sa = Ok b s3
            /\ b = NObj k /\ body' = Some b
            /\ heap s3 !! k = Some (CompoundStatement EmptyString cs)
            /\ length cs = length body
            /\ heap s2 !! k = Some (CompoundStatement EmptyString cs)
            /\ sb = set_heap s3 (<[n := fd (Some b) []]> (heap s3))
      end
      /\ heap sb !! n = Some (fd body' [])
      /\ for_fold handle_decorator decorator_list ([], None) sb = Ok locals sc
      /\ length (fst locals) = length decorator_list
      /\ Forall (new_node (length (heap sb))) (fst locals)
      /\ s2 = logged (optional_entry returns)
                     (set_heap sc (<[n := fd body' (fst locals)]> (heap sc)))
      /\ heap s2 !! n = Some (fd body' (fst locals))
      /\ (forall i o, parameters !! i = Some o -> heap s2 !! (S n + i) = Some o).
Proof.
  intros n declaration Hrecord Hrun receiver parameters fd s1 sp sa k.
  unfold function_contents in Hrun.
  apply bind_Ok in Hrun as ([] & x1 & Hpos & Hrun).
  rewrite log_loop_run in Hpos. injection Hpos as <-.
  change (logged _ (State (h ++ [declaration]) e1 lg1 lc1)) with s1 in Hrun.
  apply bind_Ok in Hrun as ([] & x2 & Hargs & Hrun).
  assert (Hsp : x2 = sp).
  { subst sp. destruct Hrecord as [->|(c & o & -> & Hc & Hname)].
    - now apply arguments_loop_run in Hargs.
    - apply bind_Ok in Hargs as ([] & x3 & Hrecv & Hloop).
      apply arguments_loop_run in Hloop. rewrite Hloop. clear Hloop.
      destruct (ast.args args) as [|recv rest].
      + subst s1. cbn in Hrecv. injection Hrecv as <-. reflexivity.
      + cbn [List.tl]. f_equal. subst s1 fd receiver n. revert Hrecv.
        unfold node_getName. unfold bind at 1.
        erewrite call_run by (apply lookup_app_l_Some; exact Hc).
        cbv beta iota. run.
        subst declaration. destruct kind; run; try discriminate.
        all: intros Hrecv; injection Hrecv as <-.
        all: unfold receiver_declaration, NodeBuilderKt.parseType.
        all: cbn [set_ext heap ext log locations]; rewrite Hname, <- ?app_assoc.
        all: replace (length h + 1) with (S (length h)) by lia.
        all: reflexivity. }
  subst x2. clear Hargs.
  assert (Hsa : heap sa = h ++ fd None [] :: parameters).
  { subst sa sp s1 parameters fd receiver declaration. cbn [logged heap].
    destruct Hrecord as [->|(c & o & -> & Hc & Hname)].
    - rewrite with_parameters_heap. cbn [heap]. now rewrite <- app_assoc.
    - destruct (ast.args args) as [|recv rest]; [reflexivity|].
      rewrite with_parameters_heap. cbn [heap]. now rewrite <- app_assoc. }
  assert (Hplain : forall i o, parameters !! i = Some o ->
                               match o with
                               | RecordDeclaration _ _ _ _ _ _ _ => False
                               | _ => True
                               end).
  { intros i o Hi. subst parameters.
    assert (Hmap : forall l j, map parameter_declaration l !! j = Some o ->
                               match o with
                               | RecordDeclaration _ _ _ _ _ _ _ => False
                               | _ => True
                               end).
    { intros l j Hj. rewrite list_lookup_fmap in Hj.
      destruct (l !! j); [|discriminate Hj]. now injection Hj as <-. }
    destruct record; [|exact (Hmap _ _ Hi)].
    destruct (ast.args args); [discriminate Hi|].
    destruct i; cbn in Hi; [injection Hi as <-; exact I | exact (Hmap _ _ Hi)]. }
  apply bind_Ok in Hrun as ([] & x3 & Hstep & Hrun).
  rewrite optional_log_run in Hstep. injection Hstep as <-.
  apply bind_Ok in Hrun as ([] & x4 & Hstep & Hrun).
  rewrite log_loop_run in Hstep. injection Hstep as <-.
  apply bind_Ok in Hrun as ([] & x5 & Hstep & Hrun).
  rewrite log_loop_run in Hstep. injection Hstep as <-.
  apply bind_Ok in Hrun as ([] & x6 & Hstep & Hrun).
  rewrite optional_log_run in Hstep. injection Hstep as <-.
  apply bind_Ok in Hrun as ([] & x7 & Hstep & Hrun).
  rewrite log_loop_run in Hstep. injection Hstep as <-.
  rewrite !logged_app in Hrun. rewrite <- !app_assoc in Hrun.
  change (logged _ sp) with sa in Hrun.
  clearbody sa. clear sp s1. split; [exact Hsa|].
  clearbody receiver parameters. clear Hrecord declaration.
  apply bind_Ok in Hrun as ([] & s8 & Hbody & Hrun).
  assert (Hlen : length (heap sa) = k).
  { subst k n. rewrite Hsa, length_app. cbn. lia. }
  assert (Hf7 : heap sa !! n = Some (fd None []))
    by (rewrite Hsa; apply heap_lookup_0).
  assert (Hp7 : forall i o, parameters !! i = Some o ->
                            heap sa !! (S n + i) = Some o).
  { intros i o Hi. rewrite Hsa.
    replace (S n + i) with (length h + S i) by (subst n; lia).
    now rewrite heap_lookup_app. }
  assert (Hs8 : exists body',
             heap s8 !! n = Some (fd body' [])
             /\ (forall i o, parameters !! i = Some o ->
                             heap s8 !! (S n + i) = Some o)
             /\ match body with
                | [] => body' = None /\ s8 = sa
                | _ :: _ =>
                    exists (b : node) (s3 : state E) (cs : list node),
                      make_compound_statement handle_statement body sa = Ok b s3
                      /\ b = NObj k /\ body' = Some b
                      /\ heap s3 !! k = Some (CompoundStatement EmptyString cs)
                      /\ length cs = length body
                      /\ heap s8 !! k = Some (CompoundStatement EmptyString cs)
                      /\ s8 = set_heap s3 (<[n := fd (Some b) []]> (heap s3))
                end).
  { destruct body as [|st body].
    - cbn in Hbody. injection Hbody as <-. eauto.
    - change (Nat.ltb 0 (length (st :: body))) with true in Hbody. cbv iota in Hbody.
      apply bind_Ok in Hbody as (b & s7' & Hmcs & Hset).
      destruct (make_compound_statement_result _ _ _ _ Hmcs)
        as (Hb & (cs & Hcs & Hcslen) & _).
      pose proof (make_compound_statement_lookup _ _ _ _ _ _ Hmcs Hf7 I) as Hf7'.
      assert (Hp7' : forall i o, parameters !! i = Some o ->
                                 heap s7' !! (S n + i) = Some o).
      { intros i o Hi.
        exact (make_compound_statement_lookup _ _ _ _ _ _ Hmcs (Hp7 _ _ Hi)
                                              (Hplain _ _ Hi)). }
      rewrite Hlen in Hb, Hcs. subst b.
      unfold setBody in Hset. unfold fd in Hf7'.
      erewrite update_run_lookup' in Hset by exact Hf7'.
      injection Hset as <-. cbn [heap set_heap].
      assert (Hnk : n <> k) by (subst k; lia).
      eexists. split; [apply list_lookup_insert_eq; now apply lookup_lt_Some in Hf7'|].
      split.
      + intros i o Hi. rewrite list_lookup_insert_ne by lia. now apply Hp7'.
      + exists (NObj k), s7', cs. split; [exact Hmcs|]. split; [reflexivity|].
        split; [reflexivity|]. split; [exact Hcs|]. split; [exact Hcslen|].
        split; [|reflexivity].
        rewrite list_lookup_insert_ne by exact Hnk. exact Hcs. }
  clear Hbody Hf7 Hp7.
  destruct Hs8 as (body' & Hf8 & Hp8 & Hb8).
  apply bind_Ok in Hrun as (locals & s9 & Hdec & Hrun).
  pose proof (decorators_loop_result (length (heap s8)) decorator_list ([], None) I
                                     (List.Forall_nil _) s8 (le_n _)) as Hpres.
  rewrite Hdec in Hpres. destruct Hpres as [[Hanns Hall] Hfr]. cbn in Hanns.
  assert (Hkeep : forall l o, heap s8 !! l = Some o ->
                              match o with
                              | RecordDeclaration _ _ _ _ _ _ _ => False
                              | _ => True
                              end -> heap s9 !! l = Some o).
  { intros l o Hl Ho. eapply frame_lookup_below; [exact Hfr | | exact Hl | exact Ho].
    now apply lookup_lt_Some in Hl. }
  apply bind_Ok in Hrun as ([] & s10 & Hadd & Hrun).
  rewrite optional_log_run in Hrun. injection Hrun as <- <-.
  pose proof (Hkeep _ _ Hf8 I) as Hf9.
  unfold addAnnotations in Hadd. unfold fd in Hf9.
  erewrite update_run_lookup' in Hadd by exact Hf9.
  injection Hadd as <-. cbn [app].
  assert (Hnk : forall i, n <> S n + i) by (intros; lia).
  exists body', s8, locals, s9.
  split.
  { destruct body; [exact Hb8|].
    destruct Hb8 as (b & s3 & cs & Hmcs & -> & -> & Hcs & Hcslen & Hcs8 & ->).
    exists (NObj k), s3, cs. repeat (split; [assumption || reflexivity|]).
    split; [|reflexivity]. cbn [logged set_heap heap].
    rewrite list_lookup_insert_ne by (subst k; apply Hnk). now apply Hkeep. }
  split; [exact Hf8|].
  split; [exact Hdec|]. split; [exact Hanns|]. split; [exact Hall|].
  split; [reflexivity|]. cbn [logged set_heap heap].
  split; [apply list_lookup_insert_eq; now apply lookup_lt_Some in Hf9|].
  intros i o Hi.
  rewrite list_lookup_insert_ne by apply Hnk.
  exact (Hkeep _ _ (Hp8 _ _ Hi) (Hplain _ _ Hi)).
Qed.

(** From the contents to the definition: the frame is left and the
    declaration is registered. *)
Lemma function_definition_result (stmt : ast.stmt) (name : string)
      (args : ast.arguments) (body : list ast.stmt) (decorator_list : list ast.expr)
      (returns : option ast.expr) (record : option node)
      (s s' : state E) (f : node) :
  function_parts stmt = Some (name, args, body, decorator_list, returns) ->
  handle_function_or_method handle_statement stmt record s = Ok f s' ->
  f = NObj (length (heap s))
  /\ exists u s2,
      function_contents handle_statement (NObj (length (heap s))) record args body
                        decorator_list returns
                        (State (heap s ++ [FunctionDeclaration
                                             (declaration_kind record name) name
                                             (get_src_code (ast.OfStmt stmt))
                                             record None None []])
                               (enter_scope
                                  (heap s ++ [FunctionDeclaration
                                                (declaration_kind record name) name
                                                (get_src_code (ast.OfStmt stmt))
                                                record None None []])
                                  (NObj (length (heap s))) (ext s))
                               (function_log stmt ++ log s) (locations s))
      = Ok u s2
      /\ s' = State (heap s2)
                    (add_declaration (heap s2) f (leave_scope (heap s2) f (ext s2)))
                    (log s2) (locations s2).
Proof.
  intros Hparts Hrun.
  destruct (function_declaration_run stmt name args body decorator_list returns
                                     record s Hparts) as [Heq _].
  rewrite Heq in Hrun. clear Heq.
  match type of Hrun with
  | context [function_contents ?a ?b ?c ?d ?e ?f ?g ?s1] =>
      destruct (function_contents a b c d e f g s1) as [u s2|x s2] eqn:Hcontents;
      [|discriminate Hrun]
  end.
  injection Hrun as <- <-. split; [reflexivity|]. eauto.
Qed.

(** X18.  A function definition without an enclosing record that is
    lowered.  The result is a new Function declaration without a receiver.
    One parameter declaration per parameter follows it in the store, in
    their order, each named by the parameter and typed by its annotation
    (of unknown type without one), with the location of the parameter and
    given to the scope manager; the parts of the signature that are not
    lowered are reported.  From that state [sa] the body, when there is
    one, is lowered by [make_compound_statement]: the block that it
    returns is the next object of the store and becomes the body of the
    declaration.  Then the decorators are lowered by the loop over
    [handle_decorator], which starts with no annotation bound: the list
    that the loop returns becomes the annotations of the declaration.  The
    list has one entry per decorator and every entry is an object that the
    loop has created (two entries may be the same annotation).  The frame
    is left and the declaration is registered; a return annotation is
    reported. *)
Theorem function_definition_declarations (stmt : ast.stmt) (name : string)
        (args : ast.arguments) (body : list ast.stmt) (decorator_list : list ast.expr)
        (returns : option ast.expr) (s s' : state E) (f : node) :
  function_parts stmt = Some (name, args, body, decorator_list, returns) ->
  handle_function_or_method handle_statement stmt None s = Ok f s' ->
  let n := length (heap s) in
  let k := S n + length (ast.args args) in
  let fd b anns := FunctionDeclaration Function name (get_src_code (ast.OfStmt stmt))
                                       None None b anns in
  let h0 := heap s ++ [fd None []] in
  let sa := logged (unsupported_parameters_log args)
                   (with_parameters
                      (ast.args args)
                      (State h0 (enter_scope h0 (NObj n) (ext s))
                             (not_implemented_entries (ast.posonlyargs args)
                                ++ function_log stmt ++ log s)
                             (locations s))) in
  f = NObj n
  /\ heap sa = heap s ++ fd None [] :: map parameter_declaration (ast.args args)
  /\ exists (body' : option node) (sb : state E) (locals : list node * option node)
            (sc : state E),
      match body with
      | [] => body' = None /\ sb = sa
      | _ :: _ =>
          exists (b : node) (s3 : state E) (cs : list node),
            make_compound_statement handle_statement body sa = Ok b s3
            /\ b = NObj k /\ body' = Some b
            /\ heap s3 !! k = Some (CompoundStatement EmptyString cs)
            /\ length cs = length body
            /\ heap s' !! k = Some (CompoundStatement EmptyString cs)
            /\ sb = set_heap s3 (<[n := fd (Some b) []]> (heap s3))
      end
      /\ heap sb !! n = Some (fd body' [])
      /\ for_fold handle_decorator decorator_list ([], None) sb = Ok locals sc
      /\ length (fst locals) = length decorator_list
      /\ Forall (new_node (length (heap sb))) (fst locals)
      /\ s' = State (<[n := fd body' (fst locals)]> (heap sc))
                    (add_declaration (<[n := fd body' (fst locals)]> (heap sc)) f
                       (leave_scope (<[n := fd body' (fst locals)]> (heap sc)) f
                                    (ext sc)))
                    (optional_entry returns ++ log sc) (locations sc)
      /\ heap s' !! n = Some (fd body' (fst locals))
      /\ forall i a, ast.args args !! i = Some a ->
                     heap s' !! (S n + i) = Some (parameter_declaration a).
Proof.
  intros Hparts Hrun n k fd h0 sa.
  destruct (function_definition_result stmt name args body decorator_list returns
                                       None s s' f Hparts Hrun)
    as (-> & u & s2 & Hcontents & ->).
  apply function_contents_result with (rname := EmptyString) in Hcontents;
    [|now left].
  cbv zeta in Hcontents. cbn [declaration_kind] in Hcontents.
  destruct Hcontents
    as (Hsa & body' & sb & locals & sc & Hbody & Hsb & Hdec & Hlen & Hall & Hs2
        & Hf & Hparams).
  rewrite length_map in Hbody.
  split; [reflexivity|]. split; [exact Hsa|].
  exists body', sb, locals, sc.
  split; [exact Hbody|]. split; [exact Hsb|]. split; [exact Hdec|].
  split; [exact Hlen|]. split; [exact Hall|]. split; [now rewrite Hs2|].
  split; [exact Hf|].
  intros i a Hi. apply Hparams. rewrite list_lookup_fmap, Hi. reflexivity.
Qed.

(** X19.  A function definition with parameters that is lowered as a
    method of a record.  The result is a new Method declaration (a
    Constructor for [__init__]) of that record.  Its receiver is a new
    Variable declaration, the next object of the store, named by the first
    parameter and typed by the name of the record; the annotation of the
    first parameter is not read, and the receiver is given to the scope
    manager.  The other parameters follow as parameter declarations.  From
    that state [sa] the body and the decorators are lowered as for a
    function: the block that [make_compound_statement] returns for the
    body becomes the body of the declaration, and the list that the loop
    over [handle_decorator] returns becomes its annotations. *)
Theorem method_definition_declarations (stmt : ast.stmt) (name : string)
        (args : ast.arguments) (body : list ast.stmt) (decorator_list : list ast.expr)
        (returns : option ast.expr) (s s' : state E) (f : node) (c : nat)
        (rname rkind rcode : string) (bases : list jtype)
        (methods statements fields : list node) (recv : ast.arg)
        (rest : list ast.arg) :
  function_parts stmt = Some (name, args, body, decorator_list, returns) ->
  ast.args args = recv :: rest ->
  heap s !! c = Some (RecordDeclaration rname rkind rcode bases methods statements
                                        fields) ->
  handle_function_or_method handle_statement stmt (Some (NObj c)) s = Ok f s' ->
  let n := length (heap s) in
  let k := S n + length (ast.args args) in
  let kind := if String.eqb name "__init__" then Constructor else Method in
  let code := get_src_code (ast.OfStmt stmt) in
  let fd b anns := FunctionDeclaration kind name code (Some (NObj c))
                                       (Some (NObj (S n))) b anns in
  let h0 := heap s ++ [FunctionDeclaration kind name code (Some (NObj c))
                                           None None []] in
  let h1 := heap s ++ [fd None []; receiver_declaration rname recv] in
  let sa := logged (unsupported_parameters_log args)
                   (with_parameters
                      rest
                      (State h1
                             (add_declaration h1 (NObj (S n))
                                              (enter_scope h0 (NObj n) (ext s)))
                             (not_implemented_entries (ast.posonlyargs args)
                                ++ function_log stmt ++ log s)
                             (locations s))) in
  f = NObj n
  /\ heap sa = heap s ++ fd None [] :: receiver_declaration rname recv
                      :: map parameter_declaration rest
  /\ exists (body' : option node) (sb : state E) (locals : list node * option node)
            (sc : state E),
      match body with
      | [] => body' = None /\ sb = sa
      | _ :: _ =>
          exists (b : node) (s3 : state E) (cs : list node),
            make_compound_statement handle_statement body sa = Ok b s3
            /\ b = NObj k /\ body' = Some b
            /\ heap s3 !! k = Some (CompoundStatement EmptyString cs)
            /\ length cs = length body
            /\ heap s' !! k = Some (CompoundStatement EmptyString cs)
            /\ sb = set_heap s3 (<[n := fd (Some b) []]> (heap s3))
      end
      /\ heap sb !! n = Some (fd body' [])
      /\ for_fold handle_decorator decorator_list ([], None) sb = Ok locals sc
      /\ length (fst locals) = length decorator_list
      /\ Forall (new_node (length (heap sb))) (fst locals)
      /\ s' = State (<[n := fd body' (fst locals)]> (heap sc))
                    (add_declaration (<[n := fd body' (fst locals)]> (heap sc)) f
                       (leave_scope (<[n := fd body' (fst locals)]> (heap sc)) f
                                    (ext sc)))
                    (optional_entry returns ++ log sc) (locations sc)
      /\ heap s' !! n = Some (fd body' (fst locals))
      /\ heap s' !! S n = Some (receiver_declaration rname recv)
      /\ forall i a, rest !! i = Some a ->
                     heap s' !! (S (S n) + i) = Some (parameter_declaration a).
Proof.
  intros Hparts Hargs Hc Hrun n k kind code fd h0 h1 sa.
  assert (Hrecord : Some (NObj c) = None
                    \/ exists (c' : nat) (o : obj),
                         Some (NObj c) = Some (NObj c') /\ heap s !! c' = Some o
                         /\ obj_name o = rname)
    by (right; eauto).
  destruct (function_definition_result stmt name args body decorator_list returns
                                       (Some (NObj c)) s s' f Hparts Hrun)
    as (-> & u & s2 & Hcontents & ->).
  apply function_contents_result with (rname := rname) in Hcontents;
    [|exact Hrecord].
  cbv zeta in Hcontents. cbn [declaration_kind] in Hcontents.
  subst k sa. revert Hcontents. rewrite Hargs. intros Hcontents.
  destruct Hcontents
    as (Hsa & body' & sb & locals & sc & Hbody & Hsb & Hdec & Hlen & Hall & Hs2
        & Hf & Hparams).
  cbn [length] in Hbody. rewrite length_map in Hbody.
  split; [reflexivity|]. split; [exact Hsa|].
  exists body', sb, locals, sc.
  split; [exact Hbody|]. split; [exact Hsb|]. split; [exact Hdec|].
  split; [exact Hlen|]. split; [exact Hall|]. split; [now rewrite Hs2|].
  split; [exact Hf|].
  cbn [heap]. split.
  - specialize (Hparams 0 _ eq_refl). now rewrite Nat.add_0_r in Hparams.
  - intros i a Hi. specialize (Hparams (S i) (parameter_declaration a)).
    replace (S (S n) + i) with (S n + S i) by lia.
    apply Hparams.
    change (map parameter_declaration rest !! i = Some (parameter_declaration a)).
    rewrite list_lookup_fmap, Hi. reflexivity.
Qed.

End FunctionShape.
(** * Beyond the specification's properties: decorators *)

Section DecoratorProperties.
Context {E : Type} `{Frontend E}.

(** The loop over the keyword arguments of a decorator (lines 385-390):
    every keyword becomes a member, a new object of the store. *)
Lemma keywords_loop (keywords : list ast.keyword) :
  forall (members members' : list node) (h : list obj) (e : E) lg lc (s' : state E),
    for_fold (fun members kw =>
                match kw with
                | ast.Keyword arg value =>
                    value <- handle_expression value ;;
                    member <- NodeBuilderKt.newAnnotationMember
                                arg (NExpr value) (get_src_code (ast.OfKeyword kw)) ;;
                    ret (members ++ [member])
                end)%lowering keywords members (State h e lg lc) = Ok members' s' ->
    exists (objs : list obj) (e' : E),
      lower_members h e (decorator_arguments [] keywords) = XOk objs e'
      /\ members' = members ++ objects_from (length h) (length objs)
      /\ s' = State (h ++ objs) e' lg lc.
Proof.
  induction keywords as [|[arg value] keywords IH];
    intros members members' h e lg lc s' Hrun.
  - cbn in Hrun. injection Hrun as <- <-. exists [], e.
    unfold objects_from. cbn. now rewrite !app_nil_r.
  - cbn [for_fold] in Hrun. apply bind_Ok in Hrun as (members1 & s1 & Hstep & Hrun).
    revert Hstep. run. cbn [decorator_arguments app map lower_members].
    destruct (lower_expression h value e) as [g e1|x e1]; [|discriminate].
    run. intros Hstep. injection Hstep as <- <-.
    apply IH in Hrun as (objs & e' & Hobjs & -> & ->).
    cbn [decorator_arguments app] in Hobjs. rewrite Hobjs.
    eexists _, _. split; [reflexivity|].
    unfold objects_from. cbn [length seq map].
    rewrite length_app, Nat.add_1_r, <- !app_assoc. split; reflexivity.
Qed.

(** X20.  A decorator that is a call of a name or of an attribute,
    [@f(...)] or [@a.b(...)], and that is lowered.  The function
    expression is lowered first; the result of the call is a new
    annotation, appended to the list and bound to [annotation], whatever
    [annotation] was bound to before.  For a name the annotation is named
    by the name of the lowered function expression, for an attribute by
    its code.  The members of the annotation are the objects that follow
    it in the store, in this order: for an attribute a member named
    [receiver] that holds the base of the lowered function expression;
    when there are positional arguments a member named [value] that holds
    the lowered first one (the others are not lowered); and for every
    keyword argument a member of the keyword's name that holds its lowered
    value.  Each member has the code of the syntax that it comes from, and
    each value is lowered in the store that holds the members before it.
    Nothing is logged. *)
Theorem handle_decorator_annotation (annotations : list node)
        (annotation : option node) (func : ast.expr) (args : list ast.expr)
        (keywords : list ast.keyword) (s s' : state E)
        (locals' : list node * option node) :
  match func with ast.Name _ | ast.Attribute _ _ => True | _ => False end ->
  handle_decorator (annotations, annotation) (ast.Call func args keywords) s
  = Ok locals' s' ->
  let n := length (heap s) in
  let code := get_src_code (ast.OfExpr func) in
  locals' = (annotations ++ [NObj n], Some (NObj n))
  /\ exists (ref : gexpr) (e1 : E) (objs : list obj) (e2 : E),
      lower_expression (heap s) func (ext s) = XOk ref e1
      /\ match func with
         | ast.Attribute _ _ =>
             exists base name type rcode, ref = MemberExpression base name type rcode
         | _ => True
         end
      /\ lower_members (heap s ++ Annotation (annotation_name func ref) code []
                               :: receiver_member func ref)
                       e1 (decorator_arguments args keywords)
         = XOk objs e2
      /\ let members := receiver_member func ref ++ objs in
         s' = State (heap s
                          ++ Annotation (annotation_name func ref) code
                                        (objects_from (S n) (length members))
                          :: members)
                    e2 (log s) (locations s).
Proof.
  intros Hshape Hrun n code. subst n code. destruct s as [h e lg lc].
  cbn [heap ext log locations].
  revert Hrun. unfold handle_decorator.
  destruct func; try contradiction; run.
  all: match goal with
       | |- context [lower_expression ?h0 ?f ?e0] =>
           destruct (lower_expression h0 f e0) as [ref e1|x e1] eqn:Hfunc;
           [|discriminate]
       end.
  all: run.
  2: destruct ref as [| base rname rtype rcode |]; run; try discriminate.
  all: destruct args as [|arg0 args]; run.
  all: try match goal with
           | |- context [lower_expression ?h0 ?a0 ?e0] =>
               destruct (lower_expression h0 a0 e0) as [value e2|x e2] eqn:Harg;
               [|discriminate]
           end.
  all: run.
  all: match goal with
       | |- context [for_fold ?f ?kws ?m ?s1] =>
           destruct (for_fold f kws m s1) as [members s2|x s2] eqn:Hkw;
           [|discriminate]
       end.
  all: apply keywords_loop in Hkw as (objs & e3 & Hobjs & -> & ->).
  all: rewrite <- ?app_assoc; cbn [app].
  all: run.
  all: intros Hrun; injection Hrun as <- <-.
  all: split; [reflexivity|].
  all: eexists _, _, _, _.
  all: split; [reflexivity|].
  all: split; [eauto|].
  all: unfold annotation_name, receiver_member; cbn [getCode].
  all: cbn [decorator_arguments lower_members app] in *.
  all: rewrite <- ?app_assoc in *; cbn [app] in *.
  all: rewrite ?Harg; rewrite <- ?app_assoc; cbn [app]; rewrite ?Hobjs.
  all: split; [reflexivity|].
  all: cbv zeta; unfold objects_from; cbn [length seq map app].
  all: rewrite ?length_app; cbn [length].
  all: repeat match goal with
              | |- context [length ?h0 + ?k] =>
                  progress replace (length h0 + k) with (k + length h0) by lia
              end.
  all: reflexivity.
Qed.

End DecoratorProperties.

(** * The properties at work on the frontend [demo] *)

Section Examples.
Import demo.

(** [a = b = c] at module level. *)
Lemma handle_assign_multi_target_witness :
  2 <= length [ast.Name "a"; ast.Name "b"]
  /\ store_after (handle_assign (ast.Assign [ast.Name "a"; ast.Name "b"] (ast.Name "c"))
                                initial)
     = [BinaryOperator "=" "<stmt>" None None].
Proof.
  split; [cbn; lia|].
  rewrite (handle_assign_multi_target (H := frontend) [ast.Name "a"; ast.Name "b"] (ast.Name "c")
                                      initial); [reflexivity | cbn; lia].
Defined.

(** [x = 2] after [x = 1]. *)
Lemma handle_assign_rebinding_witness :
  resolve_reference (heap after_x) (lower (ast.Name "x")) (ext after_x) = Some 0
  /\ store_after (handle_assign (ast.Assign [ast.Name "x"] (ast.Constant "2")) after_x)
     = heap after_x ++ [BinaryOperator "=" "<stmt>" (Some (name_ref "x"))
                                       (Some (literal "2"))].
Proof.
  split; [reflexivity|].
  rewrite (handle_assign_rebinding (H := frontend)
             (ast.Assign [ast.Name "x"] (ast.Constant "2"))
             (ast.Name "x") (Some (ast.Constant "2")) after_x
             (lower (ast.Name "x")) (Some (lower (ast.Constant "2")))
             (ext after_x) (ext after_x) 0
             eq_refl eq_refl eq_refl eq_refl eq_refl).
  reflexivity.
Defined.

(** [x = 1] in the body of [class Foo]. *)
Lemma handle_assign_class_attribute_witness :
  is_in_record (ext in_class) = true /\ is_in_function (ext in_class) = false
  /\ store_after (handle_assign (ast.Assign [ast.Name "x"] (ast.Constant "1")) in_class)
     = heap in_class ++ [FieldDeclaration "x" (ParsedType "int") "<stmt>"
                                          (Some (literal "1"))].
Proof.
  split; [reflexivity|]. split; [reflexivity|].
  rewrite (handle_assign_class_attribute (H := frontend)
             (ast.Assign [ast.Name "x"] (ast.Constant "1"))
             (ast.Name "x") (Some (ast.Constant "1")) in_class
             (lower (ast.Name "x")) (Some (lower (ast.Constant "1")))
             (ext in_class) (ext in_class)
             eq_refl eq_refl eq_refl eq_refl eq_refl eq_refl eq_refl).
  reflexivity.
Defined.



(** [import X as Y, Z] at module level. *)
Lemma handle_statement_import_witness :
  import_names (ast.Import [ast.Alias "X" (Some "Y"); ast.Alias "Z" None])
  = Some [ast.Alias "X" (Some "Y"); ast.Alias "Z" None]
  /\ store_after (handle_statement
                    (ast.Import [ast.Alias "X" (Some "Y"); ast.Alias "Z" None]) initial)
     = [DeclarationStatement "<stmt>" [NObj 1; NObj 2];
        VariableDeclaration "Y" UnknownType "Y as Y" None;
        VariableDeclaration "Z" UnknownType "Z" None]
  /\ globals (ext (state_after
                     (handle_statement
                        (ast.Import [ast.Alias "X" (Some "Y"); ast.Alias "Z" None])
                        initial)))
     = [("Z", 2); ("Y", 1)].
Proof.
  split; [reflexivity|].
  rewrite (handle_statement_import (H := frontend)
             (ast.Import [ast.Alias "X" (Some "Y"); ast.Alias "Z" None])
             [ast.Alias "X" (Some "Y"); ast.Alias "Z" None] initial eq_refl).
  split; reflexivity.
Defined.

(** [for x in (1, 2): pass] at module level, [x] not declared. *)
Lemma handle_for_unresolved_target_witness :
  let iter := ast.Tuple [ast.Constant "1"; ast.Constant "2"] in
  let stmt := ast.For (ast.Name "x") iter [ast.Pass] [] in
  resolve_reference [ForEachStatement "<stmt>" (Some (NExpr (lower iter))) None None]
                    (lower (ast.Name "x")) empty = None
  /\ outcome (handle_for handle_statement stmt initial) = inl (NObj 0)
  /\ store_after (handle_for handle_statement stmt initial)
     = [ForEachStatement "<stmt>" (Some (NExpr (lower iter))) (Some (NObj 2))
                         (Some (NObj 3));
        VariableDeclaration "x" (getType (lower iter)) "x" None;
        DeclarationStatement EmptyString [NObj 1];
        CompoundStatement EmptyString [NObj 4];
        EmptyStatement "pass"].
Proof.
  intros iter stmt. split; [reflexivity|].
  destruct (handle_for_unresolved_target
              (H := frontend) stmt (ast.Name "x") iter [ast.Pass] [] initial
              (lower iter) (lower (ast.Name "x")) empty empty
              eq_refl eq_refl eq_refl eq_refl) as [Hrun _].
  rewrite Hrun. split; reflexivity.
Defined.

(** The same loop against C4 as it is stated: the elements of the tuple
    are of type [int], the Variable is of type [tuple]. *)
Lemma for_variable_is_not_typed_by_the_elements :
  let iter := ast.Tuple [ast.Constant "1"; ast.Constant "2"] in
  let stmt := ast.For (ast.Name "x") iter [ast.Pass] [] in
  element_type iter = ParsedType "int"
  /\ store_after (handle_for handle_statement stmt initial) !! 1
     = Some (VariableDeclaration "x" (ParsedType "tuple") "x" None)
  /\ ~ (exists name code initializer,
          store_after (handle_for handle_statement stmt initial) !! 1
          = Some (VariableDeclaration name (element_type iter) code initializer)).
Proof.
  intros iter stmt. split; [reflexivity|]. split; [reflexivity|].
  intros (name & code & initializer & Hvar). vm_compute in Hvar. discriminate Hvar.
Qed.

(** C5 on the code: [x += 2] after [x = 1] is lowered like [x = 2], to a
    "=" operator, and [y += 2] with [y] not declared is lowered to a new
    Variable; the operator code [+] of the statement is in neither. *)
Theorem augmented_assignment_is_lowered_as_assignment :
  lower_operator_code ast.Add = "+"
  /\ store_after (handle_assign (ast.AugAssign (ast.Name "x") ast.Add (ast.Constant "2"))
                                after_x)
     = heap after_x ++ [BinaryOperator "=" "<stmt>" (Some (name_ref "x"))
                                       (Some (literal "2"))]
  /\ store_after (handle_assign (ast.AugAssign (ast.Name "y") ast.Add (ast.Constant "2"))
                                after_x)
     = heap after_x ++ [VariableDeclaration "y" (ParsedType "int") "<stmt>"
                                            (Some (literal "2"))].
Proof. repeat split; vm_compute; reflexivity. Qed.

(** C7 on the code: [@f()()] on [def g(): pass].  The error is logged,
    and then the unbound variable [annotation] is read: the lowering raises,
    the frame of [g] is not left and [g] is not registered. *)
Theorem decorator_of_other_shape_raises :
  let decorator := ast.Call (ast.Call (ast.Name "f") [] []) [] [] in
  let stmt := ast.FunctionDef "g" no_arguments [ast.Pass] [decorator] None in
  let r := handle_function_or_method handle_statement stmt None initial in
  outcome r = inr (UnboundLocalError "annotation")
  /\ head (log (state_after r)) = Some (LogEntry ERROR NOT_IMPLEMENTED_MSG [])
  /\ stack (ext (state_after r)) = [Frame (NObj 0) FunctionFrame "g" []]
  /\ globals (ext (state_after r)) = [].
Proof. repeat split; vm_compute; reflexivity. Qed.

(** [def __init__(self): pass] lowered as a method of [class Foo]. *)
Lemma handle_function_or_method_kind_and_scope_witness :
  let stmt := ast.FunctionDef "__init__" self_argument [ast.Pass] [] None in
  let r := handle_function_or_method handle_statement stmt (Some (NObj 0)) in_class in
  function_parts stmt = Some ("__init__", self_argument, [ast.Pass], [], None)
  /\ outcome r = inl (NObj 1)
  /\ store_after r !! 1
     = Some (FunctionDeclaration Constructor "__init__" "<stmt>" (Some (NObj 0))
                                 (Some (NObj 2)) (Some (NObj 3)) [])
  /\ stack (ext (state_after r)) = [Frame (NObj 0) RecordFrame "Foo" [("__init__", 1)]].
Proof.
  intros stmt r. split; [reflexivity|]. subst r.
  destruct (handle_function_or_method_kind_and_scope
              (H := frontend) stmt "__init__" self_argument [ast.Pass] [] None
              (Some (NObj 0)) in_class eq_refl) as [Hrun _].
  rewrite Hrun. repeat split; vm_compute; reflexivity.
Defined.

(** [async def baz(self): pass] in the body of [class Foo]. *)
Lemma async_function_in_class_body_witness :
  let stmt := ast.AsyncFunctionDef "baz" self_argument [ast.Pass] [] None in
  outcome (handle_statement stmt in_class) = inl (NObj 1)
  /\ store_after (handle_class_body_stmt handle_statement (NObj 0) stmt in_class)
     = [RecordDeclaration "Foo" "class" "<stmt>" [] [] [NObj 5] [];
        FunctionDeclaration Function "baz" "<stmt>" None None (Some (NObj 3)) [];
        ParamVariableDeclaration "self" UnknownType "self";
        CompoundStatement EmptyString [NObj 4];
        EmptyStatement "pass";
        DeclarationStatement EmptyString [NObj 1]].
Proof.
  intros stmt. split; [vm_compute; reflexivity|].
  assert (Hst : handle_statement stmt in_class
                = Ok (NObj 1) (state_after (handle_statement stmt in_class)))
    by (vm_compute; reflexivity).
  destruct (async_function_in_class_body
              (H := frontend) "baz" self_argument [ast.Pass] [] None 0 in_class
              (state_after (handle_statement stmt in_class)) (NObj 1)
              "Foo" "class" "<stmt>" [] [] [] [] eq_refl Hst)
    as (_ & _ & _ & _ & fields' & Hrecord & Hrun).
  subst stmt. rewrite Hrun. vm_compute in Hrecord. injection Hrecord as <-.
  vm_compute. reflexivity.
Defined.

End Examples.
(** * The further properties at work on the frontend [demo] *)

Section FurtherExamples.
Import demo.

(** [(a, b) = 1] at module level. *)
Lemma handle_assign_other_target_witness :
  let target := ast.Tuple [ast.Name "a"; ast.Name "b"] in
  let stmt := ast.Assign [target] (ast.Constant "1") in
  is_reference (lower target) = false
  /\ outcome (handle_assign stmt initial) = inl (NObj 0)
  /\ store_after (handle_assign stmt initial)
     = [BinaryOperator "=" "<stmt>" None None]
  /\ ext (state_after (handle_assign stmt initial)) = empty.
Proof.
  intros target stmt. split; [reflexivity|].
  rewrite (handle_assign_other_target (H := frontend) stmt target
             (Some (ast.Constant "1")) initial (lower target)
             (Some (lower (ast.Constant "1"))) empty empty
             eq_refl eq_refl eq_refl eq_refl).
  repeat split.
Defined.

(** [y = 2] after [x = 1], at module level. *)
Lemma handle_assign_new_variable_witness :
  let stmt := ast.Assign [ast.Name "y"] (ast.Constant "2") in
  resolve_reference (heap after_x) (lower (ast.Name "y")) (ext after_x) = None
  /\ outcome (handle_assign stmt after_x) = inl (NObj 1)
  /\ store_after (handle_assign stmt after_x)
     = heap after_x ++ [VariableDeclaration "y" (ParsedType "int") "<stmt>"
                                            (Some (literal "2"))]
  /\ globals (ext (state_after (handle_assign stmt after_x))) = [("y", 1); ("x", 0)].
Proof.
  intros stmt. split; [reflexivity|].
  rewrite (handle_assign_new_variable (H := frontend) stmt (ast.Name "y")
             (Some (ast.Constant "2")) after_x (lower (ast.Name "y"))
             (Some (lower (ast.Constant "2"))) (ext after_x) (ext after_x)
             eq_refl eq_refl eq_refl eq_refl eq_refl eq_refl).
  repeat split.
Defined.

(** [self.y = 2] in the body of [def bar(self)] of [class Foo]. *)
Lemma handle_assign_field_of_receiver_witness :
  let stmt := ast.Assign [ast.Attribute (ast.Name "self") "y"] (ast.Constant "2") in
  current_function (ext in_method) = Some (NObj 1)
  /\ outcome (handle_assign stmt in_method) = inl (NObj 3)
  /\ store_after (handle_assign stmt in_method)
     = [RecordDeclaration "Foo" "class" "<stmt>" [] [] [] [NObj 3];
        FunctionDeclaration Method "bar" "<stmt>" (Some (NObj 0)) (Some (NObj 2))
                            None [];
        VariableDeclaration "self" (ParsedType "Foo") "self" None;
        FieldDeclaration "y" (ParsedType "int") "<stmt>" (Some (literal "2"))].
Proof.
  intros stmt. split; [reflexivity|].
  rewrite (handle_assign_field_of_receiver (H := frontend) stmt
             (ast.Attribute (ast.Name "self") "y") (Some (ast.Constant "2")) in_method
             (Some (lower (ast.Constant "2"))) (ext in_method) (ext in_method)
             (lower (ast.Name "self")) "y" UnknownType "self.y"
             1 2 0 Method "bar" "<stmt>" (Some (NObj 0)) None []
             (VariableDeclaration "self" (ParsedType "Foo") "self" None)
             "Foo" "class" "<stmt>" [] [] [] []
             eq_refl eq_refl eq_refl eq_refl eq_refl eq_refl eq_refl eq_refl
             ltac:(discriminate) eq_refl eq_refl eq_refl eq_refl).
  repeat split.
Defined.

(** [for x in (1, 2): pass] after [x = 1], at module level. *)
Lemma handle_for_resolved_target_witness :
  let iter := ast.Tuple [ast.Constant "1"; ast.Constant "2"] in
  let stmt := ast.For (ast.Name "x") iter [ast.Pass] [] in
  resolve_reference (heap after_x
                       ++ [ForEachStatement "<stmt>" (Some (NExpr (lower iter))) None None])
                    (lower (ast.Name "x")) (ext after_x) = Some 0
  /\ outcome (handle_for handle_statement stmt after_x) = inl (NObj 1)
  /\ store_after (handle_for handle_statement stmt after_x)
     = heap after_x
         ++ [ForEachStatement "<stmt>" (Some (NExpr (lower iter))) (Some (name_ref "x"))
                              (Some (NObj 2));
             CompoundStatement EmptyString [NObj 3];
             EmptyStatement "pass"].
Proof.
  intros iter stmt. split; [reflexivity|].
  destruct (handle_for_resolved_target
              (H := frontend) stmt (ast.Name "x") iter [ast.Pass] [] after_x
              (lower iter) (lower (ast.Name "x")) (ext after_x) (ext after_x) 0
              eq_refl eq_refl eq_refl eq_refl) as [Hrun _].
  rewrite Hrun. split; vm_compute; reflexivity.
Defined.

(** [with open(f): pass] at module level. *)
Lemma handle_statement_unimplemented_witness :
  let stmt := ast.With [(ast.Call (ast.Name "open") [ast.Name "f"] [], None)]
                       [ast.Pass] in
  is_unimplemented stmt = true
  /\ store_after (handle_statement stmt initial) = [Statement EmptyString]
  /\ ext (state_after (handle_statement stmt initial)) = empty.
Proof.
  intros stmt. split; [reflexivity|].
  rewrite (handle_statement_unimplemented (H := frontend) stmt initial eq_refl).
  split; reflexivity.
Defined.

(** The block [pass; break] at module level. *)
Lemma make_compound_statement_children_witness :
  let stmts := [ast.Pass; ast.Break] in
  let s' := state_after (make_compound_statement handle_statement stmts initial) in
  make_compound_statement handle_statement stmts initial = Ok (NObj 0) s'
  /\ exists cs, heap s' !! 0 = Some (CompoundStatement EmptyString cs)
                /\ length cs = 2.
Proof.
  intros stmts s'.
  assert (Hrun : make_compound_statement handle_statement stmts initial
                 = Ok (NObj 0) s') by (vm_compute; reflexivity).
  split; [exact Hrun|].
  destruct (make_compound_statement_children (H := frontend) stmts initial s' (NObj 0)
                                             Hrun)
    as (_ & cs & s1 & _ & Hcs & Hlen & Hs').
  exists cs. split; [|exact Hlen].
  exact (eq_trans (f_equal (fun s => heap s !! 0) Hs') Hcs).
Defined.

(** [if c: pass] with [else: pass], at module level. *)
Lemma handle_statement_if_witness :
  let stmt := ast.If (ast.Name "c") [ast.Pass] [ast.Pass] in
  lower_expression [IfStatement "<stmt>" None None None] (ast.Name "c") empty
  = XOk (lower (ast.Name "c")) empty
  /\ outcome (handle_statement stmt initial) = inl (NObj 0)
  /\ store_after (handle_statement stmt initial)
     = [IfStatement "<stmt>" (Some (name_ref "c")) (Some (NObj 1)) (Some (NObj 3));
        CompoundStatement EmptyString [NObj 2];
        EmptyStatement "pass";
        CompoundStatement EmptyString [NObj 4];
        EmptyStatement "pass"].
Proof.
  intros stmt. split; [reflexivity|].
  destruct (handle_statement_if (H := frontend) (ast.Name "c") [ast.Pass] [ast.Pass]
                                initial (lower (ast.Name "c")) empty eq_refl)
    as [Hrun _].
  subst stmt. rewrite Hrun. split; vm_compute; reflexivity.
Defined.


(** [class Foo(Base, a.B)] with a method and a statement, at module
    level. *)
Lemma handle_statement_class_witness :
  let body := [ast.FunctionDef "bar" self_argument [ast.Pass] [] None; ast.Pass] in
  let bases := [ast.Name "Base"; ast.Attribute (ast.Name "a") "B"] in
  let stmt := ast.ClassDef "Foo" bases [] body [] in
  let s' := state_after (handle_statement stmt initial) in
  handle_statement stmt initial = Ok (NObj 0) s'
  /\ base_types "module" bases = [ParsedType "module.Base"]
  /\ exists methods statements fields,
      heap s' !! 0 = Some (RecordDeclaration "Foo" "class" "<stmt>"
                                             [ParsedType "module.Base"]
                                             methods statements fields)
      /\ length methods = 1
      /\ length statements = 1.
Proof.
  intros body bases stmt s'.
  assert (Hrun : handle_statement stmt initial = Ok (NObj 0) s')
    by (vm_compute; reflexivity).
  split; [exact Hrun|]. split; [reflexivity|].
  destruct (handle_statement_class (H := frontend) "Foo" bases [] body []
                                   initial s' (NObj 0) Hrun)
    as (_ & methods & statements & fields & s2 & _ & Hrecord & Hm & Hs & Hs').
  exists methods, statements, fields.
  split; [exact (eq_trans (f_equal (fun s => heap s !! 0) Hs') Hrecord)|].
  split; [exact Hm | exact Hs].
Defined.

(** [@staticmethod] on [def g(): pass]. *)
Lemma function_with_bare_decorator_raises_witness :
  let decorator := ast.Name "staticmethod" in
  let stmt := ast.FunctionDef "g" no_arguments [ast.Pass] [decorator] None in
  In decorator [decorator]
  /\ is_call decorator = false
  /\ exists x s', handle_statement stmt initial = Raised x s'.
Proof.
  intros decorator stmt. split; [now left|]. split; [reflexivity|].
  destruct (function_with_bare_decorator_raises
              (H := frontend) stmt "g" no_arguments [ast.Pass] [decorator] None
              decorator eq_refl (or_introl eq_refl) eq_refl) as [_ Hstmt].
  exact (Hstmt initial).
Defined.

(** [def g(x: List[int]): pass] at module level. *)
Lemma function_with_annotation_without_id_raises_witness :
  let a := ast.Arg "x" (Some (ast.Subscript (ast.Name "List") (ast.Name "int"))) in
  let args := ast.Arguments [] [a] None [] [] None [] in
  let stmt := ast.FunctionDef "g" args [ast.Pass] [] None in
  annotation_without_id a = true
  /\ exists x s',
      handle_function_or_method handle_statement stmt None initial = Raised x s'
      /\ (@None node = None -> x = AttributeError "id").
Proof.
  intros a args stmt. split; [reflexivity|].
  exact (function_with_annotation_without_id_raises
           (H := frontend) stmt "g" args [ast.Pass] [] None None a
           eq_refl (or_introl eq_refl) eq_refl initial).
Defined.

(** [@deco()] on [def g(x: int, y): pass] at module level. *)
Lemma function_definition_declarations_witness :
  let x := ast.Arg "x" (Some (ast.Name "int")) in
  let y := ast.Arg "y" None in
  let args := ast.Arguments [] [x; y] None [] [] None [] in
  let decorator := ast.Call (ast.Name "deco") [] [] in
  let stmt := ast.FunctionDef "g" args [ast.Pass] [decorator] None in
  let s' := state_after (handle_function_or_method handle_statement stmt None initial) in
  handle_function_or_method handle_statement stmt None initial = Ok (NObj 0) s'
  /\ heap s' !! 1 = Some (ParamVariableDeclaration "x" (ParsedType "int") "x")
  /\ heap s' !! 2 = Some (ParamVariableDeclaration "y" UnknownType "y")
  /\ exists body' annotations,
      heap s' !! 0 = Some (FunctionDeclaration Function "g" "<stmt>" None None
                                               body' annotations)
      /\ length annotations = 1.
Proof.
  intros x y args decorator stmt s'.
  assert (Hrun : handle_function_or_method handle_statement stmt None initial
                 = Ok (NObj 0) s') by (vm_compute; reflexivity).
  split; [exact Hrun|].
  destruct (function_definition_declarations
              (H := frontend) stmt "g" args [ast.Pass] [decorator] None
              initial s' (NObj 0) eq_refl Hrun)
    as (_ & _ & body' & sb & locals & sc & _ & _ & _ & Hanns & _ & _ & Hf & Hparams).
  split; [exact (Hparams 0 x eq_refl)|].
  split; [exact (Hparams 1 y eq_refl)|].
  exists body', (fst locals). split; [exact Hf | exact Hanns].
Defined.

(** [def bar(self: int, x: int): pass] as a method of [class Foo]. *)
Lemma method_definition_declarations_witness :
  let self := ast.Arg "self" (Some (ast.Name "int")) in
  let x := ast.Arg "x" (Some (ast.Name "int")) in
  let args := ast.Arguments [] [self; x] None [] [] None [] in
  let stmt := ast.FunctionDef "bar" args [ast.Pass] [] None in
  let s' := state_after (handle_function_or_method handle_statement stmt
                                                   (Some (NObj 0)) in_class) in
  handle_function_or_method handle_statement stmt (Some (NObj 0)) in_class
  = Ok (NObj 1) s'
  /\ heap s' !! 2 = Some (VariableDeclaration "self" (ParsedType "Foo") "self" None)
  /\ heap s' !! 3 = Some (ParamVariableDeclaration "x" (ParsedType "int") "x")
  /\ exists body' annotations,
      heap s' !! 1 = Some (FunctionDeclaration Method "bar" "<stmt>" (Some (NObj 0))
                                               (Some (NObj 2)) body' annotations).
Proof.
  intros self x args stmt s'.
  assert (Hrun : handle_function_or_method handle_statement stmt (Some (NObj 0)) in_class
                 = Ok (NObj 1) s') by (vm_compute; reflexivity).
  split; [exact Hrun|].
  destruct (method_definition_declarations
              (H := frontend) stmt "bar" args [ast.Pass] [] None in_class s' (NObj 1) 0
              "Foo" "class" "<stmt>" [] [] [] [] self [x] eq_refl eq_refl eq_refl Hrun)
    as (_ & _ & body' & sb & locals & sc & _ & _ & _ & _ & _ & _ & Hf & Hrecv & Hparams).
  split; [exact Hrecv|].
  split; [exact (Hparams 0 x eq_refl)|].
  exists body', (fst locals). exact Hf.
Defined.

(** The frames of [demo]: the depth is the length of the stack.  A class
    with a method, at module level. *)
Lemma handle_statement_scope_balance_witness :
  let body := [ast.FunctionDef "bar" self_argument [ast.Pass] [] None] in
  let stmt := ast.ClassDef "Foo" [] [] body [] in
  match handle_statement stmt initial with
  | Ok _ s' => length (stack (ext s')) = length (stack (ext initial))
  | Raised _ s' => length (stack (ext initial)) <= length (stack (ext s'))
  end.
Proof.
  intros body stmt.
  apply (handle_statement_scope_balance (H := frontend) (fun e => length (stack e))).
  - intros h x e g e' Hlower. cbn in Hlower. now injection Hlower as _ <-.
  - intros h x e err e' Hlower. discriminate Hlower.
  - intros h n e. cbn. unfold declare.
    destruct n as [l|g]; [|reflexivity].
    destruct (h !! l); [|reflexivity]. destruct (stack e) as [|[] ?]; reflexivity.
  - intros h l e Hl. cbn. unfold enter.
    destruct (h !! l) eqn:Hh; [reflexivity|]. apply lookup_ge_None in Hh. lia.
  - intros h n e. cbn. destruct (stack e); reflexivity.
Defined.

(** [return 1] at module level. *)
Lemma handle_statement_return_witness :
  lower_value [ReturnStatement "<stmt>" None] (Some (ast.Constant "1")) empty
  = XOk (Some (lower (ast.Constant "1"))) empty
  /\ store_after (handle_statement (ast.Return (Some (ast.Constant "1"))) initial)
     = [ReturnStatement "<stmt>" (Some (literal "1"))].
Proof.
  split; [reflexivity|].
  rewrite (handle_statement_return (H := frontend) (Some (ast.Constant "1")) initial
                                   (Some (lower (ast.Constant "1"))) empty eq_refl).
  reflexivity.
Defined.

(** The decorator [@app.route(p, q, methods=m)], the first of a list. *)
Lemma handle_decorator_annotation_witness :
  let func := ast.Attribute (ast.Name "app") "route" in
  let args := [ast.Name "p"; ast.Name "q"] in
  let keywords := [ast.Keyword (Some "methods") (ast.Name "m")] in
  let s' := state_after (handle_decorator ([], None) (ast.Call func args keywords)
                                          initial) in
  handle_decorator ([], None) (ast.Call func args keywords) initial
  = Ok ([NObj 0], Some (NObj 0)) s'
  /\ heap s'
     = [Annotation "app.route" "app.route" [NObj 1; NObj 2; NObj 3];
        AnnotationMember (Some "receiver") (name_ref "app") "app.route";
        AnnotationMember (Some "value") (name_ref "p") "p";
        AnnotationMember (Some "methods") (name_ref "m") "<keyword>"].
Proof.
  intros func args keywords s'.
  assert (Hrun : handle_decorator ([], None) (ast.Call func args keywords) initial
                 = Ok ([NObj 0], Some (NObj 0)) s') by (vm_compute; reflexivity).
  split; [exact Hrun|].
  destruct (handle_decorator_annotation (H := frontend) [] None func args keywords
                                        initial s' _ I Hrun)
    as (_ & ref & e1 & objs & e2 & Hlower & _ & Hobjs & Hs').
  cbn in Hlower. injection Hlower as <- <-.
  vm_compute in Hobjs. injection Hobjs as <- <-.
  exact (f_equal (fun s => heap s) Hs').
Defined.

End FurtherExamples.
